(** * SNMP autoload of Cisco devices: a shallow embedding of
      [cloudshell/networking/cisco/autoload/cisco_generic_snmp_autoload.py]

    The class [CiscoGenericSNMPAutoload] is embedded as a record [autoload]
    of its instance attributes and one Rocq function per method.  Methods
    that mutate [self] are computations in a state-and-exception monad;
    Python exceptions are values of [exn]. *)

From Stdlib Require Import ZArith Ascii String List DecimalString DecimalPos DecimalZ Lia.
From stdpp Require Import base option list sorting gmap strings.

Local Open Scope string_scope.
Local Open Scope list_scope.
Local Open Scope Z_scope.

(** ** Python values, exceptions and the builtins the module relies on *)

Module Py.

Inductive exn : Type :=
| AttributeError
| KeyError
| ValueError
| IndexError
| RecursionError
| Exception (msg : string).

Inductive result (A : Type) : Type :=
| Ok (a : A)
| Raise (e : exn).
Arguments Ok {A} a.
Arguments Raise {A} e.

#[global] Instance result_ret : MRet result := fun _ a => Ok a.
#[global] Instance result_bind : MBind result := fun _ _ f r =>
  match r with Ok a => f a | Raise e => Raise e end.

(** A dynamically typed cell: the column [entPhysicalContainedIn] holds a
    [str] when read from the device and an [int] after the bay repair. *)
Inductive value : Type :=
| VStr (s : string)
| VInt (z : Z).

#[global] Instance value_eq_dec : EqDecision value.
Proof. solve_decision. Defined.

Definition is_space (c : ascii) : bool :=
  match c with
  | " " | "009" | "010" | "011" | "012" | "013" => true
  | _ => false
  end%char.

Definition is_digit (c : ascii) : bool :=
  match c with
  | "0" | "1" | "2" | "3" | "4" | "5" | "6" | "7" | "8" | "9" => true
  | _ => false
  end%char.

Fixpoint lstrip (s : string) : string :=
  match s with
  | String c r => if is_space c then lstrip r else s
  | EmptyString => EmptyString
  end.

Fixpoint rstrip (s : string) : string :=
  match s with
  | String c r =>
      match rstrip r with
      | EmptyString => if is_space c then EmptyString else String c EmptyString
      | r' => String c r'
      end
  | EmptyString => EmptyString
  end.

(** [s.strip()] *)
Definition strip (s : string) : string := rstrip (lstrip s).

(** [str(z)] for an integer. *)
Definition str (z : Z) : string := NilZero.string_of_int (Z.to_int z).

(** [int(s)] for a string: surrounding whitespace is ignored, an optional
    sign is followed by at least one decimal digit; anything else raises
    [ValueError]. *)
Definition int_of_str (s : string) : result Z :=
  let t := strip s in
  let parsed :=
    match t with
    | String "+"%char r => option_map Decimal.Pos (NilZero.uint_of_string r)
    | _ => NilZero.int_of_string t
    end in
  match parsed with
  | Some d => Ok (Z.of_int d)
  | None => Raise ValueError
  end.

(** [int(v)] for a cell. *)
Definition int (v : value) : result Z :=
  match v with
  | VStr s => int_of_str s
  | VInt z => Ok z
  end.

(** [sub in s] on strings. *)
Fixpoint contains (sub s : string) : bool :=
  String.prefix sub s ||
  match s with
  | String _ r => contains sub r
  | EmptyString => false
  end.

Definition lower_char (c : ascii) : ascii :=
  let n := nat_of_ascii c in
  if (65 <=? n)%nat && (n <=? 90)%nat then ascii_of_nat (n + 32) else c.

(** [s.lower()] *)
Fixpoint lower (s : string) : string :=
  match s with
  | String c r => String (lower_char c) (lower r)
  | EmptyString => EmptyString
  end.

(** [s.split(sep)] for a one-character separator: never the empty list. *)
Fixpoint split (sep : ascii) (s : string) : list string :=
  match s with
  | EmptyString => [EmptyString]
  | String c r =>
      if Ascii.eqb c sep then EmptyString :: split sep r
      else match split sep r with
           | seg :: segs => String c seg :: segs
           | [] => [String c EmptyString]
           end
  end.

(** [s.split()]: maximal runs of non-whitespace characters. *)
Fixpoint split_ws (s : string) : list string :=
  match s with
  | EmptyString => []
  | String c r =>
      if is_space c then split_ws r
      else match r with
           | EmptyString => [String c EmptyString]
           | String c' _ =>
               if is_space c' then String c EmptyString :: split_ws r
               else match split_ws r with
                    | tok :: toks => String c tok :: toks
                    | [] => [String c EmptyString]
                    end
           end
  end.

(** [sep.join(l)] *)
Fixpoint join (sep : string) (l : list string) : string :=
  match l with
  | [] => EmptyString
  | [x] => x
  | x :: rest => x +:+ sep +:+ join sep rest
  end.

(** [l[-1]] *)
Definition last_item {A} (l : list A) : result A :=
  match last l with
  | Some x => Ok x
  | None => Raise IndexError
  end.

(** [l[-1] = x] *)
Definition set_last {A} (x : A) (l : list A) : result (list A) :=
  match l with
  | [] => Raise IndexError
  | _ => Ok (removelast l ++ [x])
  end.

(** [l.remove(x)]: drops the first occurrence, [ValueError] when absent. *)
Fixpoint remove (x : Z) (l : list Z) : result (list Z) :=
  match l with
  | [] => Raise ValueError
  | y :: r => if decide (x = y) then Ok r
              else r' ← remove x r; Ok (y :: r')
  end.

(** [s.replace(old, "")] for a one-character [old]. *)
Fixpoint delete_char (old : ascii) (s : string) : string :=
  match s with
  | String c r => if Ascii.eqb c old then delete_char old r
                  else String c (delete_char old r)
  | EmptyString => EmptyString
  end.

(** [re.search(p, s)] as a truth value, for a pattern [p] that is an
    alternation [k1|k2|...] of literal keywords. *)
Definition re_search (keywords : list string) (s : string) : bool :=
  existsb (fun k => contains k s) keywords.

(** [re.search(p, s, re.IGNORECASE)] for lower-case literal keywords. *)
Definition re_search_ignorecase (keywords : list string) (s : string) : bool :=
  re_search keywords (lower s).

(** [re.findall('\d+', s)]: the maximal runs of decimal digits. *)
Fixpoint findall_digits (s : string) : list string :=
  match s with
  | EmptyString => []
  | String c r =>
      if is_digit c then
        match r with
        | String c' _ =>
            if is_digit c' then
              match findall_digits r with
              | run :: runs => String c run :: runs
              | [] => [String c EmptyString]
              end
            else String c EmptyString :: findall_digits r
        | EmptyString => [String c EmptyString]
        end
      else findall_digits r
  end.

(** [x in d.values()] for a dictionary with string values. *)
Definition dict_values {V} (d : gmap Z V) : list V := (map_to_list d).*2.

End Py.
Import Py.

(** ** MIB tables

    [QualiMibTable] (package [cloudshell.snmp], not part of this repository)
    is an ordered dictionary from an index to a row.  The physical inventory
    rows are records of the six [entPhysical*] columns the module reads. *)

Record entity_row : Type := mkEntityRow {
  entPhysicalParentRelPos : string;
  entPhysicalContainedIn : value;
  entPhysicalClass : string;
  entPhysicalVendorType : string;
  entPhysicalDescr : string;
  entPhysicalName : string
}.

(** A row of [ifDescr]: the descriptor and the row's ['suffix'] cell. *)
Record if_row : Type := mkIfRow {
  ifDescr : string;
  suffix : string
}.

(** A row of [ipAddrTable] / [ipv6AddrEntry]; the cell [ipAdEntIfIndex]
    may be missing from the row. *)
Record ip_row : Type := mkIpRow {
  ipAdEntIfIndex : option string
}.

Inductive column : Type :=
| ParentRelPos | ContainedIn | Class | VendorType | Descr | Name.

Definition cell (c : column) (row : entity_row) : value :=
  match c with
  | ParentRelPos => VStr (entPhysicalParentRelPos row)
  | ContainedIn => entPhysicalContainedIn row
  | Class => VStr (entPhysicalClass row)
  | VendorType => VStr (entPhysicalVendorType row)
  | Descr => VStr (entPhysicalDescr row)
  | Name => VStr (entPhysicalName row)
  end.

Module QualiMibTable.

Definition t (K R : Type) : Type := list (K * R).

Section Dict.
Context {K R : Type} `{EqDecision K}.

(** [table.keys()], in insertion order. *)
Definition keys (tb : t K R) : list K := tb.*1.

(** [table.values()] *)
Definition values (tb : t K R) : list R := tb.*2.

(** [table[k]] *)
Fixpoint get (k : K) (tb : t K R) : result R :=
  match tb with
  | [] => Raise KeyError
  | (k', r) :: rest => if decide (k = k') then Ok r else get k rest
  end.

(** [k in table] *)
Definition mem (k : K) (tb : t K R) : bool := bool_decide (k ∈ keys tb).

(** [table[k] = r]: an existing key keeps its place. *)
Fixpoint set_item (k : K) (r : R) (tb : t K R) : t K R :=
  match tb with
  | [] => [(k, r)]
  | (k', r') :: rest =>
      if decide (k = k') then (k, r) :: rest
      else (k', r') :: set_item k r rest
  end.
End Dict.

(** Modelled from the spec: [QualiMibTable.filter_by_column(name, *values)]
    is defined outside this repository.  It keeps the rows whose column
    holds one of the given values (the children of a container, the rows of
    class container), in their order. *)
Definition filter_by_column (c : column) (vals : list value)
    (tb : t Z entity_row) : t Z entity_row :=
  List.filter (fun kr => bool_decide (cell c kr.2 ∈ vals)) tb.

Fixpoint insert_by_key {A} (x : Z * A) (l : list (Z * A)) : list (Z * A) :=
  match l with
  | [] => [x]
  | y :: rest => if x.1 <=? y.1 then x :: l else y :: insert_by_key x rest
  end.

(** Modelled from the spec: [QualiMibTable.sort_by_column(name)] is
    defined outside this repository.  Rows are ordered by the integer
    value of the column, rows with equal values keeping their order; a
    cell that is not an integer raises [ValueError]. *)
Definition sort_by_column (c : column) (tb : t Z entity_row)
    : result (t Z entity_row) :=
  keyed ← mapM (fun kr => n ← Py.int (cell c kr.2); Ok (n, kr)) tb;
  Ok (foldr insert_by_key [] keyed).*2.

End QualiMibTable.

(** ** The SNMP handler and the output objects *)

Inductive snmp_query : Type :=
| GetTable (mib name : string)
| GetProperties (mib : string) (index : Z) (names : list string)
| GetProperty (mib name : string) (index : Z)
| Get (mib name : string) (index : Z)
| LoadMib (mibs : list string)
| UpdateMibSources.

(** What the device answers.  [snmp_property] serves both [get_property]
    and the cells of [get_properties] (the empty string when the object is
    absent); [snmp_get_alias] is the value under ['entAliasMappingIdentifier']
    of [snmp.get], which may raise. *)
Record snmp_handler : Type := mkSnmp {
  snmp_entPhysicalParentRelPos : QualiMibTable.t Z string;
  snmp_ifDescr : QualiMibTable.t Z if_row;
  snmp_ipAddrTable : QualiMibTable.t string ip_row;
  snmp_ipv6AddrEntry : QualiMibTable.t string ip_row;
  snmp_table : string -> string -> QualiMibTable.t string (list (string * string));
  snmp_property : string -> string -> Z -> string;
  snmp_get_alias : Z -> result string
}.

Inductive resource_class : Type :=
| ChassisResource | ModuleResource | PortResource | PowerPortResource
| PortChannelResource.

(** Modelled from the spec: the resource classes ([Chassis], [Module],
    [Port], [PowerPort], [PortChannel]) are defined outside this repository.
    A descriptor carries category, name, model and address; every keyword
    argument of the constructor yields one attribute record
    (address, attribute name, value). *)
Record resource : Type := mkResource {
  res_class : resource_class;
  res_name : option string;
  res_model : option string;
  res_relative_address : string
}.

Record attribute : Type := mkAttribute {
  attr_relative_address : string;
  attr_name : string;
  attr_value : string
}.

Record autoload : Type := mkAutoload {
  exclusion_list : list Z;
  _excluded_models : list Z;
  module_list : list Z;
  chassis_list : list Z;
  port_list : list Z;
  power_supply_list : list Z;
  relative_path : gmap Z string;
  port_mapping : gmap Z Z;
  resources : list resource;
  attributes : list attribute;
  if_table : option (QualiMibTable.t Z if_row);
  entity_table : option (QualiMibTable.t Z entity_row);
  ip_v4_table : option (QualiMibTable.t string ip_row);
  ip_v6_table : option (QualiMibTable.t string ip_row);
  other_tables : list (string * QualiMibTable.t string (list (string * string)));
  snmp_log : list snmp_query
}.

Definition set_exclusion_list (v : list Z) (self : autoload) : autoload :=
  {| exclusion_list := v;
     _excluded_models := _excluded_models self;
     module_list := module_list self;
     chassis_list := chassis_list self;
     port_list := port_list self;
     power_supply_list := power_supply_list self;
     relative_path := relative_path self;
     port_mapping := port_mapping self;
     resources := resources self;
     attributes := attributes self;
     if_table := if_table self;
     entity_table := entity_table self;
     ip_v4_table := ip_v4_table self;
     ip_v6_table := ip_v6_table self;
     other_tables := other_tables self;
     snmp_log := snmp_log self |}.

Definition set__excluded_models (v : list Z) (self : autoload) : autoload :=
  {| exclusion_list := exclusion_list self;
     _excluded_models := v;
     module_list := module_list self;
     chassis_list := chassis_list self;
     port_list := port_list self;
     power_supply_list := power_supply_list self;
     relative_path := relative_path self;
     port_mapping := port_mapping self;
     resources := resources self;
     attributes := attributes self;
     if_table := if_table self;
     entity_table := entity_table self;
     ip_v4_table := ip_v4_table self;
     ip_v6_table := ip_v6_table self;
     other_tables := other_tables self;
     snmp_log := snmp_log self |}.

Definition set_module_list (v : list Z) (self : autoload) : autoload :=
  {| exclusion_list := exclusion_list self;
     _excluded_models := _excluded_models self;
     module_list := v;
     chassis_list := chassis_list self;
     port_list := port_list self;
     power_supply_list := power_supply_list self;
     relative_path := relative_path self;
     port_mapping := port_mapping self;
     resources := resources self;
     attributes := attributes self;
     if_table := if_table self;
     entity_table := entity_table self;
     ip_v4_table := ip_v4_table self;
     ip_v6_table := ip_v6_table self;
     other_tables := other_tables self;
     snmp_log := snmp_log self |}.

Definition set_chassis_list (v : list Z) (self : autoload) : autoload :=
  {| exclusion_list := exclusion_list self;
     _excluded_models := _excluded_models self;
     module_list := module_list self;
     chassis_list := v;
     port_list := port_list self;
     power_supply_list := power_supply_list self;
     relative_path := relative_path self;
     port_mapping := port_mapping self;
     resources := resources self;
     attributes := attributes self;
     if_table := if_table self;
     entity_table := entity_table self;
     ip_v4_table := ip_v4_table self;
     ip_v6_table := ip_v6_table self;
     other_tables := other_tables self;
     snmp_log := snmp_log self |}.

Definition set_port_list (v : list Z) (self : autoload) : autoload :=
  {| exclusion_list := exclusion_list self;
     _excluded_models := _excluded_models self;
     module_list := module_list self;
     chassis_list := chassis_list self;
     port_list := v;
     power_supply_list := power_supply_list self;
     relative_path := relative_path self;
     port_mapping := port_mapping self;
     resources := resources self;
     attributes := attributes self;
     if_table := if_table self;
     entity_table := entity_table self;
     ip_v4_table := ip_v4_table self;
     ip_v6_table := ip_v6_table self;
     other_tables := other_tables self;
     snmp_log := snmp_log self |}.

Definition set_power_supply_list (v : list Z) (self : autoload) : autoload :=
  {| exclusion_list := exclusion_list self;
     _excluded_models := _excluded_models self;
     module_list := module_list self;
     chassis_list := chassis_list self;
     port_list := port_list self;
     power_supply_list := v;
     relative_path := relative_path self;
     port_mapping := port_mapping self;
     resources := resources self;
     attributes := attributes self;
     if_table := if_table self;
     entity_table := entity_table self;
     ip_v4_table := ip_v4_table self;
     ip_v6_table := ip_v6_table self;
     other_tables := other_tables self;
     snmp_log := snmp_log self |}.

Definition set_relative_path (v : gmap Z string) (self : autoload) : autoload :=
  {| exclusion_list := exclusion_list self;
     _excluded_models := _excluded_models self;
     module_list := module_list self;
     chassis_list := chassis_list self;
     port_list := port_list self;
     power_supply_list := power_supply_list self;
     relative_path := v;
     port_mapping := port_mapping self;
     resources := resources self;
     attributes := attributes self;
     if_table := if_table self;
     entity_table := entity_table self;
     ip_v4_table := ip_v4_table self;
     ip_v6_table := ip_v6_table self;
     other_tables := other_tables self;
     snmp_log := snmp_log self |}.

Definition set_port_mapping (v : gmap Z Z) (self : autoload) : autoload :=
  {| exclusion_list := exclusion_list self;
     _excluded_models := _excluded_models self;
     module_list := module_list self;
     chassis_list := chassis_list self;
     port_list := port_list self;
     power_supply_list := power_supply_list self;
     relative_path := relative_path self;
     port_mapping := v;
     resources := resources self;
     attributes := attributes self;
     if_table := if_table self;
     entity_table := entity_table self;
     ip_v4_table := ip_v4_table self;
     ip_v6_table := ip_v6_table self;
     other_tables := other_tables self;
     snmp_log := snmp_log self |}.

Definition set_resources (v : list resource) (self : autoload) : autoload :=
  {| exclusion_list := exclusion_list self;
     _excluded_models := _excluded_models self;
     module_list := module_list self;
     chassis_list := chassis_list self;
     port_list := port_list self;
     power_supply_list := power_supply_list self;
     relative_path := relative_path self;
     port_mapping := port_mapping self;
     resources := v;
     attributes := attributes self;
     if_table := if_table self;
     entity_table := entity_table self;
     ip_v4_table := ip_v4_table self;
     ip_v6_table := ip_v6_table self;
     other_tables := other_tables self;
     snmp_log := snmp_log self |}.

Definition set_attributes (v : list attribute) (self : autoload) : autoload :=
  {| exclusion_list := exclusion_list self;
     _excluded_models := _excluded_models self;
     module_list := module_list self;
     chassis_list := chassis_list self;
     port_list := port_list self;
     power_supply_list := power_supply_list self;
     relative_path := relative_path self;
     port_mapping := port_mapping self;
     resources := resources self;
     attributes := v;
     if_table := if_table self;
     entity_table := entity_table self;
     ip_v4_table := ip_v4_table self;
     ip_v6_table := ip_v6_table self;
     other_tables := other_tables self;
     snmp_log := snmp_log self |}.

Definition set_if_table (v : option (QualiMibTable.t Z if_row)) (self : autoload) : autoload :=
  {| exclusion_list := exclusion_list self;
     _excluded_models := _excluded_models self;
     module_list := module_list self;
     chassis_list := chassis_list self;
     port_list := port_list self;
     power_supply_list := power_supply_list self;
     relative_path := relative_path self;
     port_mapping := port_mapping self;
     resources := resources self;
     attributes := attributes self;
     if_table := v;
     entity_table := entity_table self;
     ip_v4_table := ip_v4_table self;
     ip_v6_table := ip_v6_table self;
     other_tables := other_tables self;
     snmp_log := snmp_log self |}.

Definition set_entity_table (v : option (QualiMibTable.t Z entity_row)) (self : autoload) : autoload :=
  {| exclusion_list := exclusion_list self;
     _excluded_models := _excluded_models self;
     module_list := module_list self;
     chassis_list := chassis_list self;
     port_list := port_list self;
     power_supply_list := power_supply_list self;
     relative_path := relative_path self;
     port_mapping := port_mapping self;
     resources := resources self;
     attributes := attributes self;
     if_table := if_table self;
     entity_table := v;
     ip_v4_table := ip_v4_table self;
     ip_v6_table := ip_v6_table self;
     other_tables := other_tables self;
     snmp_log := snmp_log self |}.

Definition set_ip_v4_table (v : option (QualiMibTable.t string ip_row)) (self : autoload) : autoload :=
  {| exclusion_list := exclusion_list self;
     _excluded_models := _excluded_models self;
     module_list := module_list self;
     chassis_list := chassis_list self;
     port_list := port_list self;
     power_supply_list := power_supply_list self;
     relative_path := relative_path self;
     port_mapping := port_mapping self;
     resources := resources self;
     attributes := attributes self;
     if_table := if_table self;
     entity_table := entity_table self;
     ip_v4_table := v;
     ip_v6_table := ip_v6_table self;
     other_tables := other_tables self;
     snmp_log := snmp_log self |}.

Definition set_ip_v6_table (v : option (QualiMibTable.t string ip_row)) (self : autoload) : autoload :=
  {| exclusion_list := exclusion_list self;
     _excluded_models := _excluded_models self;
     module_list := module_list self;
     chassis_list := chassis_list self;
     port_list := port_list self;
     power_supply_list := power_supply_list self;
     relative_path := relative_path self;
     port_mapping := port_mapping self;
     resources := resources self;
     attributes := attributes self;
     if_table := if_table self;
     entity_table := entity_table self;
     ip_v4_table := ip_v4_table self;
     ip_v6_table := v;
     other_tables := other_tables self;
     snmp_log := snmp_log self |}.

Definition set_other_tables (v : list (string * QualiMibTable.t string (list (string * string)))) (self : autoload) : autoload :=
  {| exclusion_list := exclusion_list self;
     _excluded_models := _excluded_models self;
     module_list := module_list self;
     chassis_list := chassis_list self;
     port_list := port_list self;
     power_supply_list := power_supply_list self;
     relative_path := relative_path self;
     port_mapping := port_mapping self;
     resources := resources self;
     attributes := attributes self;
     if_table := if_table self;
     entity_table := entity_table self;
     ip_v4_table := ip_v4_table self;
     ip_v6_table := ip_v6_table self;
     other_tables := v;
     snmp_log := snmp_log self |}.

Definition set_snmp_log (v : list snmp_query) (self : autoload) : autoload :=
  {| exclusion_list := exclusion_list self;
     _excluded_models := _excluded_models self;
     module_list := module_list self;
     chassis_list := chassis_list self;
     port_list := port_list self;
     power_supply_list := power_supply_list self;
     relative_path := relative_path self;
     port_mapping := port_mapping self;
     resources := resources self;
     attributes := attributes self;
     if_table := if_table self;
     entity_table := entity_table self;
     ip_v4_table := ip_v4_table self;
     ip_v6_table := ip_v6_table self;
     other_tables := other_tables self;
     snmp_log := v |}.

(** ** The method monad: state [self], Python exceptions *)

Definition M (A : Type) : Type := autoload -> result (A * autoload).

#[global] Instance M_ret : MRet M := fun _ a self => Ok (a, self).
#[global] Instance M_bind : MBind M := fun _ _ f m self =>
  match m self with
  | Ok (a, self') => f a self'
  | Raise e => Raise e
  end.

Definition raise {A} (e : exn) : M A := fun _ => Raise e.

Definition lift {A} (r : result A) : M A := fun self =>
  match r with Ok a => Ok (a, self) | Raise e => Raise e end.

Definition gets {A} (f : autoload -> A) : M A := fun self => Ok (f self, self).

Definition modify (f : autoload -> autoload) : M unit :=
  fun self => Ok (tt, f self).

(** Reading an attribute that [__init__] does not create raises
    [AttributeError] until some method has assigned it. *)
Definition attr {A} (f : autoload -> option A) : M A := fun self =>
  match f self with
  | Some a => Ok (a, self)
  | None => Raise AttributeError
  end.

(** [for x in l: body(x)] *)
Fixpoint for_each {A} (l : list A) (body : A -> M unit) : M unit :=
  match l with
  | [] => mret tt
  | x :: rest => _ ← body x; for_each rest body
  end.

(** A loop that threads a local variable. *)
Fixpoint fold_each {A B} (l : list A) (acc : B) (body : B -> A -> M B) : M B :=
  match l with
  | [] => mret acc
  | x :: rest => acc' ← body acc x; fold_each rest acc' body
  end.

Definition log (q : snmp_query) : M unit :=
  modify (fun self => set_snmp_log (snmp_log self ++ [q]) self).

(** [__init__]: the attributes a fresh object has. *)
Definition init : autoload :=
  {| exclusion_list := []; _excluded_models := []; module_list := [];
     chassis_list := []; port_list := []; power_supply_list := [];
     relative_path := ∅; port_mapping := ∅; resources := [];
     attributes := []; if_table := None; entity_table := None;
     ip_v4_table := None; ip_v6_table := None; other_tables := [];
     snmp_log := [] |}.

Definition entity_table_black_list : list string := ["alarm"; "fan"; "sensor"].

Definition port_exclude_pattern : list string :=
  ["serial"; "stack"; "engine"; "management"; "mgmt"; "voice"; "foreign"].

Definition module_exclude_pattern : list string := ["cevsfp"].

Record AutoLoadDetails : Type := mkAutoLoadDetails {
  details_resources : list resource;
  details_attributes : list attribute
}.

Section Autoload.

(** The device behind [self.snmp]. *)
Variable snmp : snmp_handler.

(** [table.filter_by_column(name)], the call without values that
    [_filter_entity_table] makes: which rows [QualiMibTable] keeps then is
    settled outside this repository (the specification has the propagation
    visit every retained row; a filter on no value keeps none), so the call
    is a parameter. *)
Variable filter_by_column_no_values :
  column -> QualiMibTable.t Z entity_row -> QualiMibTable.t Z entity_row.

(** The interpreter's bound on nested calls (the recursive walks raise
    [RecursionError] beyond it). *)
Variable recursion_limit : nat.

Definition snmp_get_property (mib name : string) (index : Z) : M string :=
  _ ← log (GetProperty mib name index);
  mret (snmp_property snmp mib name index).

(** [_get_mapping]: the logical interface index of a physical port, from
    the alias mapping when that query and its parsing succeed, else from
    the first interface whose descriptor contains the digit groups of the
    physical descriptor joined by slashes. *)
Definition _get_mapping (port_index : Z) (port_descr : string) : M (option Z) :=
  _ ← log (Get "ENTITY-MIB" "entAliasMappingIdentifier" port_index);
  match (ident ← snmp_get_alias snmp port_index;
         seg ← last_item (split "." ident);
         int_of_str seg) with
  | Ok port_id => mret (Some port_id)
  | Raise _ =>
      let if_table_re := join "/" (findall_digits port_descr) in
      tb ← attr if_table;
      match List.find (fun interface => contains if_table_re (ifDescr interface))
                      (QualiMibTable.values tb) with
      | Some interface =>
          port_id ← lift (int_of_str (suffix interface));
          mret (Some port_id)
      | None => mret None
      end
  end.

(** [_get_entity_table], loop body from the class test on (the row is
    classified): retention, then the chassis, port and power supply
    lists. *)
Definition _get_entity_table_classified
    (result_dict : QualiMibTable.t Z entity_row) (index : Z)
    (temp_entity_table : entity_row) : M (QualiMibTable.t Z entity_row) :=
  let result_dict :=
    if re_search ["stack"; "chassis"; "module"; "port"; "powerSupply";
                  "container"; "backplane"]
                 (entPhysicalClass temp_entity_table)
    then QualiMibTable.set_item index temp_entity_table result_dict
    else result_dict in
  if decide (entPhysicalClass temp_entity_table = "chassis") then
    _ ← modify (fun self => set_chassis_list (chassis_list self ++ [index]) self);
    mret result_dict
  else if decide (entPhysicalClass temp_entity_table = "port") then
    if negb (re_search_ignorecase port_exclude_pattern
               (entPhysicalName temp_entity_table))
       && negb (re_search_ignorecase port_exclude_pattern
                  (entPhysicalDescr temp_entity_table))
    then
      port_id ← _get_mapping index (entPhysicalDescr temp_entity_table);
      match port_id with
      | None => mret result_dict
      | Some port_id =>
          if decide (port_id = 0) then mret result_dict
          else
            tb ← attr if_table;
            claimed ← gets (fun self => dict_values (port_mapping self));
            if QualiMibTable.mem port_id tb
               && negb (bool_decide (port_id ∈ claimed))
            then
              _ ← modify (fun self =>
                    set_port_mapping (<[index := port_id]> (port_mapping self)) self);
              _ ← modify (fun self => set_port_list (port_list self ++ [index]) self);
              mret result_dict
            else mret result_dict
      end
    else mret result_dict
  else if decide (entPhysicalClass temp_entity_table = "powerSupply") then
    _ ← modify (fun self =>
          set_power_supply_list (power_supply_list self ++ [index]) self);
    mret result_dict
  else mret result_dict.

(** [_get_entity_table], loop body for one index of [physical_indexes];
    every [continue] returns the table unchanged. *)
Definition _get_entity_table_row
    (result_dict : QualiMibTable.t Z entity_row) (entry : Z * string)
    : M (QualiMibTable.t Z entity_row) :=
  let index := entry.1 in
  if decide (entry.2 = "") then
    _ ← modify (fun self => set_exclusion_list (exclusion_list self ++ [index]) self);
    mret result_dict
  else
    _ ← log (GetProperties "ENTITY-MIB" index
               ["entPhysicalContainedIn"; "entPhysicalClass"; "entPhysicalVendorType"]);
    let temp_entity_table :=
      {| entPhysicalParentRelPos := entry.2;
         entPhysicalContainedIn :=
           VStr (snmp_property snmp "ENTITY-MIB" "entPhysicalContainedIn" index);
         entPhysicalClass := snmp_property snmp "ENTITY-MIB" "entPhysicalClass" index;
         entPhysicalVendorType :=
           snmp_property snmp "ENTITY-MIB" "entPhysicalVendorType" index;
         entPhysicalDescr := ""; entPhysicalName := "" |} in
    is_excluded ←
      (if decide (entPhysicalContainedIn temp_entity_table = VStr "") then
         _ ← modify (fun self =>
               set_exclusion_list (exclusion_list self ++ [index]) self);
         mret true
       else mret false);
    let is_excluded :=
      is_excluded
      || existsb (fun item =>
                    contains item (lower (entPhysicalVendorType temp_entity_table)))
                 entity_table_black_list in
    if is_excluded then mret result_dict
    else
      _ ← log (GetProperties "ENTITY-MIB" index
                 ["entPhysicalDescr"; "entPhysicalName"]);
      let temp_entity_table :=
        {| entPhysicalParentRelPos := entPhysicalParentRelPos temp_entity_table;
           entPhysicalContainedIn := entPhysicalContainedIn temp_entity_table;
           entPhysicalClass := entPhysicalClass temp_entity_table;
           entPhysicalVendorType := entPhysicalVendorType temp_entity_table;
           entPhysicalDescr := snmp_property snmp "ENTITY-MIB" "entPhysicalDescr" index;
           entPhysicalName := snmp_property snmp "ENTITY-MIB" "entPhysicalName" index |} in
      let set_class (c : string) :=
        {| entPhysicalParentRelPos := entPhysicalParentRelPos temp_entity_table;
           entPhysicalContainedIn := entPhysicalContainedIn temp_entity_table;
           entPhysicalClass := c;
           entPhysicalVendorType := entPhysicalVendorType temp_entity_table;
           entPhysicalDescr := entPhysicalDescr temp_entity_table;
           entPhysicalName := entPhysicalName temp_entity_table |} in
      if decide (entPhysicalClass temp_entity_table = "") then
        vendor_type ← snmp_get_property "ENTITY-MIB" "entPhysicalVendorType" index;
        if decide (vendor_type = "") then mret result_dict
        else
          let index_entity_class :=
            if contains "cevcontainer" (lower vendor_type) then Some "container"
            else if contains "cevchassis" (lower vendor_type) then Some "chassis"
            else if contains "cevmodule" (lower vendor_type) then Some "module"
            else if contains "cevport" (lower vendor_type) then Some "port"
            else if contains "cevpowersupply" (lower vendor_type) then Some "powerSupply"
            else None in
          match index_entity_class with
          | Some c => _get_entity_table_classified result_dict index (set_class c)
          | None => _get_entity_table_classified result_dict index temp_entity_table
          end
      else
        _get_entity_table_classified result_dict index
          (set_class (delete_char "'" (entPhysicalClass temp_entity_table))).

(** [_filter_entity_table], loop body: the parent is read from
    [self.entity_table], the membership test is against the table passed
    in. *)
Definition _filter_entity_table_visit
    (raw_entity_table : QualiMibTable.t Z entity_row) (element : Z) : M unit :=
  tb ← attr entity_table;
  row ← lift (QualiMibTable.get element tb);
  parent_id ← lift (Py.int (entPhysicalContainedIn row));
  excluded ← gets exclusion_list;
  if negb (QualiMibTable.mem parent_id raw_entity_table)
     || bool_decide (parent_id ∈ excluded)
  then modify (fun self => set_exclusion_list (exclusion_list self ++ [element]) self)
  else mret tt.

Definition _filter_entity_table (raw_entity_table : QualiMibTable.t Z entity_row)
    : M unit :=
  sorted ← lift (QualiMibTable.sort_by_column ParentRelPos
                   (filter_by_column_no_values ContainedIn raw_entity_table));
  let elements := QualiMibTable.keys sorted in
  for_each (rev elements) (_filter_entity_table_visit raw_entity_table).

Definition _get_entity_table : M (QualiMibTable.t Z entity_row) :=
  _ ← log (GetTable "ENTITY-MIB" "entPhysicalParentRelPos");
  let physical_indexes := snmp_entPhysicalParentRelPos snmp in
  result_dict ← fold_each physical_indexes [] _get_entity_table_row;
  _ ← _filter_entity_table result_dict;
  mret result_dict.

Definition _load_snmp_tables : M unit :=
  _ ← log (GetTable "IF-MIB" "ifDescr");
  _ ← modify (set_if_table (Some (snmp_ifDescr snmp)));
  tb ← _get_entity_table;
  _ ← modify (set_entity_table (Some tb));
  if bool_decide (length (QualiMibTable.keys tb) < 1)%nat then
    raise (Exception "Cannot load entPhysicalTable. Autoload cannot continue")
  else
    _ ← for_each [("LLDP-MIB", "lldpLocPortDesc"); ("LLDP-MIB", "lldpRemTable");
                  ("CISCO-CDP-MIB", "cdpInterface"); ("CISCO-CDP-MIB", "cdpCacheTable");
                  ("EtherLike-MIB", "dot3StatsIndex"); ("IP-MIB", "ipAddrTable");
                  ("IPV6-MIB", "ipv6AddrEntry");
                  ("IEEE8023-LAG-MIB", "dot3adAggPortAttachedAggID")]
           (fun t => log (GetTable t.1 t.2));
    modify (fun self =>
      set_ip_v4_table (Some (snmp_ipAddrTable snmp))
        (set_ip_v6_table (Some (snmp_ipv6AddrEntry snmp))
           (set_other_tables
              [("lldp_local_table", snmp_table snmp "LLDP-MIB" "lldpLocPortDesc");
               ("lldp_remote_table", snmp_table snmp "LLDP-MIB" "lldpRemTable");
               ("cdp_index_table", snmp_table snmp "CISCO-CDP-MIB" "cdpInterface");
               ("cdp_table", snmp_table snmp "CISCO-CDP-MIB" "cdpCacheTable");
               ("duplex_table", snmp_table snmp "EtherLike-MIB" "dot3StatsIndex");
               ("port_channel_ports",
                snmp_table snmp "IEEE8023-LAG-MIB" "dot3adAggPortAttachedAggID")]
              self))).

(** Methods that only read [self] take it as an argument. *)
Definition attr_of {A} (a : option A) : result A :=
  match a with Some x => Ok x | None => Raise AttributeError end.

Definition read {A} (f : autoload -> result A) : M A := fun self =>
  match f self with Ok a => Ok (a, self) | Raise e => Raise e end.

Definition _filter_lower_bay_containers : M unit :=
  tb ← attr entity_table;
  sorted ← lift (QualiMibTable.sort_by_column ParentRelPos
                   (QualiMibTable.filter_by_column Class [VStr "container"] tb));
  let containers := QualiMibTable.keys sorted in
  found ← fold_each containers (None, None) (fun found container =>
    vendor_type ← snmp_get_property "ENTITY-MIB" "entPhysicalVendorType" container;
    let upper_container :=
      if contains "uppermodulebay" (lower vendor_type) then Some container
      else found.1 in
    let lower_container :=
      if contains "lowermodulebay" (lower vendor_type) then Some container
      else found.2 in
    mret (upper_container, lower_container));
  match found with
  | (Some upper_container, Some lower_container) =>
      if bool_decide (lower_container ≠ 0) && bool_decide (upper_container ≠ 0) then
        tb ← attr entity_table;
        upper_items ← lift (QualiMibTable.sort_by_column ParentRelPos
                             (QualiMibTable.filter_by_column ContainedIn
                                [VStr (Py.str upper_container)] tb));
        let child_upper_items_len := length (QualiMibTable.keys upper_items) in
        lower_items ← lift (QualiMibTable.sort_by_column ParentRelPos
                             (QualiMibTable.filter_by_column ContainedIn
                                [VStr (Py.str lower_container)] tb));
        let child_lower_items := QualiMibTable.keys lower_items in
        for_each child_lower_items (fun child =>
          tb ← attr entity_table;
          row ← lift (QualiMibTable.get child tb);
          let row :=
            {| entPhysicalParentRelPos := entPhysicalParentRelPos row;
               entPhysicalContainedIn := VInt upper_container;
               entPhysicalClass := entPhysicalClass row;
               entPhysicalVendorType := entPhysicalVendorType row;
               entPhysicalDescr := entPhysicalDescr row;
               entPhysicalName := entPhysicalName row |} in
          _ ← modify (set_entity_table (Some (QualiMibTable.set_item child row tb)));
          tb ← attr entity_table;
          row ← lift (QualiMibTable.get child tb);
          pos ← lift (int_of_str (entPhysicalParentRelPos row));
          let row :=
            {| entPhysicalParentRelPos :=
                 Py.str (Z.of_nat child_upper_items_len + pos);
               entPhysicalContainedIn := entPhysicalContainedIn row;
               entPhysicalClass := entPhysicalClass row;
               entPhysicalVendorType := entPhysicalVendorType row;
               entPhysicalDescr := entPhysicalDescr row;
               entPhysicalName := entPhysicalName row |} in
          modify (set_entity_table (Some (QualiMibTable.set_item child row tb))))
      else mret tt
  | _ => mret tt
  end.

(** [_get_module_parents]: the module-class ancestors of an entry, nearest
    first, up to the first chassis-class ancestor. *)
Fixpoint _get_module_parents (self : autoload) (depth : nat) (module_id : Z)
    : result (list Z) :=
  match depth with
  | O => Raise RecursionError
  | S depth =>
      tb ← attr_of (entity_table self);
      row ← QualiMibTable.get module_id tb;
      parent_id ← Py.int (entPhysicalContainedIn row);
      if (0 <? parent_id) && QualiMibTable.mem parent_id tb then
        parent ← QualiMibTable.get parent_id tb;
        if re_search ["module"] (entPhysicalClass parent) then
          rest ← _get_module_parents self depth parent_id;
          Ok (parent_id :: rest)
        else if re_search ["chassis"] (entPhysicalClass parent) then Ok []
        else _get_module_parents self depth parent_id
      else Ok []
  end.

Fixpoint _get_resource_id (self : autoload) (depth : nat) (item_id : Z)
    : result string :=
  match depth with
  | O => Raise RecursionError
  | S depth =>
      tb ← attr_of (entity_table self);
      row ← QualiMibTable.get item_id tb;
      parent_id ← Py.int (entPhysicalContainedIn row);
      if (0 <? parent_id) && QualiMibTable.mem parent_id tb then
        parent ← QualiMibTable.get parent_id tb;
        if re_search ["container"; "backplane"] (entPhysicalClass parent) then
          Ok (entPhysicalParentRelPos parent)
        else if bool_decide (parent_id ∈ _excluded_models self) then
          _get_resource_id self depth parent_id
        else Ok (entPhysicalParentRelPos row)
      else Ok (entPhysicalParentRelPos row)
  end.

Fixpoint get_relative_path (self : autoload) (depth : nat) (item_id : Z)
    : result string :=
  match depth with
  | O => Raise RecursionError
  | S depth =>
      if bool_decide (item_id ∉ chassis_list self) then
        tb ← attr_of (entity_table self);
        row ← QualiMibTable.get item_id tb;
        parent_id ← Py.int (entPhysicalContainedIn row);
        match relative_path self !! parent_id with
        | None =>
            result ← (if bool_decide (parent_id ∈ module_list self)
                      then _get_resource_id self depth parent_id
                      else Ok "");
            if bool_decide (result ≠ "") then
              parent_path ← get_relative_path self depth parent_id;
              Ok (parent_path +:+ "/" +:+ result)
            else get_relative_path self depth parent_id
        | Some path => Ok path
        end
      else
        match relative_path self !! item_id with
        | Some path => Ok path
        | None => Raise KeyError
        end
  end.

(** [_get_port_relative_path]: while the address is some entry's value,
    add 1000 to its last segment. *)
Fixpoint _get_port_relative_path (self : autoload) (depth : nat)
    (relative_id : string) : result string :=
  match depth with
  | O => Raise RecursionError
  | S depth =>
      if bool_decide (relative_id ∈ dict_values (relative_path self)) then
        result ←
          (if contains "/" relative_id then
             let ids := split "/" relative_id in
             seg ← last_item ids;
             n ← int_of_str seg;
             ids ← set_last (Py.str (n + 1000)) ids;
             Ok (join "/" ids)
           else
             seg ← last_item (split_ws relative_id);
             n ← int_of_str seg;
             Ok (Py.str (n + 1000)));
        if bool_decide (relative_id ∈ dict_values (relative_path self)) then
          _get_port_relative_path self depth result
        else Ok result
      else Ok relative_id
  end.

Definition add_relative_paths : M unit :=
  port_list_copy ← gets port_list;
  module_list_copy ← gets module_list;
  _ ← for_each module_list_copy (fun module =>
        excluded ← gets exclusion_list;
        if bool_decide (module ∉ excluded) then
          parent_path ← read (fun self => get_relative_path self recursion_limit module);
          id ← read (fun self => _get_resource_id self recursion_limit module);
          modify (fun self =>
            set_relative_path
              (<[module := parent_path +:+ "/" +:+ id]> (relative_path self)) self)
        else
          l ← read (fun self => Py.remove module (module_list self));
          modify (set_module_list l));
  for_each port_list_copy (fun port =>
    excluded ← gets exclusion_list;
    if bool_decide (port ∉ excluded) then
      parent_path ← read (fun self => get_relative_path self recursion_limit port);
      id ← read (fun self => _get_resource_id self recursion_limit port);
      path ← read (fun self =>
                _get_port_relative_path self recursion_limit
                  (parent_path +:+ "/" +:+ id));
      modify (fun self => set_relative_path (<[port := path]> (relative_path self)) self)
    else
      l ← read (fun self => Py.remove port (port_list self));
      modify (set_port_list l)).

(** [get_module_list], body of the inner loop. *)
Definition get_module_list_module (module : Z) : M unit :=
  listed ← gets module_list;
  if bool_decide (module ∈ listed) then mret tt
  else
    vendor_type ← snmp_get_property "ENTITY-MIB" "entPhysicalVendorType" module;
    if negb (re_search module_exclude_pattern (lower vendor_type)) then
      excluded ← gets exclusion_list;
      listed ← gets module_list;
      if bool_decide (module ∉ excluded) && bool_decide (module ∉ listed) then
        modify (fun self => set_module_list (module_list self ++ [module]) self)
      else mret tt
    else
      modify (fun self =>
        set__excluded_models (_excluded_models self ++ [module]) self).

Definition get_module_list : M unit :=
  ports ← gets port_list;
  for_each ports (fun port =>
    modules ← read (fun self => _get_module_parents self recursion_limit port);
    for_each modules get_module_list_module).

(** [_add_resource], given the constructor's keyword arguments. *)
Definition _add_resource (r : resource) (kwargs : list (string * string)) : M unit :=
  modify (fun self =>
    set_resources (resources self ++ [r])
      (set_attributes
         (attributes self
          ++ List.map (fun kv => mkAttribute (res_relative_address r) kv.1 kv.2) kwargs)
         self)).

Definition _get_chassis_attributes (chassis_list : list Z) : M unit :=
  for_each chassis_list (fun chassis =>
    paths ← gets relative_path;
    chassis_id ← lift (match paths !! chassis with
                       | Some path => Ok path
                       | None => Raise KeyError
                       end);
    chassis_model ← snmp_get_property "ENTITY-MIB" "entPhysicalModelName" chassis;
    serial_number ← snmp_get_property "ENTITY-MIB" "entPhysicalSerialNum" chassis;
    tb ← attr entity_table;
    chassis_model ←
      (if decide (chassis_model = "") then
         row ← lift (QualiMibTable.get chassis tb);
         mret (entPhysicalDescr row)
       else mret chassis_model);
    _ ← _add_resource (mkResource ChassisResource None None chassis_id)
          [("chassis_model", chassis_model); ("serial_number", serial_number)];
    _ ← lift (QualiMibTable.get chassis tb);
    mret tt).

(** [_get_module_attributes], loop body. *)
Definition _get_module_attributes_module (module : Z) : M unit :=
  paths ← gets relative_path;
  module_id ← lift (match paths !! module with
                    | Some path => Ok path
                    | None => Raise KeyError
                    end);
  module_index ← read (fun self => _get_resource_id self recursion_limit module);
  tb ← attr entity_table;
  row ← lift (QualiMibTable.get module tb);
  version ← snmp_get_property "ENTITY-MIB" "entPhysicalSoftwareRev" module;
  serial_number ← snmp_get_property "ENTITY-MIB" "entPhysicalSerialNum" module;
  let named :=
    if contains "/" module_id && bool_decide (length (split "/" module_id) < 3)%nat
    then ("Module " +:+ module_index, "Generic Module")
    else ("Sub Module " +:+ module_index, "Generic Sub Module") in
  _add_resource (mkResource ModuleResource (Some named.1) (Some named.2) module_id)
    [("module_model", entPhysicalDescr row); ("version", version);
     ("serial_number", serial_number)].

Definition _get_module_attributes : M unit :=
  modules ← gets module_list;
  for_each modules _get_module_attributes_module.

(** [_filter_power_port_list], loop body. *)
Definition _filter_power_port_list_visit (power_port : Z) : M unit :=
  tb ← attr entity_table;
  row ← lift (QualiMibTable.get power_port tb);
  parent_index ← lift (Py.int (entPhysicalContainedIn row));
  parent ← lift (QualiMibTable.get parent_index tb);
  if contains "powerSupply" (entPhysicalClass parent) then
    listed ← gets power_supply_list;
    if bool_decide (parent_index ∈ listed) then
      l ← lift (Py.remove power_port listed);
      modify (set_power_supply_list l)
    else mret tt
  else mret tt.

Definition _filter_power_port_list : M unit :=
  power_supply_list_copy ← gets power_supply_list;
  for_each power_supply_list_copy _filter_power_port_list_visit.

(** [l.index(x)] *)
Fixpoint list_index (x : Z) (l : list Z) : result nat :=
  match l with
  | [] => Raise ValueError
  | y :: rest => if decide (x = y) then Ok O
                 else i ← list_index x rest; Ok (S i)
  end.

(** [_get_power_ports], loop body. *)
Definition _get_power_ports_port (port : Z) : M unit :=
  tb ← attr entity_table;
  row ← lift (QualiMibTable.get port tb);
  let port_id := entPhysicalParentRelPos row in
  parent_index ← lift (Py.int (entPhysicalContainedIn row));
  parent ← lift (QualiMibTable.get parent_index tb);
  parent_id ← lift (int_of_str (entPhysicalParentRelPos parent));
  chassis_id ← read (fun self => get_relative_path self recursion_limit parent_index);
  let relative_path :=
    chassis_id +:+ "/PP" +:+ Py.str parent_id +:+ "-" +:+ port_id in
  listed ← gets power_supply_list;
  i ← lift (list_index port listed);
  let port_name := "PP" +:+ Py.str (Z.of_nat i) in
  port_model ← snmp_get_property "ENTITY-MIB" "entPhysicalModelName" port;
  description ← snmp_get_property "ENTITY-MIB" "entPhysicalDescr" port;
  version ← snmp_get_property "ENTITY-MIB" "entPhysicalHardwareRev" port;
  serial_number ← snmp_get_property "ENTITY-MIB" "entPhysicalSerialNum" port;
  _add_resource (mkResource PowerPortResource (Some port_name) None relative_path)
    [("port_model", port_model); ("description", description);
     ("version", version); ("serial_number", serial_number)].

Definition _get_power_ports : M unit :=
  _ ← _filter_power_port_list;
  ports ← gets power_supply_list;
  for_each ports _get_power_ports_port.

Record interface_details : Type := mkInterfaceDetails {
  ipv4_address : string;
  ipv6_address : string
}.

(** The body of either loop of [_get_ip_interface_details]: its last
    statement is an unconditional [break], so only the first item of the
    table is looked at. *)
Definition first_item_address (tb : QualiMibTable.t string ip_row)
    (port_index : Z) : result string :=
  match tb with
  | (key, value) :: _ =>
      match ipAdEntIfIndex value with
      | Some if_index =>
          n ← int_of_str if_index;
          if decide (n = port_index) then Ok key else Ok ""
      | None => Ok ""
      end
  | [] => Ok ""
  end.

Definition _get_ip_interface_details (self : autoload) (port_index : Z)
    : result interface_details :=
  v4 ← attr_of (ip_v4_table self);
  ipv4 ← (if bool_decide (v4 ≠ []) && bool_decide (1 < length v4)%nat
          then first_item_address v4 port_index else Ok "");
  v6 ← attr_of (ip_v6_table self);
  ipv6 ← (if bool_decide (v6 ≠ []) && bool_decide (1 < length v6)%nat
          then first_item_address v6 port_index else Ok "");
  Ok (mkInterfaceDetails ipv4 ipv6).

(** Stages of [discover] that the properties below do not depend on: the
    operating system check, the root attributes, the port resources and
    the port channels. *)
Variable _is_valid_device_os : M unit.
Variable _get_device_details : M unit.
Variable _get_ports_attributes : M unit.
Variable _get_port_channels : M unit.

Definition load_cisco_mib : M unit := log UpdateMibSources.

Definition discover : M AutoLoadDetails :=
  _ ← _is_valid_device_os;
  _ ← load_cisco_mib;
  _ ← _get_device_details;
  _ ← log (LoadMib ["CISCO-PRODUCTS-MIB"; "CISCO-ENTITY-VENDORTYPE-OID-MIB"]);
  _ ← _load_snmp_tables;
  chassis ← gets chassis_list;
  if bool_decide (length chassis < 1)%nat then mret (mkAutoLoadDetails [] [])
  else
    _ ← for_each chassis (fun chassis =>
          excluded ← gets exclusion_list;
          if bool_decide (chassis ∉ excluded) then
            chassis_id ← read (fun self => _get_resource_id self recursion_limit chassis);
            let chassis_id := if decide (chassis_id = "-1") then "0" else chassis_id in
            modify (fun self =>
              set_relative_path (<[chassis := chassis_id]> (relative_path self)) self)
          else mret tt);
    _ ← _filter_lower_bay_containers;
    _ ← get_module_list;
    _ ← add_relative_paths;
    chassis ← gets chassis_list;
    _ ← _get_chassis_attributes chassis;
    _ ← _get_ports_attributes;
    _ ← _get_module_attributes;
    _ ← _get_power_ports;
    _ ← _get_port_channels;
    res ← gets resources;
    attrs ← gets attributes;
    mret (mkAutoLoadDetails res attrs).

End Autoload.

(** ** Statement-side definitions and sample devices *)

(** The address a first-match search of an address table would give: the
    key of the first entry whose interface index equals [port_index]. *)
Fixpoint first_matching_address (tb : QualiMibTable.t string ip_row)
    (port_index : Z) : string :=
  match tb with
  | [] => ""
  | (key, value) :: rest =>
      match ipAdEntIfIndex value with
      | Some if_index =>
          match int_of_str if_index with
          | Ok n => if decide (n = port_index) then key
                    else first_matching_address rest port_index
          | Raise _ => first_matching_address rest port_index
          end
      | None => first_matching_address rest port_index
      end
  end.

Definition two_addresses : QualiMibTable.t string ip_row :=
  [("10.0.0.1", mkIpRow (Some "1")); ("10.0.0.2", mkIpRow (Some "2"))].

Definition one_address : QualiMibTable.t string ip_row :=
  [("10.0.0.1", mkIpRow (Some "1"))].

Definition with_ip_tables (v4 v6 : QualiMibTable.t string ip_row) : autoload :=
  set_ip_v4_table (Some v4) (set_ip_v6_table (Some v6) init).

(** Every character of the string satisfies [P]. *)
Fixpoint all_chars (P : ascii -> bool) (s : string) : bool :=
  match s with
  | EmptyString => true
  | String c r => P c && all_chars P r
  end.

Definition digit_or_minus (c : ascii) : bool := is_digit c || Ascii.eqb c "-".

Abbreviation sep_free :=
  (fun seg => all_chars (fun x => negb (Ascii.eqb x "/")) seg = true).

(** The last segment of an address as [_get_port_relative_path] reads it:
    after the last slash, or the last blank-separated word of an address
    without a slash. *)
Definition last_segment (relative_id : string) : result string :=
  if contains "/" relative_id then last_item (split "/" relative_id)
  else last_item (split_ws relative_id).

Definition last_segment_value (relative_id : string) : result Z :=
  seg ← last_segment relative_id; int_of_str seg.

Definition leading_segments (relative_id : string) : list string :=
  if contains "/" relative_id then removelast (split "/" relative_id) else [].

(** The address with its last segment replaced by the number [m]. *)
Definition with_last_segment (relative_id : string) (m : Z) : string :=
  join "/" (leading_segments relative_id ++ [Py.str m]).

(** The address after [k] offsets of 1000, [n] being the value of its last
    segment. *)
Definition offset_address (relative_id : string) (n : Z) (k : nat) : string :=
  match k with
  | O => relative_id
  | S _ => with_last_segment relative_id (n + 1000 * Z.of_nat k)
  end.

Definition colliding_paths : autoload :=
  set_relative_path (<[10 := "0"]> (<[20 := "0/1"]> (<[31 := "0/1/1"]> ∅))) init.

(** The ports [L] have addresses that no other entry of the mapping
    shares. *)
Definition distinct_addresses (L : list Z) (paths : gmap Z string) : Prop :=
  forall p, p ∈ L ->
    exists a, paths !! p = Some a
              /\ forall k b, k <> p -> paths !! k = Some b -> b <> a.

Definition entity (pos contained class : string) : entity_row :=
  {| entPhysicalParentRelPos := pos; entPhysicalContainedIn := VStr contained;
     entPhysicalClass := class; entPhysicalVendorType := "";
     entPhysicalDescr := ""; entPhysicalName := "" |}.

(** A chassis with one module carrying three ports; ports 3 and 4 report
    the same position, port 5 is excluded. *)
Definition colliding_ports : autoload :=
  set_entity_table
    (Some [(1, entity "-1" "0" "chassis"); (2, entity "1" "1" "module");
           (3, entity "1" "2" "port"); (4, entity "1" "2" "port");
           (5, entity "2" "2" "port")])
    (set_chassis_list [1]
       (set_module_list [2]
          (set_port_list [3; 4; 5]
             (set_exclusion_list [5]
                (set_relative_path (<[1 := "0"]> ∅) init))))).

(** The integer values of a column, row by row. *)
Definition column_values (c : column) (tb : QualiMibTable.t Z entity_row)
    : result (list Z) :=
  mapM (fun kr => Py.int (cell c kr.2)) tb.

(** The parent pointer of an entry of [self.entity_table]. *)
Definition parent_of (self : autoload) (element : Z) : result Z :=
  tb ← attr_of (entity_table self);
  row ← QualiMibTable.get element tb;
  Py.int (entPhysicalContainedIn row).

(** A state on which propagation has nothing left to do: every entry of
    the table whose parent is missing or excluded is excluded. *)
Definition converged (raw : QualiMibTable.t Z entity_row) (self : autoload) : Prop :=
  forall element parent_id,
    parent_of self element = Ok parent_id ->
    QualiMibTable.mem parent_id raw = false \/ parent_id ∈ exclusion_list self ->
    element ∈ exclusion_list self.

(** The two readings of [filter_by_column] without values. *)
Definition keeps_every_row (c : column) (tb : QualiMibTable.t Z entity_row)
    : QualiMibTable.t Z entity_row := tb.

Definition keeps_no_row (c : column) (tb : QualiMibTable.t Z entity_row)
    : QualiMibTable.t Z entity_row := QualiMibTable.filter_by_column c [] tb.

(** A module whose parent is not in the table, and a port inside it. *)
Definition orphan_module : QualiMibTable.t Z entity_row :=
  [(2, entity "1" "99" "module"); (3, entity "5" "2" "port")].

(** The index an SNMP query is about, for the queries that have one. *)
Definition query_index (q : snmp_query) : option Z :=
  match q with
  | GetProperties _ index _ | GetProperty _ _ index | Get _ _ index => Some index
  | GetTable _ _ | LoadMib _ | UpdateMibSources => None
  end.

(** No two physical ports are mapped to the same logical interface. *)
Definition injective_mapping (mapping : gmap Z Z) : Prop :=
  forall p q i, mapping !! p = Some i -> mapping !! q = Some i -> p = q.

(** The conditions under which a row of class port is listed, the row
    being processed in state [self]: neither name nor description matches
    the exclusion pattern, [_get_mapping] resolves the logical index
    [port_id] (a non-zero integer), that index is a key of the interface
    table, and no earlier row has claimed it. *)
Definition port_accepted (snmp : snmp_handler) (self : autoload) (index : Z)
    (row : entity_row) (port_id : Z) : Prop :=
  re_search_ignorecase port_exclude_pattern (entPhysicalName row) = false
  /\ re_search_ignorecase port_exclude_pattern (entPhysicalDescr row) = false
  /\ (exists self', _get_mapping snmp index (entPhysicalDescr row) self
                    = Ok (Some port_id, self'))
  /\ port_id <> 0
  /\ (exists tb, if_table self = Some tb /\ port_id ∈ QualiMibTable.keys tb)
  /\ (port_id ∉ dict_values (port_mapping self)).

Fixpoint assoc {K V} `{EqDecision K} (k : K) (l : list (K * V)) : option V :=
  match l with
  | [] => None
  | (k', v) :: rest => if decide (k = k') then Some v else assoc k rest
  end.

(** The answers of a device given by its non-empty cells, per index. *)
Definition cells_property (cells : list (Z * list (string * string)))
    (mib name : string) (index : Z) : string :=
  match assoc index cells with
  | Some fields => default "" (assoc name fields)
  | None => ""
  end.

(** A device reporting an entry without position and a fan tray. *)
Definition fan_device : snmp_handler :=
  {| snmp_entPhysicalParentRelPos := [(7, ""); (8, "1")];
     snmp_ifDescr := []; snmp_ipAddrTable := []; snmp_ipv6AddrEntry := [];
     snmp_table := fun _ _ => [];
     snmp_property :=
       cells_property
         [(8, [("entPhysicalContainedIn", "1"); ("entPhysicalClass", "fan");
               ("entPhysicalVendorType", "cevFanTray")])];
     snmp_get_alias := fun _ => Raise KeyError |}.

(** A chassis with three ports: ports 3 and 4 are both mapped to interface
    10, port 5 is a management port mapped to interface 11. *)
Definition shared_interface_device : snmp_handler :=
  {| snmp_entPhysicalParentRelPos := [(1, "-1"); (3, "1"); (4, "2"); (5, "3")];
     snmp_ifDescr := [(10, mkIfRow "GigabitEthernet0/1" "10");
                      (11, mkIfRow "mgmt0" "11")];
     snmp_ipAddrTable := []; snmp_ipv6AddrEntry := [];
     snmp_table := fun _ _ => [];
     snmp_property :=
       cells_property
         [(1, [("entPhysicalContainedIn", "0"); ("entPhysicalClass", "chassis")]);
          (3, [("entPhysicalContainedIn", "1"); ("entPhysicalClass", "port");
               ("entPhysicalName", "Gi0/1")]);
          (4, [("entPhysicalContainedIn", "1"); ("entPhysicalClass", "port");
               ("entPhysicalName", "Gi0/1 (copy)")]);
          (5, [("entPhysicalContainedIn", "1"); ("entPhysicalClass", "port");
               ("entPhysicalName", "mgmt0")])];
     snmp_get_alias := fun index =>
       if decide (index = 5) then Ok "IF-MIB::ifIndex.11"
       else Ok "IF-MIB::ifIndex.10" |}.

(** The steps of [discover] that come before the tables are loaded. *)
Definition discover_prelude (_is_valid_device_os _get_device_details : M unit)
    : M unit :=
  _ ← _is_valid_device_os;
  _ ← load_cisco_mib;
  _ ← _get_device_details;
  log (LoadMib ["CISCO-PRODUCTS-MIB"; "CISCO-ENTITY-VENDORTYPE-OID-MIB"]).


(** A device with an empty inventory, and one whose only entry is a port. *)
Definition empty_device : snmp_handler :=
  {| snmp_entPhysicalParentRelPos := [];
     snmp_ifDescr := []; snmp_ipAddrTable := []; snmp_ipv6AddrEntry := [];
     snmp_table := fun _ _ => [];
     snmp_property := fun _ _ _ => "";
     snmp_get_alias := fun _ => Raise KeyError |}.

Definition lone_port_device : snmp_handler :=
  {| snmp_entPhysicalParentRelPos := [(3, "1")];
     snmp_ifDescr := [(10, mkIfRow "GigabitEthernet0/1" "10")];
     snmp_ipAddrTable := []; snmp_ipv6AddrEntry := [];
     snmp_table := fun _ _ => [];
     snmp_property :=
       cells_property
         [(3, [("entPhysicalContainedIn", "1"); ("entPhysicalClass", "port")])];
     snmp_get_alias := fun _ => Ok "IF-MIB::ifIndex.10" |}.

(** A root attribute, as [_get_device_details] appends one. *)
Definition add_root_attribute : M unit :=
  modify (fun self =>
    set_attributes (attributes self ++ [mkAttribute "" "Vendor" "Cisco"]) self).








(** The parent of an entry, when the class of that parent is a power
    supply class. *)
Definition power_supply_parent (self : autoload) (power_port parent_index : Z) : Prop :=
  parent_of self power_port = Ok parent_index
  /\ exists tb parent,
       entity_table self = Some tb
       /\ QualiMibTable.get parent_index tb = Ok parent
       /\ contains "powerSupply" (entPhysicalClass parent) = true.

(** Two states that differ at most in the output collections and the log
    of queries. *)
Definition same_inventory (s s' : autoload) : Prop :=
  s' = set_resources (resources s')
         (set_attributes (attributes s') (set_snmp_log (snmp_log s') s)).

(** The power port resource [_get_power_ports] builds for [port]. *)
Definition power_port_resource (recursion_limit : nat) (self : autoload)
    (port : Z) (res : resource) : Prop :=
  exists tb row parent_index parent parent_id chassis_id i,
    entity_table self = Some tb
    /\ QualiMibTable.get port tb = Ok row
    /\ Py.int (entPhysicalContainedIn row) = Ok parent_index
    /\ QualiMibTable.get parent_index tb = Ok parent
    /\ int_of_str (entPhysicalParentRelPos parent) = Ok parent_id
    /\ get_relative_path self recursion_limit parent_index = Ok chassis_id
    /\ list_index port (power_supply_list self) = Ok i
    /\ res = mkResource PowerPortResource (Some ("PP" +:+ Py.str (Z.of_nat i))) None
               (chassis_id +:+ "/PP" +:+ Py.str parent_id +:+ "-"
                +:+ entPhysicalParentRelPos row).

(** A chassis with a container holding three nested power supplies: 41
    contains 42, which contains 43. *)
Definition nested_supplies_device : snmp_handler :=
  {| snmp_entPhysicalParentRelPos := [(1, "-1"); (40, "1"); (41, "1"); (42, "2"); (43, "3")];
     snmp_ifDescr := []; snmp_ipAddrTable := []; snmp_ipv6AddrEntry := [];
     snmp_table := fun _ _ => [];
     snmp_property :=
       cells_property
         [(1, [("entPhysicalContainedIn", "0"); ("entPhysicalClass", "chassis")]);
          (40, [("entPhysicalContainedIn", "1"); ("entPhysicalClass", "container")]);
          (41, [("entPhysicalContainedIn", "40"); ("entPhysicalClass", "powerSupply")]);
          (42, [("entPhysicalContainedIn", "41"); ("entPhysicalClass", "powerSupply")]);
          (43, [("entPhysicalContainedIn", "42"); ("entPhysicalClass", "powerSupply")])];
     snmp_get_alias := fun _ => Raise KeyError |}.

(** What table loading and address building leave of that device. *)
Definition nested_supplies : autoload :=
  set_entity_table
    (Some [(1, entity "-1" "0" "chassis"); (40, entity "1" "1" "container");
           (41, entity "1" "40" "powerSupply"); (42, entity "2" "41" "powerSupply");
           (43, entity "3" "42" "powerSupply")])
    (set_chassis_list [1]
       (set_power_supply_list [41; 42; 43]
          (set_relative_path (<[1 := "0"]> ∅) init))).

(** [p], with row [prow], is the parent of [x] as the walks up the table
    accept it: a positive index that is a key of the table. *)
Definition walk_parent (tb : QualiMibTable.t Z entity_row) (x p : Z)
    (prow : entity_row) : Prop :=
  exists row,
    QualiMibTable.get x tb = Ok row
    /\ Py.int (entPhysicalContainedIn row) = Ok p
    /\ 0 < p
    /\ QualiMibTable.get p tb = Ok prow.

(** [m] is a module-class ancestor of [x] reached by walking parent
    pointers, no chassis-class entry (that is not also of a module class)
    lying between the two. *)
Inductive module_ancestor (tb : QualiMibTable.t Z entity_row) : Z -> Z -> Prop :=
| ancestor_parent (x m : Z) (prow : entity_row) :
    walk_parent tb x m prow ->
    re_search ["module"] (entPhysicalClass prow) = true ->
    module_ancestor tb x m
| ancestor_further (x p m : Z) (prow : entity_row) :
    walk_parent tb x p prow ->
    re_search ["module"] (entPhysicalClass prow) = true
    \/ re_search ["chassis"] (entPhysicalClass prow) = false ->
    module_ancestor tb p m ->
    module_ancestor tb x m.

(** The vendor type of [module] matches the module exclusion pattern. *)
Definition excluded_vendor_type (snmp : snmp_handler) (module : Z) : bool :=
  re_search module_exclude_pattern
    (lower (snmp_property snmp "ENTITY-MIB" "entPhysicalVendorType" module)).

(** A chassis with a module carrying port 30, a second module carrying a
    transceiver module (vendor type [cevSFP...]) with port 31, and a third
    module without ports. *)
Definition three_module_device : snmp_handler :=
  {| snmp_entPhysicalParentRelPos :=
       [(1, "-1"); (20, "1"); (21, "2"); (22, "3"); (25, "1"); (30, "1"); (31, "1")];
     snmp_ifDescr := [(5, mkIfRow "GigabitEthernet1/1" "5");
                      (6, mkIfRow "GigabitEthernet2/1" "6")];
     snmp_ipAddrTable := []; snmp_ipv6AddrEntry := [];
     snmp_table := fun _ _ => [];
     snmp_property :=
       cells_property
         [(1, [("entPhysicalContainedIn", "0"); ("entPhysicalClass", "chassis")]);
          (20, [("entPhysicalContainedIn", "1"); ("entPhysicalClass", "module")]);
          (21, [("entPhysicalContainedIn", "1"); ("entPhysicalClass", "module")]);
          (22, [("entPhysicalContainedIn", "1"); ("entPhysicalClass", "module")]);
          (25, [("entPhysicalContainedIn", "21"); ("entPhysicalClass", "module");
                ("entPhysicalVendorType", "cevSFP1000BaseT")]);
          (30, [("entPhysicalContainedIn", "20"); ("entPhysicalClass", "port");
                ("entPhysicalName", "Gi1/1")]);
          (31, [("entPhysicalContainedIn", "25"); ("entPhysicalClass", "port");
                ("entPhysicalName", "Gi2/1")])];
     snmp_get_alias := fun index =>
       if decide (index = 30) then Ok "IF-MIB::ifIndex.5"
       else Ok "IF-MIB::ifIndex.6" |}.

(** What table loading and the chassis addresses leave of that device. *)
Definition three_modules : autoload :=
  set_entity_table
    (Some [(1, entity "-1" "0" "chassis"); (20, entity "1" "1" "module");
           (21, entity "2" "1" "module"); (22, entity "3" "1" "module");
           (25, entity "1" "21" "module"); (30, entity "1" "20" "port");
           (31, entity "1" "25" "port")])
    (set_chassis_list [1]
       (set_port_list [30; 31]
          (set_relative_path (<[1 := "0"]> ∅) init))).

(** The module resource [_get_module_attributes] builds for [module]: it
    carries the address of the module. *)
Definition module_resource (self : autoload) (module : Z) (res : resource) : Prop :=
  res_class res = ModuleResource
  /\ relative_path self !! module = Some (res_relative_address res).

(** Every listed chassis, port and power supply has a row in [tb]. *)
Definition lists_have_rows (tb : QualiMibTable.t Z entity_row) (self : autoload) : Prop :=
  forall x,
    x ∈ chassis_list self \/ x ∈ port_list self \/ x ∈ power_supply_list self ->
    x ∈ QualiMibTable.keys tb.

(** Every listed port is mapped to a non-zero index of the interface
    table. *)
Definition ports_mapped (self : autoload) : Prop :=
  forall port,
    port ∈ port_list self ->
    exists port_id tb,
      port_mapping self !! port = Some port_id
      /\ port_id <> 0
      /\ if_table self = Some tb
      /\ QualiMibTable.mem port_id tb = true.

(** The indexes that [_get_entity_table] excludes itself: those the device
    reports with an empty position or an empty parent id. *)
Definition excluded_on_load (snmp : snmp_handler) (index : Z) : Prop :=
  exists pos,
    (index, pos) ∈ snmp_entPhysicalParentRelPos snmp
    /\ (pos = ""
        \/ snmp_property snmp "ENTITY-MIB" "entPhysicalContainedIn" index = "").

(** The vendor type of [index] contains a keyword of the black list. *)
Definition blacklisted (snmp : snmp_handler) (index : Z) : bool :=
  existsb (fun item =>
             contains item
               (lower (snmp_property snmp "ENTITY-MIB" "entPhysicalVendorType" index)))
          entity_table_black_list.

(** [n] has an address, and it contains a slash. *)
Definition has_slash_address (self : autoload) (n : Z) : Prop :=
  exists a, relative_path self !! n = Some a /\ contains "/" a = true.

(** What [_get_chassis_attributes] emits for [chassis]: a chassis resource
    at the address of the chassis, its model (the description of its row
    when the device reports no model name) and its serial number. *)
Definition chassis_output (snmp : snmp_handler) (self : autoload) (chassis : Z)
    (out : resource * list attribute) : Prop :=
  exists address tb row,
    relative_path self !! chassis = Some address
    /\ entity_table self = Some tb
    /\ QualiMibTable.get chassis tb = Ok row
    /\ out.1 = mkResource ChassisResource None None address
    /\ out.2 =
         [mkAttribute address "chassis_model"
            (if decide (snmp_property snmp "ENTITY-MIB" "entPhysicalModelName" chassis = "")
             then entPhysicalDescr row
             else snmp_property snmp "ENTITY-MIB" "entPhysicalModelName" chassis);
          mkAttribute address "serial_number"
            (snmp_property snmp "ENTITY-MIB" "entPhysicalSerialNum" chassis)].

(** ** Ports, port channels and the auxiliary tables

    The methods that build the port and port-channel resources join the
    interface table with the tables that [_load_snmp_tables] stores in
    [lldp_local_table], [lldp_remote_table], [cdp_table], [duplex_table]
    and [port_channel_ports].  These attributes are read by these methods
    only; they are passed to them as one record, with the keys Python has:
    the duplex and aggregation tables are indexed as the interface table
    is, the CDP and LLDP tables by an integer or a composite string. *)

(** [s.replace(old, new)] for one-character [old] and [new]. *)
Fixpoint replace_char (old new : ascii) (s : string) : string :=
  match s with
  | String c r => String (if Ascii.eqb c old then new else c) (replace_char old new r)
  | EmptyString => EmptyString
  end.

Definition in_chars (chars : list ascii) (c : ascii) : bool :=
  existsb (Ascii.eqb c) chars.

Fixpoint lstrip_chars (chars : list ascii) (s : string) : string :=
  match s with
  | String c r => if in_chars chars c then lstrip_chars chars r else s
  | EmptyString => EmptyString
  end.

Fixpoint rstrip_chars (chars : list ascii) (s : string) : string :=
  match s with
  | String c r =>
      match rstrip_chars chars r with
      | EmptyString => if in_chars chars c then EmptyString else String c EmptyString
      | r' => String c r'
      end
  | EmptyString => EmptyString
  end.

(** [s.strip(chars)] *)
Definition strip_chars (chars : list ascii) (s : string) : string :=
  rstrip_chars chars (lstrip_chars chars s).

(** The text that [re.search(r'^\d+', s)] matches: the digits [s] starts
    with (empty when there is no match). *)
Fixpoint leading_digits (s : string) : string :=
  match s with
  | String c r => if is_digit c then String c (leading_digits r) else EmptyString
  | EmptyString => EmptyString
  end.

(** The longest suffix of [s] made of digits. *)
Fixpoint digit_suffix (s : string) : string :=
  match s with
  | String c r => if all_chars is_digit s then s else digit_suffix r
  | EmptyString => EmptyString
  end.

Fixpoint drop_final_newline (s : string) : string :=
  match s with
  | String c r =>
      match r with
      | EmptyString => if Ascii.eqb c "010" then EmptyString else s
      | _ => String c (drop_final_newline r)
      end
  | EmptyString => EmptyString
  end.

(** The text that [re.search(r'\d+$', s)] matches (empty when there is no
    match): [$] matches at the end of the string and before a newline that
    ends it. *)
Definition trailing_digits (s : string) : string :=
  digit_suffix (drop_final_newline s).

(** [str(key)] for a key of a table. *)
Definition str_value (v : value) : string :=
  match v with
  | VStr s => s
  | VInt z => Py.str z
  end.

(** A row of an auxiliary table: a dictionary from column names to cells. *)
Definition aux_row : Type := list (string * string).

(** [name in row] *)
Definition has_field (name : string) (row : aux_row) : bool :=
  match assoc name row with Some _ => true | None => false end.

(** [row[name]] *)
Definition field (name : string) (row : aux_row) : result string :=
  match assoc name row with Some cell => Ok cell | None => Raise KeyError end.

Record link_tables : Type := mkLinkTables {
  lldp_local_table : QualiMibTable.t value aux_row;
  lldp_remote_table : QualiMibTable.t value aux_row;
  cdp_table : QualiMibTable.t value aux_row;
  duplex_table : QualiMibTable.t Z aux_row;
  port_channel_ports : QualiMibTable.t Z aux_row
}.

(** A loop that threads a local variable and only reads [self]. *)
Fixpoint fold_result {A B} (l : list A) (acc : B) (body : B -> A -> result B)
    : result B :=
  match l with
  | [] => Ok acc
  | x :: rest => acc' ← body acc x; fold_result rest acc' body
  end.

(** The dictionary that [_get_interface_details] returns. *)
Record link_details : Type := mkLinkDetails {
  duplex : string;
  auto_negotiation : string
}.

Section Ports.

Variable snmp : snmp_handler.

(** The first value of the answer to
    [snmp.get(('MAU-MIB', 'ifMauAutoNegAdminStatus', port_index, 1))]; the
    query, or taking the value, may raise. *)
Variable snmp_get_auto_negotiation : Z -> result string.

(** The items of the plain dictionary built from a list of pairs, in the
    order in which Python iterates over them. *)
Variable dict_items : list (Z * if_row) -> list (Z * if_row).

Variable tables : link_tables.

(** [_get_adjacent], first loop body.  [interface_id] is the integer that
    [port_mapping] holds for the port: the text the pattern matches is
    compared with it as a [str] with an [int]. *)
Definition _get_adjacent_cdp (interface_id : Z) (result : string)
    (item : value * aux_row) : Py.result string :=
  let '(key, value) := item in
  if has_field "cdpCacheDeviceId" value && has_field "cdpCacheDevicePort" value then
    match leading_digits (str_value key) with
    | EmptyString => Raise AttributeError
    | group =>
        if bool_decide (VStr group = VInt interface_id) then
          device ← field "cdpCacheDeviceId" value;
          port ← field "cdpCacheDevicePort" value;
          Ok (device +:+ " through " +:+ port)
        else Ok result
    end
  else Ok result.

(** [_get_adjacent], second loop; an empty interface name leaves it. *)
Fixpoint _get_adjacent_lldp (self : autoload) (interface_id : Z)
    (rows : QualiMibTable.t value aux_row) (result : string) : Py.result string :=
  match rows with
  | [] => Ok result
  | (key, value) :: rest =>
      tb ← attr_of (if_table self);
      row ← QualiMibTable.get interface_id tb;
      let interface_name := ifDescr row in
      if decide (interface_name = "") then Ok result
      else if has_field "lldpLocPortDesc" value then
        desc ← field "lldpLocPortDesc" value;
        if contains interface_name desc then
          if QualiMibTable.mem (VStr "lldpRemSysName") (lldp_remote_table tables)
             && QualiMibTable.mem (VStr "lldpRemPortDesc") (lldp_remote_table tables)
          then
            remote ← QualiMibTable.get key (lldp_remote_table tables);
            name ← field "lldpRemSysName" remote;
            remote ← QualiMibTable.get key (lldp_remote_table tables);
            port ← field "lldpRemPortDesc" remote;
            _get_adjacent_lldp self interface_id rest (name +:+ " through " +:+ port)
          else _get_adjacent_lldp self interface_id rest result
        else _get_adjacent_lldp self interface_id rest result
      else _get_adjacent_lldp self interface_id rest result
  end.

Definition _get_adjacent (self : autoload) (interface_id : Z) : Py.result string :=
  result ← fold_result (cdp_table tables) "" (_get_adjacent_cdp interface_id);
  if bool_decide (result = "") && negb (bool_decide (lldp_remote_table tables = [])) then
    _get_adjacent_lldp self interface_id (lldp_local_table tables) result
  else Ok result.

(** [_get_interface_details], loop body. *)
Definition _get_interface_details_row (port_index : Z) (duplex : string)
    (item : Z * aux_row) : M string :=
  let '(key, value) := item in
  if has_field "dot3StatsIndex" value then
    index ← lift (field "dot3StatsIndex" value);
    if decide (index = Py.str port_index) then
      interface_duplex ← snmp_get_property snmp "EtherLike-MIB" "dot3StatsDuplexStatus" key;
      if contains "halfDuplex" interface_duplex then mret "Half" else mret duplex
    else mret duplex
  else mret duplex.

Definition _get_interface_details (port_index : Z) : M link_details :=
  _ ← log (Get "MAU-MIB" "ifMauAutoNegAdminStatus" port_index);
  let auto_negotiation :=
    match snmp_get_auto_negotiation port_index with
    | Ok answer => if contains "enabled" (lower answer) then "True" else "False"
    | Raise _ => "False"
    end in
  duplex ← fold_each (duplex_table tables) "Full" (_get_interface_details_row port_index);
  mret (mkLinkDetails duplex auto_negotiation).

(** [_get_ports_attributes], loop body; the keyword arguments of [Port]
    are listed in the order in which the method computes them. *)
Definition _get_ports_attributes_port (port : Z) : M unit :=
  tb ← attr if_table;
  mapping ← gets port_mapping;
  port_id ← lift (match mapping !! port with
                  | Some port_id => Ok port_id
                  | None => Raise KeyError
                  end);
  row ← lift (QualiMibTable.get port_id tb);
  _ ← log (GetProperties "IF-MIB" port_id ["ifType"; "ifPhysAddress"; "ifMtu"; "ifSpeed"]);
  let interface_name := delete_char "'" (ifDescr row) in
  interface_name ←
    (if decide (interface_name = "") then
       entities ← attr entity_table;
       entity ← lift (QualiMibTable.get port entities);
       mret (entPhysicalName entity)
     else mret interface_name);
  if decide (interface_name = "") then mret tt
  else
    let interface_type :=
      delete_char "'" (delete_char "/" (snmp_property snmp "IF-MIB" "ifType" port_id)) in
    description ← snmp_get_property snmp "IF-MIB" "ifAlias" port_id;
    adjacent ← read (fun self => _get_adjacent self port_id);
    details ← _get_interface_details port_id;
    addresses ← read (fun self => _get_ip_interface_details self port_id);
    paths ← gets relative_path;
    relative_path ← lift (match paths !! port with
                          | Some path => Ok path
                          | None => Raise KeyError
                          end);
    _add_resource (mkResource PortResource (Some interface_name) None relative_path)
      [("l2_protocol_type", interface_type);
       ("mac", snmp_property snmp "IF-MIB" "ifPhysAddress" port_id);
       ("mtu", snmp_property snmp "IF-MIB" "ifMtu" port_id);
       ("bandwidth", snmp_property snmp "IF-MIB" "ifSpeed" port_id);
       ("description", description);
       ("adjacent", adjacent);
       ("duplex", duplex details);
       ("auto_negotiation", auto_negotiation details);
       ("ipv4_address", ipv4_address addresses);
       ("ipv6_address", ipv6_address addresses)].

Definition _get_ports_attributes : M unit :=
  ports ← gets port_list;
  for_each ports _get_ports_attributes_port.

(** [_get_associated_ports], loop body. *)
Definition _get_associated_ports_row (self : autoload) (item_id : Z) (result : string)
    (item : Z * aux_row) : Py.result string :=
  let '(key, value) := item in
  attached ← field "dot3adAggPortAttachedAggID" value;
  if contains (Py.str item_id) attached then
    tb ← attr_of (if_table self);
    row ← QualiMibTable.get key tb;
    Ok (result +:+ delete_char " " (replace_char "/" "-" (ifDescr row)) +:+ "; ")
  else Ok result.

Definition _get_associated_ports (self : autoload) (item_id : Z) : Py.result string :=
  result ← fold_result (port_channel_ports tables) ""
             (_get_associated_ports_row self item_id);
  Ok (strip_chars [" "; "009"; "010"; "013"]%char result).

(** [_get_port_channels], loop body. *)
Definition _get_port_channels_item (item : Z * if_row) : M unit :=
  let '(key, value) := item in
  let interface_model := ifDescr value in
  match trailing_digits interface_model with
  | EmptyString => mret tt
  | digits =>
      let interface_id := "PC" +:+ digits in
      description ← snmp_get_property snmp "IF-MIB" "ifAlias" key;
      associated_ports ← read (fun self => _get_associated_ports self key);
      addresses ← read (fun self => _get_ip_interface_details self key);
      _add_resource
        (mkResource PortChannelResource (Some interface_model) None interface_id)
        [("description", description);
         ("associated_ports", associated_ports);
         ("ipv4_address", ipv4_address addresses);
         ("ipv6_address", ipv6_address addresses)]
  end.

Definition _get_port_channels : M unit :=
  tb ← attr if_table;
  match tb with
  | [] => mret tt
  | _ =>
      let port_channel_dic :=
        List.filter (fun item : Z * if_row =>
                       contains "channel" (ifDescr item.2)
                       && negb (contains "." (ifDescr item.2))) tb in
      for_each (dict_items port_channel_dic) _get_port_channels_item
  end.

End Ports.

(** A port with a neighbour it learns through LLDP, the remote table having
    rows under the two column names. *)
Definition lldp_tables : link_tables :=
  {| lldp_local_table := [(VInt 7, [("lldpLocPortDesc", "GigabitEthernet0/1")])];
     lldp_remote_table :=
       [(VInt 7, [("lldpRemSysName", "core-sw"); ("lldpRemPortDesc", "Ethernet1/1")]);
        (VStr "lldpRemSysName", []); (VStr "lldpRemPortDesc", [])];
     cdp_table :=
       [(VStr "10.1", [("cdpCacheDeviceId", "edge-sw"); ("cdpCacheDevicePort", "Gi0/2")])];
     duplex_table := [(10, [("dot3StatsIndex", "10")])];
     port_channel_ports := [] |}.

(** Two states that differ at most in the log of queries. *)
Definition only_logs (s s' : autoload) : Prop :=
  s' = set_snmp_log (snmp_log s') s.

(** A row of the duplex table that carries the index of the port and for
    whose key the device reports half duplex. *)
Definition half_duplex_row (snmp : snmp_handler) (port_index : Z)
    (item : Z * aux_row) : bool :=
  match assoc "dot3StatsIndex" item.2 with
  | Some index =>
      bool_decide (index = Py.str port_index)
      && contains "halfDuplex"
           (snmp_property snmp "EtherLike-MIB" "dot3StatsDuplexStatus" item.1)
  | None => false
  end.


(** The rows of the aggregation table that [_get_associated_ports] takes
    for [item_id]: those whose aggregator id contains the decimal form of
    [item_id]. *)
Definition attached_rows (item_id : Z) (rows : QualiMibTable.t Z aux_row)
    : QualiMibTable.t Z aux_row :=
  List.filter (fun item : Z * aux_row =>
                 match assoc "dot3adAggPortAttachedAggID" item.2 with
                 | Some attached => contains (Py.str item_id) attached
                 | None => false
                 end) rows.

(** The text a member port contributes to the attribute. *)
Definition port_label (row : if_row) : string :=
  delete_char " " (replace_char "/" "-" (ifDescr row)) +:+ "; ".

Definition concat_strings (l : list string) : string :=
  foldr (fun s acc => s +:+ acc) "" l.

(** Ports attached to the aggregators 1, 10 and 2. *)
Definition aggregation_tables : link_tables :=
  {| lldp_local_table := []; lldp_remote_table := []; cdp_table := [];
     duplex_table := [];
     port_channel_ports :=
       [(1, [("dot3adAggPortAttachedAggID", "1")]);
        (2, [("dot3adAggPortAttachedAggID", "10")]);
        (3, [("dot3adAggPortAttachedAggID", "2")])] |}.

Definition three_interfaces : autoload :=
  set_if_table
    (Some [(1, mkIfRow "GigabitEthernet0/1" "1"); (2, mkIfRow "GigabitEthernet0/2" "2");
           (3, mkIfRow "GigabitEthernet0/3" "3"); (50, mkIfRow "Port-channel1" "50")])
    init.

(** The name [_get_ports_attributes] gives to a port: the descriptor of its
    interface without quotes, or the physical name when that is empty. *)
Definition port_interface_name (self : autoload) (port : Z) : result string :=
  tb ← attr_of (if_table self);
  port_id ← match port_mapping self !! port with
            | Some port_id => Ok port_id
            | None => Raise KeyError
            end;
  row ← QualiMibTable.get port_id tb;
  let name := delete_char "'" (ifDescr row) in
  if decide (name = "") then
    entities ← attr_of (entity_table self);
    entity ← QualiMibTable.get port entities;
    Ok (entPhysicalName entity)
  else Ok name.

Definition port_is_named (self : autoload) (port : Z) : bool :=
  match port_interface_name self port with
  | Ok name => negb (String.eqb name "")
  | Raise _ => false
  end.

Definition port_attribute_names : list string :=
  ["l2_protocol_type"; "mac"; "mtu"; "bandwidth"; "description"; "adjacent";
   "duplex"; "auto_negotiation"; "ipv4_address"; "ipv6_address"].

(** What [_get_ports_attributes] emits for a named port: a port resource
    under that name at the address of the port, and its ten attributes. *)
Definition port_output (self : autoload) (port : Z)
    (out : resource * list attribute) : Prop :=
  exists name address,
    port_interface_name self port = Ok name
    /\ relative_path self !! port = Some address
    /\ out.1 = mkResource PortResource (Some name) None address
    /\ List.map attr_relative_address out.2 = List.map (fun _ => address) port_attribute_names
    /\ List.map attr_name out.2 = port_attribute_names.

(** The interfaces that [_get_port_channels] turns into resources: the
    descriptor contains [channel], has no dot and ends with digits. *)
Definition is_port_channel (item : Z * if_row) : bool :=
  contains "channel" (ifDescr item.2)
  && negb (contains "." (ifDescr item.2))
  && negb (String.eqb (trailing_digits (ifDescr item.2)) "").

Definition port_channel_attribute_names : list string :=
  ["description"; "associated_ports"; "ipv4_address"; "ipv6_address"].

Definition port_channel_output (item : Z * if_row)
    (out : resource * list attribute) : Prop :=
  let address := "PC" +:+ trailing_digits (ifDescr item.2) in
  out.1 = mkResource PortChannelResource (Some (ifDescr item.2)) None address
  /\ List.map attr_relative_address out.2
     = List.map (fun _ => address) port_channel_attribute_names
  /\ List.map attr_name out.2 = port_channel_attribute_names.

(** A port with its interface, mapped and addressed, and a second port
    whose interface and physical names are empty. *)
Definition two_ports : autoload :=
  set_entity_table
    (Some [(1, entity "-1" "0" "chassis"); (3, entity "1" "1" "port");
           (4, entity "2" "1" "port")])
    (set_if_table
       (Some [(10, mkIfRow "GigabitEthernet0/1" "10"); (11, mkIfRow "" "11");
              (50, mkIfRow "Port-channel1" "50"); (51, mkIfRow "Port-channel1.5" "51")])
       (set_port_mapping (<[3 := 10]> (<[4 := 11]> ∅))
          (set_port_list [3; 4]
             (set_relative_path (<[1 := "0"]> (<[3 := "0/1"]> (<[4 := "0/2"]> ∅)))
                (set_ip_v4_table (Some [])
                   (set_ip_v6_table (Some []) init)))))).

(** A method that, when it returns, has appended to [self.resources] only
    resources that satisfy [P], and has removed none. *)
Definition emits {A} (P : resource -> Prop) (m : M A) : Prop :=
  forall s a s',
    m s = Ok (a, s') ->
    exists rs, resources s' = resources s ++ rs /\ Forall P rs.

Definition of_class (c : resource_class) (r : resource) : Prop := res_class r = c.

(** A chassis, a module whose parent (99) the device does not report, and
    a port inside that module. *)
Definition orphan_device : snmp_handler :=
  {| snmp_entPhysicalParentRelPos := [(1, "-1"); (2, "1"); (3, "5")];
     snmp_ifDescr := [(10, mkIfRow "GigabitEthernet0/1" "10")];
     snmp_ipAddrTable := []; snmp_ipv6AddrEntry := [];
     snmp_table := fun _ _ => [];
     snmp_property :=
       cells_property
         [(1, [("entPhysicalContainedIn", "0"); ("entPhysicalClass", "chassis")]);
          (2, [("entPhysicalContainedIn", "99"); ("entPhysicalClass", "module")]);
          (3, [("entPhysicalContainedIn", "2"); ("entPhysicalClass", "port");
               ("entPhysicalName", "Gi0/1")])];
     snmp_get_alias := fun _ => Ok "IF-MIB::ifIndex.10" |}.



(** A chassis with two pairs of module bays and a module in each lower
    bay. *)
Definition two_slot_device : snmp_handler :=
  {| snmp_entPhysicalParentRelPos :=
       [(1, "-1"); (10, "1"); (11, "2"); (12, "3"); (13, "4"); (20, "1"); (21, "1")];
     snmp_ifDescr := []; snmp_ipAddrTable := []; snmp_ipv6AddrEntry := [];
     snmp_table := fun _ _ => [];
     snmp_property :=
       cells_property
         [(1, [("entPhysicalContainedIn", "0"); ("entPhysicalClass", "chassis")]);
          (10, [("entPhysicalContainedIn", "1"); ("entPhysicalClass", "container");
                ("entPhysicalVendorType", "cevContainerUpperModuleBay")]);
          (11, [("entPhysicalContainedIn", "1"); ("entPhysicalClass", "container");
                ("entPhysicalVendorType", "cevContainerLowerModuleBay")]);
          (12, [("entPhysicalContainedIn", "1"); ("entPhysicalClass", "container");
                ("entPhysicalVendorType", "cevContainerUpperModuleBay")]);
          (13, [("entPhysicalContainedIn", "1"); ("entPhysicalClass", "container");
                ("entPhysicalVendorType", "cevContainerLowerModuleBay")]);
          (20, [("entPhysicalContainedIn", "11"); ("entPhysicalClass", "module")]);
          (21, [("entPhysicalContainedIn", "13"); ("entPhysicalClass", "module")])];
     snmp_get_alias := fun _ => Raise KeyError |}.

(** The row under which the loop of [_get_entity_table] classifies an
    index of the device, with the class it settles on; [None] when the loop
    leaves the index before (no position, no parent id, a vendor type of
    the black list, or neither a class nor a vendor type). *)
Definition classified_row (snmp : snmp_handler) (entry : Z * string)
    : option entity_row :=
  let index := entry.1 in
  let contained := snmp_property snmp "ENTITY-MIB" "entPhysicalContainedIn" index in
  let class := snmp_property snmp "ENTITY-MIB" "entPhysicalClass" index in
  let vendor_type := snmp_property snmp "ENTITY-MIB" "entPhysicalVendorType" index in
  let row (c : string) :=
    {| entPhysicalParentRelPos := entry.2;
       entPhysicalContainedIn := VStr contained;
       entPhysicalClass := c;
       entPhysicalVendorType := vendor_type;
       entPhysicalDescr := snmp_property snmp "ENTITY-MIB" "entPhysicalDescr" index;
       entPhysicalName := snmp_property snmp "ENTITY-MIB" "entPhysicalName" index |} in
  if decide (entry.2 = "") then None
  else if decide (contained = "") then None
  else if existsb (fun item => contains item (lower vendor_type)) entity_table_black_list
  then None
  else if decide (class = "") then
    if decide (vendor_type = "") then None
    else if contains "cevcontainer" (lower vendor_type) then Some (row "container")
    else if contains "cevchassis" (lower vendor_type) then Some (row "chassis")
    else if contains "cevmodule" (lower vendor_type) then Some (row "module")
    else if contains "cevport" (lower vendor_type) then Some (row "port")
    else if contains "cevpowersupply" (lower vendor_type) then Some (row "powerSupply")
    else Some (row class)
  else Some (row (delete_char "'" class)).

(** What a row of the device offers to the port list: it is classified as
    a port, neither its name nor its description matches the exclusion
    pattern, [_get_mapping] resolves the logical index [port_id] for it (a
    non-zero integer), and that index is a key of the interface table. *)
Definition port_offer (snmp : snmp_handler) (self : autoload) (entry : Z * string)
    (port_id : Z) : Prop :=
  exists row,
    classified_row snmp entry = Some row
    /\ entPhysicalClass row = "port"
    /\ re_search_ignorecase port_exclude_pattern (entPhysicalName row) = false
    /\ re_search_ignorecase port_exclude_pattern (entPhysicalDescr row) = false
    /\ (exists self', _get_mapping snmp entry.1 (entPhysicalDescr row) self
                      = Ok (Some port_id, self'))
    /\ port_id <> 0
    /\ (exists tb, if_table self = Some tb /\ port_id ∈ QualiMibTable.keys tb).

(** The same as a function: the logical index a row offers, if any. *)
Definition port_claim (snmp : snmp_handler) (self : autoload) (entry : Z * string)
    : option Z :=
  match classified_row snmp entry with
  | Some row =>
      if decide (entPhysicalClass row = "port") then
        if negb (re_search_ignorecase port_exclude_pattern (entPhysicalName row))
           && negb (re_search_ignorecase port_exclude_pattern (entPhysicalDescr row))
        then
          match _get_mapping snmp entry.1 (entPhysicalDescr row) self with
          | Ok (Some port_id, _) =>
              if bool_decide (port_id ≠ 0)
                 && match if_table self with
                    | Some tb => QualiMibTable.mem port_id tb
                    | None => false
                    end
              then Some port_id else None
          | _ => None
          end
        else None
      else None
  | None => None
  end.

(** First claim wins: the rows, in the order of the device table, that get
    the logical index they offer, a row being passed over when its index is
    already a value of the mapping. *)
Fixpoint first_claims (mapping : gmap Z Z) (claims : list (Z * option Z))
    : list (Z * Z) :=
  match claims with
  | [] => []
  | (index, None) :: rest => first_claims mapping rest
  | (index, Some port_id) :: rest =>
      if bool_decide (port_id ∈ dict_values mapping) then first_claims mapping rest
      else (index, port_id) :: first_claims (<[index := port_id]> mapping) rest
  end.

Definition claim_all (mapping : gmap Z Z) (listed : list (Z * Z)) : gmap Z Z :=
  fold_left (fun m c => <[c.1 := c.2]> m) listed mapping.

(** * Properties *)

Ltac munfold :=
  unfold mbind, mret, M_bind, M_ret, result_bind, result_ret,
         lift, gets, modify, attr, raise, read, log in *.

(** C8 (fails on the code): the address attribute is not the key of the
    first matching entry.  With two IPv4 entries of which the second
    belongs to interface 2, a first-match search gives [10.0.0.2] and
    [_get_ip_interface_details] gives the empty string; with a single
    entry, which belongs to interface 1, the search gives [10.0.0.1] and
    the method again the empty string. *)
Theorem ip_details_only_first_entry :
  first_matching_address two_addresses 2 = "10.0.0.2"
  /\ _get_ip_interface_details (with_ip_tables two_addresses []) 2
     = Ok (mkInterfaceDetails "" "")
  /\ first_matching_address one_address 1 = "10.0.0.1"
  /\ _get_ip_interface_details (with_ip_tables one_address one_address) 1
     = Ok (mkInterfaceDetails "" "").
Proof. repeat split; vm_compute; reflexivity. Qed.

(** ** Strings: characters, splitting, and the decimal round trip *)

Lemma contains_char_false c s :
  all_chars (fun x => negb (Ascii.eqb x c)) s = true ->
  contains (String c "") s = false.
Proof.
  induction s as [|x r IH]; simpl; [done|].
  intros [Hx Hr]%andb_prop. rewrite (IH Hr), orb_false_r.
  destruct (ascii_dec c x) as [->|]; [|done].
  by rewrite Ascii.eqb_refl in Hx.
Qed.

Lemma contains_char_true c s :
  all_chars (fun x => negb (Ascii.eqb x c)) s = false ->
  contains (String c "") s = true.
Proof.
  induction s as [|x r IH]; simpl; [done|].
  destruct (ascii_dec c x) as [->|Hne].
  - by destruct r.
  - intros H. apply andb_false_iff in H as [H|H].
    + apply negb_false_iff, Ascii.eqb_eq in H. congruence.
    + by rewrite (IH H).
Qed.

Lemma all_chars_impl (P Q : ascii -> bool) s :
  (forall c, P c = true -> Q c = true) -> all_chars P s = true -> all_chars Q s = true.
Proof.
  intros HPQ. induction s; simpl; [done|].
  intros [H1 H2]%andb_prop. rewrite (HPQ _ H1). auto.
Qed.

Lemma split_no_sep c s :
  all_chars (fun x => negb (Ascii.eqb x c)) s = true -> split c s = [s].
Proof.
  induction s as [|x r IH]; simpl; [done|].
  intros [Hx Hr]%andb_prop. apply negb_true_iff in Hx. rewrite Hx, (IH Hr). done.
Qed.

Lemma split_nonempty c s : split c s <> [].
Proof. destruct s as [|x r]; simpl; [done|]. destruct (Ascii.eqb x c); [done|]. by destruct (split c r). Qed.

Lemma split_sep_free c s :
  Forall (fun seg => all_chars (fun x => negb (Ascii.eqb x c)) seg = true) (split c s).
Proof.
  induction s as [|x r IH]; simpl.
  - by constructor.
  - destruct (Ascii.eqb x c) eqn:E.
    + by constructor.
    + destruct (split c r) as [|seg segs]; [by repeat constructor; simpl; rewrite E|].
      inversion IH; subst. constructor; [|done]. simpl. by rewrite E.
Qed.

Lemma split_with_sep c s :
  all_chars (fun x => negb (Ascii.eqb x c)) s = false -> (2 <= length (split c s))%nat.
Proof.
  induction s as [|x r IH]; simpl; [done|].
  destruct (Ascii.eqb x c) eqn:E; simpl.
  - intros _. pose proof (split_nonempty c r). destruct (split c r); simpl; [done|lia].
  - intros H. specialize (IH H). destruct (split c r); simpl in *; lia.
Qed.

Lemma split_app_sep c s t :
  all_chars (fun x => negb (Ascii.eqb x c)) s = true ->
  split c (s +:+ String c t) = s :: split c t.
Proof.
  induction s as [|x r IH]; simpl.
  - by rewrite Ascii.eqb_refl.
  - intros [Hx Hr]%andb_prop. apply negb_true_iff in Hx. by rewrite Hx, (IH Hr).
Qed.

Lemma split_join c l :
  l <> [] ->
  Forall (fun seg => all_chars (fun x => negb (Ascii.eqb x c)) seg = true) l ->
  split c (join (String c "") l) = l.
Proof.
  induction l as [|x l IH]; [done|]. intros _ Hall. inversion Hall as [|? ? Hx Hl]; subst.
  destruct l as [|y l'].
  - simpl. by apply split_no_sep.
  - change (join (String c "") (x :: y :: l')) with (x +:+ String c (join (String c "") (y :: l'))).
    rewrite split_app_sep by done. f_equal. by apply IH.
Qed.

Lemma all_chars_app P s t : all_chars P (s +:+ t) = all_chars P s && all_chars P t.
Proof. induction s; simpl; [done|]. by rewrite IHs, andb_assoc. Qed.

Lemma join_has_sep c x y l :
  all_chars (fun z => negb (Ascii.eqb z c)) (join (String c "") (x :: y :: l)) = false.
Proof.
  change (join (String c "") (x :: y :: l)) with (x +:+ String c (join (String c "") (y :: l))).
  rewrite all_chars_app. simpl. rewrite Ascii.eqb_refl. simpl. apply andb_false_r.
Qed.

(** [str] *)
Lemma string_of_uint_digits d : all_chars is_digit (NilEmpty.string_of_uint d) = true.
Proof. induction d; simpl; auto. Qed.

Lemma str_chars z : all_chars digit_or_minus (Py.str z) = true.
Proof.
  unfold Py.str, NilZero.string_of_int.
  assert (Hu : forall d, all_chars digit_or_minus (NilZero.string_of_uint d) = true).
  { intros d. unfold NilZero.string_of_uint.
    destruct d; try done;
      apply (all_chars_impl is_digit); try (intros c Hc; unfold digit_or_minus; by rewrite Hc);
      apply (string_of_uint_digits (_ _)). }
  destruct (Z.to_int z); simpl; auto.
Qed.

Lemma str_nonempty z : Py.str z <> "".
Proof.
  unfold Py.str. destruct z; simpl; try done.
  unfold NilZero.string_of_uint. by destruct (Pos.to_uint p).
Qed.

Lemma digit_or_minus_not_space (c : ascii) : digit_or_minus c = true -> is_space c = false.
Proof.
  unfold digit_or_minus. intros H.
  destruct c as [[] [] [] [] [] [] [] []]; simpl in *; try done.
Qed.

Lemma digit_or_minus_not (c x : ascii) :
  digit_or_minus x = false -> forall y, digit_or_minus y = true -> negb (Ascii.eqb y x) = true.
Proof.
  intros Hx y Hy. apply negb_true_iff, Ascii.eqb_neq. intros ->. congruence.
Qed.

Lemma lstrip_id s : all_chars (fun c => negb (is_space c)) s = true -> lstrip s = s.
Proof. destruct s; simpl; [done|]. intros [H _]%andb_prop. apply negb_true_iff in H. by rewrite H. Qed.

Lemma rstrip_id s : all_chars (fun c => negb (is_space c)) s = true -> rstrip s = s.
Proof.
  induction s as [|c r IH]; simpl; [done|].
  intros [H Hr]%andb_prop. apply negb_true_iff in H. rewrite (IH Hr), H. by destruct r.
Qed.

Lemma strip_id s : all_chars (fun c => negb (is_space c)) s = true -> strip s = s.
Proof. intros H. unfold strip. rewrite (lstrip_id _ H). by apply rstrip_id. Qed.

Lemma split_ws_id s :
  s <> "" -> all_chars (fun c => negb (is_space c)) s = true -> split_ws s = [s].
Proof.
  induction s as [|c r IH]; [done|]. intros _. simpl.
  intros [H Hr]%andb_prop. apply negb_true_iff in H. rewrite H.
  destruct r as [|c' r']; [done|].
  pose proof Hr as Hr'. simpl in Hr'. apply andb_prop in Hr' as [Hc' _].
  apply negb_true_iff in Hc'. rewrite Hc'.
  rewrite IH; done.
Qed.

Lemma str_no_space z : all_chars (fun c => negb (is_space c)) (Py.str z) = true.
Proof.
  eapply all_chars_impl; [|apply str_chars].
  intros c Hc. by rewrite (digit_or_minus_not_space _ Hc).
Qed.

Lemma str_no_char x z :
  digit_or_minus x = false ->
  all_chars (fun c => negb (Ascii.eqb c x)) (Py.str z) = true.
Proof.
  intros Hx. eapply all_chars_impl; [|apply str_chars]. by apply digit_or_minus_not.
Qed.

Lemma to_int_not_nil z : Z.to_int z <> Decimal.Pos Decimal.Nil /\ Z.to_int z <> Decimal.Neg Decimal.Nil.
Proof.
  destruct z; simpl; split; try done; intros [=H];
    by apply (DecimalPos.Unsigned.to_uint_nonnil p).
Qed.

Lemma int_of_str_str z : int_of_str (Py.str z) = Ok z.
Proof.
  unfold int_of_str. rewrite strip_id by apply str_no_space.
  assert (Hp : match Py.str z with String "+"%char _ => False | _ => True end).
  { pose proof (str_chars z) as H. destruct (Py.str z) as [|c r]; [done|].
    simpl in H. apply andb_prop in H as [H _].
    destruct c as [[] [] [] [] [] [] [] []]; simpl in *; try done. }
  assert (Hparse : NilZero.int_of_string (Py.str z) = Some (Z.to_int z)).
  { unfold Py.str. apply NilZero.isi; apply to_int_not_nil. }
  destruct (Py.str z) as [|c r] eqn:E.
  - by rewrite Hparse, DecimalZ.of_to.
  - destruct c as [[] [] [] [] [] [] [] []]; try (by rewrite Hparse, DecimalZ.of_to).
    done.
Qed.

Lemma contains_slash_dec s :
  (contains "/" s = true /\ all_chars (fun x => negb (Ascii.eqb x "/")) s = false)
  \/ (contains "/" s = false /\ all_chars (fun x => negb (Ascii.eqb x "/")) s = true).
Proof.
  destruct (all_chars (fun x => negb (Ascii.eqb x "/")) s) eqn:E.
  - right. split; [|done]. by apply contains_char_false.
  - left. split; [|done]. by apply contains_char_true.
Qed.

Lemma leading_segments_spec s :
  Forall sep_free (leading_segments s)
  /\ (contains "/" s = true -> leading_segments s <> []).
Proof.
  unfold leading_segments. destruct (contains_slash_dec s) as [[-> H]|[-> H]].
  - pose proof (split_with_sep _ _ H) as Hlen. pose proof (split_sep_free "/" s) as Hall.
    destruct (split "/" s) as [|x [|y l]]; simpl in Hlen; try lia.
    split.
    + change (x :: y :: l) with ([x] ++ (y :: l)) in *.
      rewrite removelast_app by done. apply Forall_app in Hall as [Hx Hl].
      apply Forall_app. split; [done|].
      clear -Hl. revert y Hl. induction l as [|z l IH]; intros y Hl; simpl; [constructor|].
      inversion Hl; subst. constructor; [done|]. by apply IH.
    + intros _. simpl. by destruct l.
  - split; [constructor|done].
Qed.

Lemma str_sep_free m : sep_free (Py.str m).
Proof. by apply str_no_char. Qed.

Lemma with_last_segment_split s m :
  contains "/" s = true ->
  contains "/" (with_last_segment s m) = true
  /\ split "/" (with_last_segment s m) = leading_segments s ++ [Py.str m].
Proof.
  intros Hs. destruct (leading_segments_spec s) as [Hall Hne]. specialize (Hne Hs).
  unfold with_last_segment. split.
  - apply contains_char_true. destruct (leading_segments s) as [|x l]; [done|].
    destruct l; apply join_has_sep.
  - apply (split_join "/"%char); [by destruct (leading_segments s)|].
    apply Forall_app. split; [done|]. constructor; [apply str_sep_free|constructor].
Qed.

Lemma with_last_segment_plain s m :
  contains "/" s = false -> with_last_segment s m = Py.str m.
Proof. intros Hs. unfold with_last_segment, leading_segments. by rewrite Hs. Qed.

Lemma with_last_segment_value s m : last_segment_value (with_last_segment s m) = Ok m.
Proof.
  unfold last_segment_value, last_segment.
  destruct (contains "/" s) eqn:Hs.
  - destruct (with_last_segment_split s m Hs) as [-> ->].
    unfold last_item. rewrite last_snoc. simpl. apply int_of_str_str.
  - rewrite (with_last_segment_plain _ _ Hs).
    rewrite contains_char_false by apply str_sep_free.
    rewrite split_ws_id by (apply str_nonempty || apply str_no_space).
    simpl. apply int_of_str_str.
Qed.

Lemma with_last_segment_leading s m :
  leading_segments (with_last_segment s m) = leading_segments s.
Proof.
  destruct (contains "/" s) eqn:Hs.
  - unfold leading_segments at 1.
    destruct (with_last_segment_split s m Hs) as [-> ->].
    by rewrite removelast_last.
  - rewrite (with_last_segment_plain _ _ Hs). unfold leading_segments.
    rewrite contains_char_false by apply str_sep_free. by rewrite Hs.
Qed.

Lemma offset_address_value s n k :
  last_segment_value s = Ok n ->
  last_segment_value (offset_address s n k) = Ok (n + 1000 * Z.of_nat k).
Proof.
  intros H. destruct k; simpl offset_address.
  - rewrite H. f_equal. lia.
  - apply with_last_segment_value.
Qed.

Lemma offset_address_inj s n j k :
  last_segment_value s = Ok n -> offset_address s n j = offset_address s n k -> j = k.
Proof.
  intros H E. pose proof (offset_address_value s n j H) as Hj.
  rewrite E, (offset_address_value s n k H) in Hj. injection Hj. lia.
Qed.

Lemma with_last_segment_again s a m :
  with_last_segment (with_last_segment s a) m = with_last_segment s m.
Proof. unfold with_last_segment at 1. by rewrite with_last_segment_leading. Qed.

Lemma offset_address_succ s n k :
  offset_address (with_last_segment s (n + 1000)) (n + 1000) k = offset_address s n (S k).
Proof.
  destruct k.
  - simpl. do 2 f_equal.
  - unfold offset_address. rewrite with_last_segment_again. f_equal. lia.
Qed.

Section PortPath.
Variable self : autoload.

Lemma _get_port_relative_path_step depth relative_id n :
  last_segment_value relative_id = Ok n ->
  _get_port_relative_path self (S depth) relative_id
  = if bool_decide (relative_id ∈ dict_values (relative_path self))
    then _get_port_relative_path self depth (with_last_segment relative_id (n + 1000))
    else Ok relative_id.
Proof.
  intros Hn. simpl. case_bool_decide as Hin; [|done].
  unfold last_segment_value, last_segment in Hn.
  unfold with_last_segment, leading_segments.
  destruct (contains "/" relative_id) eqn:Hs.
  - destruct (last_item (split "/" relative_id)) as [seg|] eqn:Hseg; [|done].
    simpl in Hn |- *. rewrite Hn. simpl.
    pose proof (split_nonempty "/" relative_id).
    unfold set_last. destruct (split "/" relative_id); [done|]. done.
  - destruct (last_item (split_ws relative_id)) as [seg|] eqn:Hseg; [|done].
    simpl in Hn |- *. rewrite Hn. done.
Qed.

Lemma _get_port_relative_path_offsets depth relative_id n :
  last_segment_value relative_id = Ok n ->
  (exists j, (j < depth)%nat
             /\ (offset_address relative_id n j ∉ dict_values (relative_path self))) ->
  exists k,
    _get_port_relative_path self depth relative_id = Ok (offset_address relative_id n k)
    /\ (offset_address relative_id n k ∉ dict_values (relative_path self))
    /\ forall j, (j < k)%nat -> offset_address relative_id n j ∈ dict_values (relative_path self).
Proof.
  revert relative_id n. induction depth as [|depth IH]; intros a n Hn [j [Hj Hfree]]; [lia|].
  rewrite (_get_port_relative_path_step _ _ _ Hn).
  case_bool_decide as Hin.
  - destruct j as [|j]; [done|].
    destruct (IH (with_last_segment a (n + 1000)) (n + 1000)) as [k (Hk & Hout & Hbelow)].
    + apply with_last_segment_value.
    + exists j. split; [lia|]. by rewrite offset_address_succ.
    + exists (S k). rewrite offset_address_succ in Hk, Hout. repeat split; try done.
      intros [|i] Hi; [done|]. rewrite <- offset_address_succ. apply Hbelow. lia.
  - exists O. repeat split; try done. intros; lia.
Qed.

Lemma offset_address_free relative_id n :
  last_segment_value relative_id = Ok n ->
  exists j, (j <= length (dict_values (relative_path self)))%nat
            /\ (offset_address relative_id n j ∉ dict_values (relative_path self)).
Proof.
  intros Hn. set (V := dict_values (relative_path self)).
  destruct (decide (Forall (fun j => offset_address relative_id n j ∈ V) (seq 0 (S (length V)))))
    as [Hall|Hex].
  - exfalso.
    assert (Hsub : offset_address relative_id n <$> seq 0 (S (length V)) ⊆+ V).
    { apply NoDup_submseteq.
      - apply NoDup_fmap_2_strong; [|apply NoDup_seq].
        intros j k _ _. by apply offset_address_inj.
      - intros x [j [-> Hj]]%list_elem_of_fmap. rewrite Forall_forall in Hall. by apply Hall. }
    apply submseteq_length in Hsub. rewrite length_fmap, length_seq in Hsub. lia.
  - apply not_Forall_Exists in Hex; [|intros; apply _].
    apply Exists_exists in Hex as [j [Hj Hout]]. exists j. split; [|done].
    apply elem_of_seq in Hj. lia.
Qed.

End PortPath.

(** ** Collision resolution of port addresses *)

Lemma elem_of_dict_values {V} (d : gmap Z V) (v : V) :
  v ∈ dict_values d <-> exists k, d !! k = Some v.
Proof.
  unfold dict_values. rewrite list_elem_of_fmap. split.
  - intros [[k v'] [-> H]]. exists k. by apply elem_of_map_to_list.
  - intros [k H]. exists (k, v). split; [done|]. by apply elem_of_map_to_list.
Qed.

Lemma elem_of_dict_values_insert {V} (d : gmap Z V) (k : Z) (v x : V) :
  x ∈ dict_values (<[k := v]> d) -> x = v \/ x ∈ dict_values d.
Proof.
  rewrite !elem_of_dict_values. intros [k' H].
  destruct (decide (k = k')) as [->|Hne].
  - rewrite lookup_insert_eq in H. left. congruence.
  - rewrite lookup_insert_ne in H by done. right. eauto.
Qed.

Lemma elem_of_dict_values_insert_eq {V} (d : gmap Z V) (k : Z) (v : V) :
  v ∈ dict_values (<[k := v]> d).
Proof. apply elem_of_dict_values. exists k. apply lookup_insert_eq. Qed.

(** C2: when the computed address of a port is taken, the final address
    is obtained by adding 1000 to the numeric last segment until the
    address is free: for an address whose last segment is the number [n],
    and a recursion bound above the number of assigned addresses,
    [_get_port_relative_path] returns the address offset [k] times, where
    the [k]-th offset is the first one that is not assigned, and its last
    segment is [n + 1000 * k].  In particular, when a first port gets a
    free address and a second port computes the same one, the second gets
    the address whose last segment is that of the first plus 1000 (that
    address being free). *)
Theorem port_collision_adds_1000 (self : autoload) (limit : nat)
    (relative_id : string) (n : Z) :
  last_segment_value relative_id = Ok n ->
  (length (dict_values (relative_path self)) < limit)%nat ->
  (exists k : nat,
     _get_port_relative_path self limit relative_id
       = Ok (offset_address relative_id n k)
     /\ (offset_address relative_id n k ∉ dict_values (relative_path self))
     /\ (forall j, (j < k)%nat ->
           offset_address relative_id n j ∈ dict_values (relative_path self))
     /\ last_segment_value (offset_address relative_id n k)
        = Ok (n + 1000 * Z.of_nat k))
  /\ (forall first_port : Z,
        (2 <= limit)%nat ->
        relative_id ∉ dict_values (relative_path self) ->
        offset_address relative_id n 1 ∉ dict_values (relative_path self) ->
        let assigned :=
          set_relative_path (<[first_port := relative_id]> (relative_path self)) self in
        _get_port_relative_path self limit relative_id = Ok relative_id
        /\ exists second,
             _get_port_relative_path assigned limit relative_id = Ok second
             /\ leading_segments second = leading_segments relative_id
             /\ last_segment_value second = Ok (n + 1000)).
Proof.
  intros Hn Hlimit. split.
  - destruct (offset_address_free self relative_id n Hn) as [j [Hj Hfree]].
    destruct (_get_port_relative_path_offsets self limit relative_id n Hn)
      as [k (Hk & Hout & Hbelow)]; [exists j; split; [lia|done]|].
    exists k. repeat split; try done. by apply offset_address_value.
  - intros first_port Hl Hfree Hfree1 assigned.
    destruct limit as [|[|limit]]; try lia. split.
    + rewrite (_get_port_relative_path_step _ _ _ _ Hn).
      by rewrite bool_decide_eq_false_2.
    + exists (offset_address relative_id n 1). split; [|split].
      * rewrite (_get_port_relative_path_step _ _ _ _ Hn).
        rewrite bool_decide_eq_true_2 by apply elem_of_dict_values_insert_eq.
        rewrite (_get_port_relative_path_step _ _ _ (n + 1000))
          by apply with_last_segment_value.
        rewrite bool_decide_eq_false_2; [done|].
        intros [Heq|Hin]%elem_of_dict_values_insert.
        -- apply (offset_address_inj relative_id n 1 0 Hn) in Heq. lia.
        -- by apply Hfree1.
      * apply with_last_segment_leading.
      * apply (offset_address_value relative_id n 1 Hn).
Qed.

Lemma port_collision_adds_1000_witness :
  (last_segment_value "0/1/1" = Ok 1
   /\ (length (dict_values (relative_path colliding_paths)) < 1000)%nat)
  /\ exists k : nat,
       _get_port_relative_path colliding_paths 1000 "0/1/1"
         = Ok (offset_address "0/1/1" 1 k)
       /\ (offset_address "0/1/1" 1 k ∉ dict_values (relative_path colliding_paths))
       /\ (forall j, (j < k)%nat ->
             offset_address "0/1/1" 1 j ∈ dict_values (relative_path colliding_paths))
       /\ last_segment_value (offset_address "0/1/1" 1 k) = Ok (1 + 1000 * Z.of_nat k).
Proof.
  assert (H1 : last_segment_value "0/1/1" = Ok 1) by reflexivity.
  assert (H2 : (length (dict_values (relative_path colliding_paths)) < 1000)%nat)
    by (vm_compute; lia).
  split; [by split|].
  apply (proj1 (port_collision_adds_1000 colliding_paths 1000 "0/1/1" 1 H1 H2)).
Defined.

Example port_collision_example :
  _get_port_relative_path colliding_paths 1000 "0/1/1" = Ok "0/1/1001"
  /\ _get_port_relative_path
       (set_relative_path (<[32 := "0/1/1001"]> (relative_path colliding_paths))
          colliding_paths) 1000 "0/1/1" = Ok "0/1/2001".
Proof. split; vm_compute; reflexivity. Qed.

(** ** Address assignment *)

Lemma _get_port_relative_path_free (self : autoload) (depth : nat)
    (relative_id path : string) :
  _get_port_relative_path self depth relative_id = Ok path ->
  path ∉ dict_values (relative_path self).
Proof.
  revert relative_id. induction depth as [|depth IH]; intros a; simpl; [done|].
  case_bool_decide as Hin; [|by intros [= <-]].
  match goal with |- context [mbind _ ?r] => destruct r as [next|] end; [|done].
  simpl. apply IH.
Qed.

Lemma remove_middle (x : Z) (l1 l2 : list Z) :
  x ∉ l1 -> Py.remove x (l1 ++ x :: l2) = Ok (l1 ++ l2).
Proof.
  induction l1 as [|y l1 IH]; simpl; intros Hx.
  - by rewrite decide_True.
  - apply not_elem_of_cons in Hx as [Hne Hx].
    rewrite decide_False by done. by rewrite (IH Hx).
Qed.

Lemma remove_filter (x : Z) (E done rest : list Z) :
  x ∈ E ->
  Py.remove x (List.filter (fun y => bool_decide (y ∉ E)) done ++ x :: rest)
  = Ok (List.filter (fun y => bool_decide (y ∉ E)) done ++ rest).
Proof.
  intros Hx. apply remove_middle. intros Hin.
  apply list_elem_of_In, filter_In in Hin as [_ Hin].
  by apply bool_decide_eq_true in Hin.
Qed.

Lemma filter_snoc_in (E done : list Z) (x : Z) :
  x ∈ E ->
  List.filter (fun y => bool_decide (y ∉ E)) (done ++ [x])
  = List.filter (fun y => bool_decide (y ∉ E)) done.
Proof.
  intros Hx. rewrite List.filter_app. simpl.
  rewrite bool_decide_eq_false_2 by (intros H; by apply H). by rewrite app_nil_r.
Qed.

Lemma filter_snoc_out (E done : list Z) (x : Z) :
  x ∉ E ->
  List.filter (fun y => bool_decide (y ∉ E)) (done ++ [x])
  = List.filter (fun y => bool_decide (y ∉ E)) done ++ [x].
Proof.
  intros Hx. rewrite List.filter_app. simpl. by rewrite bool_decide_eq_true_2.
Qed.

Lemma distinct_addresses_insert (L : list Z) (paths : gmap Z string)
    (port : Z) (path : string) :
  path ∉ dict_values paths ->
  distinct_addresses L paths ->
  distinct_addresses (L ++ [port]) (<[port := path]> paths).
Proof.
  intros Hfree HL p Hp.
  destruct (decide (p = port)) as [->|Hne].
  - exists path. rewrite lookup_insert_eq. split; [done|].
    intros k b Hk Hb Heq. subst. rewrite lookup_insert_ne in Hb by done.
    apply Hfree. rewrite elem_of_dict_values. eauto.
  - apply elem_of_app in Hp as [Hp|Hp]; [|apply list_elem_of_singleton in Hp; done].
    destruct (HL p Hp) as [a [Ha Hother]]. exists a.
    rewrite lookup_insert_ne by done. split; [done|].
    intros k b Hk Hb. destruct (decide (k = port)) as [->|Hkp].
    + rewrite lookup_insert_eq in Hb. injection Hb as <-. intros ->.
      apply Hfree. rewrite elem_of_dict_values. eauto.
    + rewrite lookup_insert_ne in Hb by done. by apply (Hother k).
Qed.

Section AddRelativePaths.
Variable recursion_limit : nat.

Abbreviation kept E := (List.filter (fun y : Z => bool_decide (y ∉ E))).

Lemma add_relative_paths_modules (rest done : list Z) (st st' : autoload) :
  module_list st = kept (exclusion_list st) done ++ rest ->
  (forall m, m ∈ kept (exclusion_list st) done -> is_Some (relative_path st !! m)) ->
  for_each rest (fun module =>
      excluded ← gets exclusion_list;
      if bool_decide (module ∉ excluded) then
        parent_path ← read (fun self => get_relative_path self recursion_limit module);
        id ← read (fun self => _get_resource_id self recursion_limit module);
        modify (fun self =>
          set_relative_path
            (<[module := parent_path +:+ "/" +:+ id]> (relative_path self)) self)
      else
        l ← read (fun self => Py.remove module (module_list self));
        modify (set_module_list l)) st = Ok (tt, st') ->
  exclusion_list st' = exclusion_list st
  /\ port_list st' = port_list st
  /\ module_list st' = kept (exclusion_list st) (done ++ rest)
  /\ (forall m, m ∈ kept (exclusion_list st) (done ++ rest) ->
        is_Some (relative_path st' !! m)).
Proof.
  revert done st. induction rest as [|x rest IH]; intros done st Hml Hpaths; simpl.
  - intros [= <-]. rewrite app_nil_r in *. done.
  - munfold. simpl. case_bool_decide as Hx.
    + destruct (get_relative_path st recursion_limit x) as [pp|]; [|done].
      destruct (_get_resource_id st recursion_limit x) as [id|]; [|done].
      intros Hrest. apply (IH (done ++ [x])) in Hrest; simpl.
      * simpl in Hrest. by rewrite <- app_assoc in Hrest.
      * rewrite filter_snoc_out by done. by rewrite <- app_assoc.
      * intros m. rewrite filter_snoc_out by done.
        intros [Hm|Hm]%elem_of_app.
        -- destruct (decide (x = m)) as [->|Hne];
             [rewrite lookup_insert_eq|rewrite lookup_insert_ne by done]; eauto.
        -- apply list_elem_of_singleton in Hm as ->. rewrite lookup_insert_eq. eauto.
    + rewrite Hml, remove_filter by done.
      intros Hrest. apply (IH (done ++ [x])) in Hrest; simpl.
      * simpl in Hrest. by rewrite <- app_assoc in Hrest.
      * by rewrite filter_snoc_in.
      * intros m. rewrite filter_snoc_in by done. apply Hpaths.
Qed.

Lemma add_relative_paths_ports (rest done : list Z) (st st' : autoload) :
  port_list st = kept (exclusion_list st) done ++ rest ->
  distinct_addresses (kept (exclusion_list st) done) (relative_path st) ->
  for_each rest (fun port =>
      excluded ← gets exclusion_list;
      if bool_decide (port ∉ excluded) then
        parent_path ← read (fun self => get_relative_path self recursion_limit port);
        id ← read (fun self => _get_resource_id self recursion_limit port);
        path ← read (fun self =>
                  _get_port_relative_path self recursion_limit
                    (parent_path +:+ "/" +:+ id));
        modify (fun self => set_relative_path (<[port := path]> (relative_path self)) self)
      else
        l ← read (fun self => Py.remove port (port_list self));
        modify (set_port_list l)) st = Ok (tt, st') ->
  exclusion_list st' = exclusion_list st
  /\ module_list st' = module_list st
  /\ port_list st' = kept (exclusion_list st) (done ++ rest)
  /\ distinct_addresses (kept (exclusion_list st) (done ++ rest)) (relative_path st')
  /\ (forall k, is_Some (relative_path st !! k) -> is_Some (relative_path st' !! k)).
Proof.
  revert done st. induction rest as [|x rest IH]; intros done st Hpl Hdist; simpl.
  - intros [= <-]. rewrite app_nil_r in *. done.
  - munfold. simpl. case_bool_decide as Hx.
    + destruct (get_relative_path st recursion_limit x) as [pp|]; [|done].
      destruct (_get_resource_id st recursion_limit x) as [id|]; [|done].
      destruct (_get_port_relative_path st recursion_limit (pp +:+ "/" +:+ id))
        as [path|] eqn:Hpath; [|done].
      apply _get_port_relative_path_free in Hpath.
      intros Hrest. apply (IH (done ++ [x])) in Hrest; simpl.
      * simpl in Hrest. rewrite <- app_assoc in Hrest.
        destruct Hrest as (? & ? & ? & ? & Hkeys). repeat split; try done.
        intros k Hk. apply Hkeys.
        destruct (decide (x = k)) as [->|Hne];
          [rewrite lookup_insert_eq|rewrite lookup_insert_ne by done]; eauto.
      * rewrite filter_snoc_out by done. by rewrite <- app_assoc.
      * rewrite filter_snoc_out by done. by apply distinct_addresses_insert.
    + rewrite Hpl, remove_filter by done.
      intros Hrest. apply (IH (done ++ [x])) in Hrest; simpl.
      * simpl in Hrest. by rewrite <- app_assoc in Hrest.
      * by rewrite filter_snoc_in.
      * by rewrite filter_snoc_in.
Qed.

End AddRelativePaths.

(** What [add_relative_paths] leaves behind. *)
Lemma add_relative_paths_spec (recursion_limit : nat) (st st' : autoload) :
  add_relative_paths recursion_limit st = Ok (tt, st') ->
  (forall p q a b,
     p ∈ port_list st' -> q ∈ port_list st' -> p <> q ->
     relative_path st' !! p = Some a -> relative_path st' !! q = Some b ->
     a <> b)
  /\ (forall n,
        n ∈ module_list st' \/ n ∈ port_list st' ->
        (n ∉ exclusion_list st')
        /\ exists a, relative_path st' !! n = Some a
                     /\ forall b, relative_path st' !! n = Some b -> b = a)
  /\ module_list st' = List.filter (fun y => bool_decide (y ∉ exclusion_list st)) (module_list st)
  /\ port_list st' = List.filter (fun y => bool_decide (y ∉ exclusion_list st)) (port_list st).
Proof.
  unfold add_relative_paths. munfold. simpl.
  match goal with |- context [for_each (module_list st) ?body st] =>
    destruct (for_each (module_list st) body st) as [[[] st1]|] eqn:Hm; [|done] end.
  intros Hp.
  apply (add_relative_paths_modules recursion_limit _ []) in Hm as (HE1 & HP1 & HM1 & Hpaths1);
    [|done|by intros m Hnil%elem_of_nil].
  apply (add_relative_paths_ports recursion_limit _ []) in Hp as (HE2 & HM2 & HP2 & Hdist & Hkeys);
    [|by rewrite HP1|by intros p Hnil%elem_of_nil].
  simpl in *. rewrite HE1 in *.
  assert (Hkept : forall (l : list Z) n,
            n ∈ List.filter (fun y => bool_decide (y ∉ exclusion_list st)) l ->
            n ∉ exclusion_list st).
  { intros l n [_ Hn]%list_elem_of_In%filter_In. by apply bool_decide_eq_true in Hn. }
  repeat split.
  - intros p q a b Hp Hq Hne Ha Hb. rewrite HP2 in Hp, Hq.
    destruct (Hdist p Hp) as [a' [Ha' Hother]].
    assert (a' = a) as -> by congruence. by apply not_eq_sym, (Hother q).
  - rewrite HE2. rewrite HM2, HM1, HP2 in H. destruct H; eauto.
  - rewrite HM2, HM1, HP2 in H.
    assert (Hsome : is_Some (relative_path st' !! n)).
    { destruct H as [H|H].
      - apply Hkeys, Hpaths1, H.
      - destruct (Hdist n H) as [a [Ha _]]. eauto. }
    destruct Hsome as [a Ha]. exists a. split; [done|]. congruence.
  - by rewrite HM2, HM1.
  - done.
Qed.

(** C1 (as the code has it): after [add_relative_paths] has run, two
    distinct ports it kept have different addresses, and every entry of
    the module list and of the port list it kept, that is every one
    outside the exclusion list, has exactly one entry in the relative-path
    mapping.  The method assigns addresses to the entries of these two
    lists only. *)
Theorem add_relative_paths_unique (recursion_limit : nat) (st st' : autoload) :
  add_relative_paths recursion_limit st = Ok (tt, st') ->
  (forall p q a b,
     p ∈ port_list st' -> q ∈ port_list st' -> p <> q ->
     relative_path st' !! p = Some a -> relative_path st' !! q = Some b ->
     a <> b)
  /\ (forall n,
        n ∈ module_list st' \/ n ∈ port_list st' ->
        (n ∉ exclusion_list st')
        /\ exists a, relative_path st' !! n = Some a
                     /\ forall b, relative_path st' !! n = Some b -> b = a)
  /\ module_list st' = List.filter (fun y => bool_decide (y ∉ exclusion_list st)) (module_list st)
  /\ port_list st' = List.filter (fun y => bool_decide (y ∉ exclusion_list st)) (port_list st).
Proof. apply add_relative_paths_spec. Qed.

Lemma add_relative_paths_unique_witness :
  exists st',
    add_relative_paths 1000 colliding_ports = Ok (tt, st')
    /\ (forall p q a b,
          p ∈ port_list st' -> q ∈ port_list st' -> p <> q ->
          relative_path st' !! p = Some a -> relative_path st' !! q = Some b ->
          a <> b).
Proof.
  destruct (add_relative_paths 1000 colliding_ports) as [[[] st']|] eqn:Hrun;
    [|by vm_compute in Hrun].
  exists st'. split; [done|].
  apply (add_relative_paths_unique 1000 colliding_ports st' Hrun).
Defined.

(** C1 fails as stated for a retained entry that is in neither list: in
    the run of [discover] on [three_module_device], module 22 carries no
    port, so [get_module_list] does not list it; it is in the table and not
    excluded, and it has no entry in the relative-path mapping. *)
Lemma unlisted_module_has_no_address :
  exists result final tb,
    discover three_module_device keeps_no_row 100 (mret tt) (mret tt) (mret tt) (mret tt)
      init = Ok (result, final)
    /\ entity_table final = Some tb
    /\ 22 ∈ QualiMibTable.keys tb
    /\ (22 ∉ exclusion_list final)
    /\ (22 ∉ module_list final)
    /\ ~ (exists a, relative_path final !! 22 = Some a).
Proof.
  do 3 eexists. split; [vm_compute; reflexivity|]. split; [reflexivity|].
  split; [apply (bool_decide_unpack _); by vm_compute|].
  split; [apply (bool_decide_unpack _); by vm_compute|].
  split; [apply (bool_decide_unpack _); by vm_compute|].
  by intros [a Ha].
Qed.

Example add_relative_paths_example :
  exists st',
    add_relative_paths 1000 colliding_ports = Ok (tt, st')
    /\ port_list st' = [3; 4]
    /\ relative_path st' !! 2 = Some "0/1"
    /\ relative_path st' !! 3 = Some "0/1/1"
    /\ relative_path st' !! 4 = Some "0/1/1001"
    /\ relative_path st' !! 5 = None.
Proof. eexists. split; [vm_compute; reflexivity|]. repeat split. Qed.

(** ** Sorting a table by a column *)

Lemma bind_Ok {A B} (a : A) (f : A -> result B) : (Ok a ≫= f) = f a.
Proof. reflexivity. Qed.

Lemma mapM_cons_eq {A B} (f : A -> result B) (x : A) (l : list A) :
  mapM f (x :: l) = y ← f x; k ← mapM f l; mret (y :: k).
Proof. reflexivity. Qed.

Lemma insert_by_key_perm {A} (x : Z * A) (l : list (Z * A)) :
  QualiMibTable.insert_by_key x l ≡ₚ x :: l.
Proof.
  induction l as [|y l IH]; simpl; [done|].
  destruct (x.1 <=? y.1); [done|]. rewrite IH. apply Permutation_swap.
Qed.

Lemma insert_by_key_sorted {A} (x : Z * A) (l : list (Z * A)) :
  Sorted (fun a b => a.1 <= b.1) l ->
  Sorted (fun a b => a.1 <= b.1) (QualiMibTable.insert_by_key x l).
Proof.
  induction l as [|y l IH]; simpl; intros Hs.
  - by repeat constructor.
  - destruct (Z.leb_spec x.1 y.1) as [Hle|Hgt].
    + constructor; [done|]. by constructor.
    + apply Sorted_inv in Hs as [Hs Hhd]. constructor; [by apply IH|].
      destruct l as [|z l]; simpl.
      * constructor. lia.
      * destruct (Z.leb_spec x.1 z.1); constructor; [lia|].
        by apply HdRel_inv in Hhd.
Qed.

Lemma mapM_keyed {A} (g : A -> result Z) (l : list A) (keyed : list (Z * A)) :
  mapM (fun x => n ← g x; Ok (n, x)) l = Ok keyed ->
  keyed.*2 = l /\ Forall (fun p => g p.2 = Ok p.1) keyed.
Proof.
  revert keyed. induction l as [|x l IH]; intros keyed.
  - by intros [= <-].
  - rewrite mapM_cons_eq. unfold mbind, mret, result_bind, result_ret.
    destruct (g x) as [n|] eqn:Hn; [|done].
    match goal with |- context [mapM ?f l] =>
      destruct (mapM f l) as [rest|] eqn:Hrest end; [|done].
    intros [= <-]. destruct (IH rest Hrest) as [<- Hall]. split; [done|]. by constructor.
Qed.

Lemma sort_by_column_spec (c : column) (tb sorted : QualiMibTable.t Z entity_row) :
  QualiMibTable.sort_by_column c tb = Ok sorted ->
  sorted ≡ₚ tb
  /\ exists positions, column_values c sorted = Ok positions
                       /\ Sorted Z.le positions.
Proof.
  unfold QualiMibTable.sort_by_column, column_values.
  match goal with |- context [mapM ?f tb] =>
    destruct (mapM f tb) as [keyed|] eqn:Hkeyed; [|done] end.
  intros [= <-].
  apply (mapM_keyed (fun kr => Py.int (cell c kr.2))) in Hkeyed as Hk.
  destruct Hk as [<- Hall].
  assert (Hperm : foldr QualiMibTable.insert_by_key [] keyed ≡ₚ keyed).
  { clear. induction keyed as [|x l IH]; simpl; [done|].
    by rewrite insert_by_key_perm, IH. }
  assert (Hsorted : Sorted (fun a b : Z * (Z * entity_row) => a.1 <= b.1)
                      (foldr QualiMibTable.insert_by_key [] keyed)).
  { clear. induction keyed as [|x l IH]; simpl; [constructor|].
    by apply insert_by_key_sorted. }
  split; [by rewrite Hperm|].
  exists (foldr QualiMibTable.insert_by_key [] keyed).*1.
  assert (Hall' : Forall (fun p => Py.int (cell c p.2.2) = Ok p.1)
                    (foldr QualiMibTable.insert_by_key [] keyed)).
  { by rewrite Hperm. }
  clear Hperm Hall. revert Hsorted Hall'.
  generalize (foldr QualiMibTable.insert_by_key [] keyed). clear.
  induction l as [|x l IH]; intros Hs Hall; [split; [done|constructor]|].
  apply Sorted_inv in Hs as [Hs Hhd]. inversion Hall as [|? ? Hx Hl]; subst.
  destruct (IH Hs Hl) as [Hvals Hsorted].
  rewrite fmap_cons, mapM_cons_eq, Hx, bind_Ok, Hvals, bind_Ok.
  split; [done|]. constructor; [done|].
  destruct l; constructor. by apply HdRel_inv in Hhd.
Qed.

(** ** Exclusion propagation *)

Lemma elem_of_rev {A} (x : A) (l : list A) : x ∈ rev l <-> x ∈ l.
Proof. by rewrite !list_elem_of_In, <- in_rev. Qed.

Lemma for_each_app {A} (l1 l2 : list A) (body : A -> M unit) (st st' : autoload) :
  for_each (l1 ++ l2) body st = Ok (tt, st') ->
  exists mid, for_each l1 body st = Ok (tt, mid) /\ for_each l2 body mid = Ok (tt, st').
Proof.
  revert st. induction l1 as [|x l1 IH]; intros st; simpl.
  - intros H. by exists st.
  - munfold. destruct (body x st) as [[[] st1]|]; [|done]. apply IH.
Qed.

Lemma _filter_entity_table_visit_spec (raw : QualiMibTable.t Z entity_row)
    (element : Z) (st st' : autoload) :
  _filter_entity_table_visit raw element st = Ok (tt, st') ->
  exists parent_id,
    parent_of st element = Ok parent_id
    /\ st' = if negb (QualiMibTable.mem parent_id raw)
                || bool_decide (parent_id ∈ exclusion_list st)
             then set_exclusion_list (exclusion_list st ++ [element]) st
             else st.
Proof.
  unfold _filter_entity_table_visit, parent_of, attr_of. munfold.
  destruct (entity_table st) as [tb|]; [|done]. simpl.
  destruct (QualiMibTable.get element tb) as [row|]; [|done]. simpl.
  destruct (Py.int (entPhysicalContainedIn row)) as [parent_id|]; [|done]. simpl.
  exists parent_id. split; [done|].
  destruct (negb (QualiMibTable.mem parent_id raw)
            || bool_decide (parent_id ∈ exclusion_list st)); congruence.
Qed.

Lemma _filter_entity_table_visit_grows raw element st st' :
  _filter_entity_table_visit raw element st = Ok (tt, st') ->
  entity_table st' = entity_table st
  /\ (forall x, x ∈ exclusion_list st -> x ∈ exclusion_list st')
  /\ (forall x, x ∈ exclusion_list st' -> x ∈ exclusion_list st \/ x = element).
Proof.
  intros Hv. apply _filter_entity_table_visit_spec in Hv as (p & _ & ->).
  destruct (negb (QualiMibTable.mem p raw) || bool_decide (p ∈ exclusion_list st));
    simpl; repeat split; try done; intros x; rewrite ?elem_of_app, ?list_elem_of_singleton; tauto.
Qed.

Lemma _filter_entity_table_loop_grows raw l st st' :
  for_each l (_filter_entity_table_visit raw) st = Ok (tt, st') ->
  entity_table st' = entity_table st
  /\ (forall x, x ∈ exclusion_list st -> x ∈ exclusion_list st')
  /\ (forall x, x ∈ exclusion_list st' -> x ∈ exclusion_list st \/ x ∈ l).
Proof.
  revert st. induction l as [|e l IH]; intros st; simpl.
  - intros [= <-]. repeat split; auto.
  - munfold. destruct (_filter_entity_table_visit raw e st) as [[[] st1]|] eqn:Hv; [|done].
    intros (Ht & Hmono & Hnew)%IH.
    apply _filter_entity_table_visit_grows in Hv as (Ht1 & Hmono1 & Hnew1).
    repeat split; [congruence|auto|].
    intros x [Hx|Hx]%Hnew; [|right; by right].
    destruct (Hnew1 x Hx) as [?| ->]; [by left|right; by left].
Qed.

Lemma parent_of_entity_table st st' element :
  entity_table st' = entity_table st -> parent_of st' element = parent_of st element.
Proof. unfold parent_of. by intros ->. Qed.

Lemma _filter_entity_table_loop_converged raw l st st' :
  converged raw st ->
  for_each l (_filter_entity_table_visit raw) st = Ok (tt, st') ->
  forall x, x ∈ exclusion_list st' -> x ∈ exclusion_list st.
Proof.
  intros Hconv. revert st'. induction l as [|e l IH] using rev_ind; intros st'.
  - by intros [= <-].
  - intros (mid & Hmid & Hlast)%for_each_app.
    assert (IHl : forall x, x ∈ exclusion_list mid -> x ∈ exclusion_list st)
      by by apply IH.
    apply _filter_entity_table_loop_grows in Hmid as (Ht & _ & _).
    simpl in Hlast. munfold.
    destruct (_filter_entity_table_visit raw e mid) as [[[] st1]|] eqn:Hv; [|done].
    injection Hlast as Hlast. subst st1.
    apply _filter_entity_table_visit_spec in Hv as (p & Hp & ->).
    rewrite (parent_of_entity_table _ _ _ Ht) in Hp.
    destruct (negb (QualiMibTable.mem p raw) || bool_decide (p ∈ exclusion_list mid)) eqn:Hc;
      [|done].
    simpl. intros x [Hx| ->%list_elem_of_singleton]%elem_of_app; [by apply IHl|].
    apply (Hconv e p); [done|].
    apply orb_prop in Hc as [Hc|Hc].
    + left. by apply negb_true_iff.
    + right. apply IHl. by apply bool_decide_eq_true in Hc.
Qed.

(** One pass of exclusion propagation on an object whose table is
    assigned: it visits the rows that [filter_by_column] keeps, in
    descending order of [entPhysicalParentRelPos]; it only adds to the
    exclusion list; a visited entry whose parent id is not in the table, or
    is in the exclusion list at the moment the entry is visited (in
    particular: was there before the pass), is in the exclusion list after
    the pass; and a pass over a converged state adds no new member. *)
Theorem exclusion_propagation_pass
    (filter_by_column_no_values :
       column -> QualiMibTable.t Z entity_row -> QualiMibTable.t Z entity_row)
    (raw : QualiMibTable.t Z entity_row) (st st' : autoload) :
  _filter_entity_table filter_by_column_no_values raw st = Ok (tt, st') ->
  exists sorted positions,
    QualiMibTable.sort_by_column ParentRelPos
      (filter_by_column_no_values ContainedIn raw) = Ok sorted
    /\ sorted ≡ₚ filter_by_column_no_values ContainedIn raw
    /\ column_values ParentRelPos sorted = Ok positions
    /\ Sorted Z.le positions
    /\ (forall x, x ∈ exclusion_list st -> x ∈ exclusion_list st')
    /\ (forall visited element later,
          rev (QualiMibTable.keys sorted) = visited ++ element :: later ->
          exists mid parent_id,
            for_each visited (_filter_entity_table_visit raw) st = Ok (tt, mid)
            /\ parent_of st element = Ok parent_id
            /\ (QualiMibTable.mem parent_id raw = false
                \/ parent_id ∈ exclusion_list mid ->
                element ∈ exclusion_list st'))
    /\ (forall element parent_id,
          element ∈ QualiMibTable.keys (filter_by_column_no_values ContainedIn raw) ->
          parent_of st element = Ok parent_id ->
          QualiMibTable.mem parent_id raw = false
          \/ parent_id ∈ exclusion_list st ->
          element ∈ exclusion_list st')
    /\ (converged raw st ->
        forall x, x ∈ exclusion_list st' -> x ∈ exclusion_list st).
Proof.
  unfold _filter_entity_table.
  unfold mbind at 1, M_bind, lift.
  destruct (QualiMibTable.sort_by_column ParentRelPos
              (filter_by_column_no_values ContainedIn raw)) as [sorted|] eqn:Hsort; [|done].
  intros Hloop.
  destruct (sort_by_column_spec _ _ _ Hsort) as (Hperm & positions & Hpos & Hsorted).
  assert (Hvisit : forall visited element later,
            rev (QualiMibTable.keys sorted) = visited ++ element :: later ->
            exists mid parent_id,
              for_each visited (_filter_entity_table_visit raw) st = Ok (tt, mid)
              /\ parent_of st element = Ok parent_id
              /\ (QualiMibTable.mem parent_id raw = false
                  \/ parent_id ∈ exclusion_list mid ->
                  element ∈ exclusion_list st')).
  { intros visited element later Hsplit. rewrite Hsplit in Hloop.
    apply for_each_app in Hloop as (mid & Hmid & Hrest).
    simpl in Hrest. unfold mbind at 1, M_bind in Hrest.
    destruct (_filter_entity_table_visit raw element mid) as [[[] st1]|] eqn:Hv; [|done].
    apply _filter_entity_table_loop_grows in Hrest as (_ & Hmono & _).
    pose proof (_filter_entity_table_loop_grows _ _ _ _ Hmid) as (Ht & _ & _).
    apply _filter_entity_table_visit_spec in Hv as (p & Hp & ->).
    rewrite (parent_of_entity_table _ _ _ Ht) in Hp.
    exists mid, p. repeat split; [done..|].
    intros Hbad. apply Hmono.
    assert (Hc : negb (QualiMibTable.mem p raw) || bool_decide (p ∈ exclusion_list mid) = true).
    { destruct Hbad as [->|Hin]; [done|]. rewrite (bool_decide_eq_true_2 _ Hin).
      apply orb_true_r. }
    rewrite Hc. simpl. apply elem_of_app. right. by apply list_elem_of_singleton. }
  exists sorted, positions. repeat split; try done.
  - by apply _filter_entity_table_loop_grows in Hloop as (_ & Hmono & _).
  - intros element p He Hp Hbad.
    assert (Hin : element ∈ rev (QualiMibTable.keys sorted)).
    { rewrite elem_of_rev. unfold QualiMibTable.keys in *. by rewrite Hperm. }
    apply list_elem_of_split in Hin as (visited & later & Hsplit).
    destruct (Hvisit _ _ _ Hsplit) as (mid & p' & Hmid & Hp' & Hex).
    assert (p' = p) as -> by congruence. apply Hex.
    destruct Hbad as [?|Hin]; [by left|right].
    by apply _filter_entity_table_loop_grows in Hmid as (_ & Hmono & _); apply Hmono.
  - intros Hconv.
    by apply (_filter_entity_table_loop_converged raw (rev (QualiMibTable.keys sorted))
                st st' Hconv).
Qed.

(** One pass is not a fixed point.  Take a module at
    position 1 whose parent 99 is missing, and a port at position 5 inside
    that module.  If the pass visits every row, it visits the port first
    and then excludes the module: afterwards the port's parent is excluded
    and the port is not, and a second pass adds the port.  If
    [filter_by_column] without values keeps no row, the pass visits nothing
    and the module, whose parent is missing, is not excluded. *)
Lemma exclusion_propagation_not_converged :
  (exists once twice,
     _filter_entity_table keeps_every_row orphan_module
       (set_entity_table (Some orphan_module) init) = Ok (tt, once)
     /\ _filter_entity_table keeps_every_row orphan_module once = Ok (tt, twice)
     /\ exclusion_list once = [2]
     /\ 3 ∈ QualiMibTable.keys orphan_module
     /\ parent_of once 3 = Ok 2
     /\ 2 ∈ exclusion_list once
     /\ (3 ∉ exclusion_list once)
     /\ 3 ∈ exclusion_list twice)
  /\ (exists once,
        _filter_entity_table keeps_no_row orphan_module
          (set_entity_table (Some orphan_module) init) = Ok (tt, once)
        /\ 2 ∈ QualiMibTable.keys orphan_module
        /\ parent_of once 2 = Ok 99
        /\ QualiMibTable.mem 99 orphan_module = false
        /\ exclusion_list once = []).
Proof.
  split.
  - do 2 eexists. split; [vm_compute; reflexivity|]. split; [vm_compute; reflexivity|].
    repeat split; try (vm_compute; reflexivity);
      apply (bool_decide_unpack _); by vm_compute.
  - eexists. split; [vm_compute; reflexivity|].
    repeat split; try (vm_compute; reflexivity);
      apply (bool_decide_unpack _); by vm_compute.
Qed.

Lemma exclusion_propagation_pass_witness :
  exists st',
    _filter_entity_table keeps_every_row orphan_module
      (set_entity_table (Some orphan_module) init) = Ok (tt, st')
    /\ 2 ∈ exclusion_list st'.
Proof.
  destruct (_filter_entity_table keeps_every_row orphan_module
              (set_entity_table (Some orphan_module) init)) as [[[] st']|] eqn:Hrun;
    [|by vm_compute in Hrun].
  exists st'. split; [done|].
  destruct (exclusion_propagation_pass _ _ _ _ Hrun)
    as (sorted & positions & _ & _ & _ & _ & _ & _ & Hmissing & _).
  apply (Hmissing 2 99); [simpl; constructor|reflexivity|by left].
Defined.

(** C3 (fails on the code): the docstring of [_filter_entity_table] has
    it filter out every element whose parent does not exist or is
    excluded.  Loading [orphan_device] on a fresh object, module 2 is
    retained and its parent 99 is not in the table: when the call of
    [filter_by_column] without values keeps no row the pass visits nothing
    and the module is not excluded, and [discover] then raises [KeyError]
    while it addresses the port inside the module; when the call keeps the
    rows the pass reads [self.entity_table] before it is assigned and the
    load raises [AttributeError]. *)
Theorem exclusion_propagation_misses_orphan :
  (exists loaded tb,
     _load_snmp_tables orphan_device keeps_no_row init = Ok (tt, loaded)
     /\ entity_table loaded = Some tb
     /\ 2 ∈ QualiMibTable.keys tb
     /\ parent_of loaded 2 = Ok 99
     /\ QualiMibTable.mem 99 tb = false
     /\ (2 ∉ exclusion_list loaded))
  /\ _load_snmp_tables orphan_device keeps_every_row init = Raise AttributeError
  /\ discover orphan_device keeps_no_row 1000 (mret tt) (mret tt) (mret tt) (mret tt) init
     = Raise KeyError.
Proof.
  split; [|split; vm_compute; reflexivity].
  do 2 eexists. split; [vm_compute; reflexivity|]. split; [reflexivity|].
  split; [apply (bool_decide_unpack _); by vm_compute|].
  split; [vm_compute; reflexivity|]. split; [vm_compute; reflexivity|].
  apply (bool_decide_unpack _). by vm_compute.
Qed.

Ltac destruct_match_in H :=
  match type of H with
  | context [match ?x with _ => _ end] =>
      lazymatch x with
      | context [match _ with _ => _ end] => fail
      | _ => destruct x eqn:?
      end
  end.

Ltac run_through H :=
  repeat (simpl in H; first [discriminate H | destruct_match_in H]).

Lemma _get_mapping_state (snmp : snmp_handler) (port_index : Z) (port_descr : string)
    (st st' : autoload) (port_id : option Z) :
  _get_mapping snmp port_index port_descr st = Ok (port_id, st') ->
  st' = set_snmp_log
          (snmp_log st ++ [Get "ENTITY-MIB" "entAliasMappingIdentifier" port_index]) st.
Proof.
  unfold _get_mapping. munfold. intros H. run_through H; by injection H as _ <-.
Qed.

Arguments _get_mapping : simpl never.
Arguments re_search : simpl never.
Arguments re_search_ignorecase : simpl never.

Lemma keys_set_item (k : Z) (r : entity_row) (tb : QualiMibTable.t Z entity_row) (x : Z) :
  x ∈ QualiMibTable.keys (QualiMibTable.set_item k r tb) ->
  x ∈ QualiMibTable.keys tb \/ x = k.
Proof.
  unfold QualiMibTable.keys. induction tb as [|[k' r'] tb IH]; simpl.
  - intros ->%list_elem_of_singleton. by right.
  - destruct (decide (k = k')) as [->|Hne]; simpl.
    + rewrite !elem_of_cons. tauto.
    + rewrite !elem_of_cons. intros [->|Hx]; [by left; left|].
      destruct (IH Hx); [left; by right|by right].
Qed.

Arguments QualiMibTable.keys : simpl never.
Arguments QualiMibTable.set_item : simpl never.

Lemma injective_mapping_insert (mapping : gmap Z Z) (index port_id : Z) :
  port_id ∉ dict_values mapping ->
  injective_mapping mapping ->
  injective_mapping (<[index := port_id]> mapping).
Proof.
  intros Hfree Hinj p q i Hp Hq.
  destruct (decide (p = index)) as [Hp'|Hp'], (decide (q = index)) as [Hq'|Hq'];
    subst; [done|..].
  - rewrite lookup_insert_eq in Hp. rewrite lookup_insert_ne in Hq by done.
    injection Hp as <-. destruct Hfree. rewrite elem_of_dict_values. eauto.
  - rewrite lookup_insert_eq in Hq. rewrite lookup_insert_ne in Hp by done.
    injection Hq as <-. destruct Hfree. rewrite elem_of_dict_values. eauto.
  - rewrite lookup_insert_ne in Hp by done. rewrite lookup_insert_ne in Hq by done. eauto.
Qed.

(** What one classified row does to the port list and the port mapping. *)
Lemma _get_entity_table_classified_ports (snmp : snmp_handler)
    (rd rd' : QualiMibTable.t Z entity_row) (index : Z) (temp : entity_row)
    (st st' : autoload) :
  _get_entity_table_classified snmp rd index temp st = Ok (rd', st') ->
  (port_list st' = port_list st /\ port_mapping st' = port_mapping st)
  \/ (exists port_id, (port_id ∉ dict_values (port_mapping st))
                      /\ port_list st' = port_list st ++ [index]
                      /\ port_mapping st' = <[index := port_id]> (port_mapping st)).
Proof.
  unfold _get_entity_table_classified. munfold. intros H.
  repeat (simpl in H;
          first [ discriminate H
                | match type of H with
                  | context [_get_mapping ?s ?i ?d ?st] =>
                      let E := fresh "E" in
                      destruct (_get_mapping s i d st) as [[? ?]|] eqn:E;
                      [apply _get_mapping_state in E; subst|]
                  end
                | destruct_match_in H ]);
    injection H as <- <-; simpl; auto.
  all: right; eexists; split; [|done].
  all: match goal with
       | E : _ && negb (bool_decide _) = true |- _ =>
           apply andb_prop in E as [_ Hfree];
           by apply negb_true_iff, bool_decide_eq_false in Hfree
       end.
Qed.

Lemma port_row_listing (snmp : snmp_handler)
    (rd rd' : QualiMibTable.t Z entity_row) (index : Z) (row : entity_row)
    (st st' : autoload) :
  entPhysicalClass row = "port" ->
  _get_entity_table_classified snmp rd index row st = Ok (rd', st') ->
  (forall port_id,
     port_accepted snmp st index row port_id ->
     port_list st' = port_list st ++ [index]
     /\ port_mapping st' = <[index := port_id]> (port_mapping st))
  /\ ((forall port_id, ~ port_accepted snmp st index row port_id) ->
      port_list st' = port_list st /\ port_mapping st' = port_mapping st).
Proof.
  intros Hclass. unfold _get_entity_table_classified, port_accepted. rewrite Hclass.
  destruct (decide ("port" = "chassis")) as [|_]; [done|].
  destruct (decide ("port" = "port")) as [_|]; [|done].
  unfold mret, M_ret. cbn beta zeta.
  destruct (re_search_ignorecase port_exclude_pattern (entPhysicalName row)) eqn:Hname;
    simpl; [intros [= <- <-]; split; [by intros ? [? _]|done]|].
  destruct (re_search_ignorecase port_exclude_pattern (entPhysicalDescr row)) eqn:Hdescr;
    simpl; [intros [= <- <-]; split; [by intros ? (_ & ? & _)|done]|].
  unfold mbind at 1, M_bind.
  destruct (_get_mapping snmp index (entPhysicalDescr row) st) as [[resolved st1]|] eqn:Hmap;
    [|intros [=]].
  pose proof (_get_mapping_state _ _ _ _ _ _ Hmap) as ->.
  destruct resolved as [port_id|];
    [|intros [= <- <-]; split; [by intros ? (_ & _ & [? [=]] & _)|done]].
  destruct (decide (port_id = 0)) as [->|Hnz];
    [intros [= <- <-]; split; [|done];
     intros ? (_ & _ & [? [= <-]] & ? & _); done|].
  munfold. simpl.
  destruct (if_table st) as [tb|] eqn:Htb; [|intros [=]].
  unfold QualiMibTable.mem.
  destruct (bool_decide (port_id ∈ QualiMibTable.keys tb)) eqn:Hkey; simpl;
    [|intros [= <- <-]; split; [|done];
      intros ? (_ & _ & [? [= <-]] & _ & [? [[= <-] Hin]] & _);
      by rewrite (bool_decide_eq_true_2 _ Hin) in Hkey].
  destruct (bool_decide (port_id ∈ dict_values (port_mapping st))) eqn:Hclaimed; simpl;
    [intros [= <- <-]; split; [|done];
     intros ? (_ & _ & [? [= <-]] & _ & _ & Hfree);
     by apply bool_decide_eq_true in Hclaimed|].
  intros [= <- <-]. simpl. split.
  - by intros ? (_ & _ & [? [= <-]] & _).
  - intros Hnone. destruct (Hnone port_id). repeat split; eauto.
    + exists tb. split; [done|]. by apply bool_decide_eq_true in Hkey.
    + by apply bool_decide_eq_false in Hclaimed.
Qed.

Ltac classified_cases H :=
  unfold _get_entity_table_classified in H; munfold;
  repeat (simpl in H;
          first [ discriminate H
                | match type of H with
                  | context [_get_mapping ?s ?i ?d ?st] =>
                      let E := fresh "E" in
                      destruct (_get_mapping s i d st) as [[? ?]|] eqn:E;
                      [apply _get_mapping_state in E; subst|]
                  end
                | destruct_match_in H ]);
  injection H as <- <-; simpl.

(** The part of the state a row of the inventory can touch. *)
Lemma _get_entity_table_classified_effect (snmp : snmp_handler)
    (rd rd' : QualiMibTable.t Z entity_row) (index : Z) (temp : entity_row)
    (st st' : autoload) :
  _get_entity_table_classified snmp rd index temp st = Ok (rd', st') ->
  exclusion_list st' = exclusion_list st
  /\ (exists new, snmp_log st' = snmp_log st ++ new
                  /\ forall q, q ∈ new -> query_index q = Some index)
  /\ (forall k, k ∈ QualiMibTable.keys rd' -> k ∈ QualiMibTable.keys rd \/ k = index)
  /\ (injective_mapping (port_mapping st) -> injective_mapping (port_mapping st'))
  /\ if_table st' = if_table st
  /\ entity_table st' = entity_table st.
Proof.
  intros H.
  assert (Hports := _get_entity_table_classified_ports _ _ _ _ _ _ _ H).
  split; [|split; [|split; [|split]]].
  - by classified_cases H.
  - classified_cases H;
      first [ exists []; split; [by rewrite app_nil_r|by intros ? ?%elem_of_nil]
            | eexists; split; [reflexivity|];
              by intros ? ->%list_elem_of_singleton ].
  - classified_cases H; intros k Hk; first [by left | by apply keys_set_item in Hk].
  - destruct Hports as [[_ ->]|(pid & Hfree & _ & ->)]; [done|].
    by apply injective_mapping_insert.
  - by classified_cases H.
Qed.

Arguments _get_entity_table_classified : simpl never.

Lemma _get_entity_table_row_empty (snmp : snmp_handler)
    (rd : QualiMibTable.t Z entity_row) (index : Z) (st : autoload) :
  _get_entity_table_row snmp rd (index, "") st
  = Ok (rd, set_exclusion_list (exclusion_list st ++ [index]) st).
Proof. reflexivity. Qed.

Lemma _get_entity_table_row_effect (snmp : snmp_handler)
    (rd rd' : QualiMibTable.t Z entity_row) (entry : Z * string)
    (st st' : autoload) :
  _get_entity_table_row snmp rd entry st = Ok (rd', st') ->
  (forall x, x ∈ exclusion_list st -> x ∈ exclusion_list st')
  /\ (exists new, snmp_log st' = snmp_log st ++ new
                  /\ (entry.2 = "" -> new = [])
                  /\ forall q, q ∈ new -> query_index q = Some entry.1)
  /\ (forall k, k ∈ QualiMibTable.keys rd' ->
        k ∈ QualiMibTable.keys rd \/ (k = entry.1 /\ entry.2 <> ""))
  /\ (injective_mapping (port_mapping st) -> injective_mapping (port_mapping st'))
  /\ if_table st' = if_table st
  /\ entity_table st' = entity_table st.
Proof.
  destruct entry as [index pos]. unfold _get_entity_table_row, snmp_get_property.
  munfold. intros H.
  repeat (simpl in H;
          first [ discriminate H
                | match type of H with
                  | context [_get_entity_table_classified ?s ?r ?i ?t ?st] =>
                      let E := fresh "E" in
                      destruct (_get_entity_table_classified s r i t st) as [[? ?]|] eqn:E;
                      [apply _get_entity_table_classified_effect in E;
                       destruct E as (? & (? & ? & ?) & ? & ? & ? & ?)|]
                  end
                | destruct_match_in H ]);
    injection H as <- <-; simpl in *.
  all: repeat split; try congruence; auto.
  all: try (intros x Hx; rewrite ?elem_of_app; auto; fail).
  all: try (intros x Hx; repeat match goal with E : exclusion_list _ = _ |- _ => rewrite E end;
            simpl; rewrite ?elem_of_app; auto; fail).
  all: try (intros k Hk; by left).
  all: try (intros k Hk;
            match goal with Hkeys : (forall k : Z, @?P k) |- _ =>
              destruct (Hkeys k Hk) as [?| ->]; [by left|right; by split] end).
  all: try (exists []; rewrite app_nil_r; repeat split; try done;
            by intros ? ?%elem_of_nil).
  all: try (rewrite <- ?app_assoc; eexists; split; [reflexivity|]; split; [done|];
            intros q Hq; repeat (apply elem_of_cons in Hq as [->|Hq]; [done|]);
            by apply elem_of_nil in Hq).
  all: try (match goal with Hlog : snmp_log _ = _ ++ ?new |- _ =>
              rewrite Hlog; simpl; rewrite <- ?app_assoc; eexists; split; [reflexivity|];
              split; [done|];
              intros q Hq; repeat (apply elem_of_app in Hq as [Hq|Hq]);
              repeat (apply elem_of_cons in Hq as [->|Hq]; [done|]);
              first [by apply elem_of_nil in Hq | auto]
            end).
Qed.

Lemma _get_entity_table_loop_effect (snmp : snmp_handler)
    (rows : QualiMibTable.t Z string) (rd rd' : QualiMibTable.t Z entity_row)
    (st st' : autoload) :
  fold_each rows rd (_get_entity_table_row snmp) st = Ok (rd', st') ->
  (forall x, x ∈ exclusion_list st -> x ∈ exclusion_list st')
  /\ (forall index, (index, "") ∈ rows -> index ∈ exclusion_list st')
  /\ (exists new, snmp_log st' = snmp_log st ++ new
                  /\ forall q, q ∈ new ->
                       exists index pos, query_index q = Some index
                                         /\ (index, pos) ∈ rows /\ pos <> "")
  /\ (forall k, k ∈ QualiMibTable.keys rd' ->
        k ∈ QualiMibTable.keys rd \/ exists pos, (k, pos) ∈ rows /\ pos <> "")
  /\ (injective_mapping (port_mapping st) -> injective_mapping (port_mapping st'))
  /\ if_table st' = if_table st
  /\ entity_table st' = entity_table st.
Proof.
  revert rd st. induction rows as [|entry rows IH]; intros rd st; simpl.
  - intros [= <- <-]. repeat split; auto.
    + by intros ? ?%elem_of_nil.
    + exists []. split; [by rewrite app_nil_r|]. by intros ? ?%elem_of_nil.
  - munfold.
    destruct (_get_entity_table_row snmp rd entry st) as [[rd1 st1]|] eqn:Hrow; [|done].
    intros (Hmono & Hempty & (new & Hlog & Hnew) & Hkeys & Hinj & Hif & Hent)%IH.
    pose proof (_get_entity_table_row_effect _ _ _ _ _ _ Hrow)
      as (Hmono1 & (new1 & Hlog1 & Hnil1 & Hnew1) & Hkeys1 & Hinj1 & Hif1 & Hent1).
    repeat split; [auto| | | |auto|congruence|congruence].
    + intros index [<-|Hin]%elem_of_cons; [|by apply Hempty].
      apply Hmono. rewrite _get_entity_table_row_empty in Hrow.
      injection Hrow as _ <-. simpl. apply elem_of_app. right. by apply list_elem_of_singleton.
    + exists (new1 ++ new). split; [by rewrite Hlog, Hlog1, app_assoc|].
      intros q [Hq|Hq]%elem_of_app.
      * exists entry.1, entry.2. split; [by apply Hnew1|]. split.
        -- destruct entry. by left.
        -- intros Hpos. rewrite (Hnil1 Hpos) in Hq. by apply elem_of_nil in Hq.
      * destruct (Hnew q Hq) as (index & pos & ? & ? & ?). exists index, pos.
        repeat split; try done. by right.
    + intros k Hk. destruct (Hkeys k Hk) as [Hk1|(pos & ? & ?)].
      * destruct (Hkeys1 k Hk1) as [?|[-> ?]]; [by left|right].
        exists entry.2. split; [|done]. destruct entry. by left.
      * right. exists pos. split; [by right|done].
Qed.

Lemma _filter_entity_table_frame
    (filter_by_column_no_values :
       column -> QualiMibTable.t Z entity_row -> QualiMibTable.t Z entity_row)
    (raw : QualiMibTable.t Z entity_row) (st st' : autoload) :
  _filter_entity_table filter_by_column_no_values raw st = Ok (tt, st') ->
  (forall x, x ∈ exclusion_list st -> x ∈ exclusion_list st')
  /\ snmp_log st' = snmp_log st
  /\ port_mapping st' = port_mapping st
  /\ port_list st' = port_list st.
Proof.
  unfold _filter_entity_table. unfold mbind at 1, M_bind, lift.
  destruct (QualiMibTable.sort_by_column _ _) as [sorted|]; [|done].
  generalize (rev (QualiMibTable.keys sorted)). intros l. revert st.
  induction l as [|e l IH]; intros st; simpl.
  - by intros [= <-].
  - munfold. destruct (_filter_entity_table_visit raw e st) as [[[] st1]|] eqn:Hv; [|done].
    intros (? & ? & ? & ?)%IH.
    apply _filter_entity_table_visit_spec in Hv as (p & _ & ->).
    destruct (negb (QualiMibTable.mem p raw) || bool_decide (p ∈ exclusion_list st));
      simpl in *; repeat split; try done.
    intros x Hx. apply H. apply elem_of_app. by left.
Qed.

Lemma _get_entity_table_effect (snmp : snmp_handler)
    (filter_by_column_no_values :
       column -> QualiMibTable.t Z entity_row -> QualiMibTable.t Z entity_row)
    (tb : QualiMibTable.t Z entity_row) (st st' : autoload) :
  _get_entity_table snmp filter_by_column_no_values st = Ok (tb, st') ->
  (forall index, (index, "") ∈ snmp_entPhysicalParentRelPos snmp ->
     index ∈ exclusion_list st')
  /\ (exists new, snmp_log st' = snmp_log st ++ new
                  /\ forall q index, q ∈ new -> query_index q = Some index ->
                       exists pos, (index, pos) ∈ snmp_entPhysicalParentRelPos snmp
                                   /\ pos <> "")
  /\ (forall k, k ∈ QualiMibTable.keys tb ->
        exists pos, (k, pos) ∈ snmp_entPhysicalParentRelPos snmp /\ pos <> "")
  /\ (injective_mapping (port_mapping st) -> injective_mapping (port_mapping st')).
Proof.
  unfold _get_entity_table. munfold. simpl.
  destruct (fold_each _ _ _ _) as [[rd st1]|] eqn:Hloop; [|done].
  destruct (_filter_entity_table _ rd st1) as [[[] st2]|] eqn:Hfilter; [|done].
  intros [= <- <-].
  apply _get_entity_table_loop_effect in Hloop
    as (_ & Hempty & (new & Hlog & Hnew) & Hkeys & Hinj & _).
  apply _filter_entity_table_frame in Hfilter as (Hmono & Hlog2 & Hmap & _).
  simpl in *. repeat split.
  - intros index Hin. by apply Hmono, Hempty.
  - exists (GetTable "ENTITY-MIB" "entPhysicalParentRelPos" :: new).
    split; [by rewrite Hlog2, Hlog, <- app_assoc|].
    intros q index [->|Hq]%elem_of_cons Hidx; [done|].
    destruct (Hnew q Hq) as (i & pos & Hi & ? & ?).
    assert (i = index) as -> by congruence. eauto.
  - intros k Hk. destruct (Hkeys k Hk) as [Hnil|?]; [|done].
    by apply elem_of_nil in Hnil.
  - rewrite Hmap. apply Hinj.
Qed.

(** C7: a row whose [entPhysicalParentRelPos] is the empty string is put
    on the exclusion list and nothing else happens for it: processing the
    row changes nothing but the exclusion list (no property is fetched, no
    class is inferred, no list or table entry is made); after the whole
    table is loaded the index is still excluded, is no key of the entity
    table, and no query of the run is about it. *)
Theorem empty_position_excluded (snmp : snmp_handler) :
  (forall rd index st,
     _get_entity_table_row snmp rd (index, "") st
     = Ok (rd, set_exclusion_list (exclusion_list st ++ [index]) st))
  /\ (forall filter_by_column_no_values st tb st' index,
        _get_entity_table snmp filter_by_column_no_values st = Ok (tb, st') ->
        NoDup (QualiMibTable.keys (snmp_entPhysicalParentRelPos snmp)) ->
        (index, "") ∈ snmp_entPhysicalParentRelPos snmp ->
        index ∈ exclusion_list st'
        /\ (index ∉ QualiMibTable.keys tb)
        /\ exists new, snmp_log st' = snmp_log st ++ new
                       /\ forall q, q ∈ new -> query_index q <> Some index).
Proof.
  split; [reflexivity|].
  intros keep st tb st' index Hrun Hnodup Hin.
  assert (Hunique : forall pos, (index, pos) ∈ snmp_entPhysicalParentRelPos snmp -> pos = "").
  { intros pos Hpos. revert Hnodup Hin Hpos. unfold QualiMibTable.keys.
    generalize (snmp_entPhysicalParentRelPos snmp). intros rows.
    induction rows as [|[i p] rows IH]; simpl; [by intros _ ?%elem_of_nil|].
    intros [Hi Hnd]%NoDup_cons [Heq|Hin]%elem_of_cons [Heq'|Hpos]%elem_of_cons.
    - congruence.
    - injection Heq as <- <-. destruct Hi. apply list_elem_of_fmap. by exists (index, pos).
    - injection Heq' as <- <-. destruct Hi. apply list_elem_of_fmap. by exists (index, "").
    - by apply IH. }
  apply _get_entity_table_effect in Hrun as (Hempty & (new & Hlog & Hnew) & Hkeys & _).
  split; [by apply Hempty|]. split.
  - intros Hk. destruct (Hkeys index Hk) as (pos & Hpos & Hne). by apply Hne, Hunique.
  - exists new. split; [done|]. intros q Hq Hidx.
    destruct (Hnew q index Hq Hidx) as (pos & Hpos & Hne). by apply Hne, Hunique.
Qed.

Lemma empty_position_excluded_witness :
  exists tb st',
    _get_entity_table fan_device keeps_no_row init = Ok (tb, st')
    /\ 7 ∈ exclusion_list st'
    /\ (7 ∉ QualiMibTable.keys tb)
    /\ exists new, snmp_log st' = snmp_log init ++ new
                   /\ forall q, q ∈ new -> query_index q <> Some 7.
Proof.
  destruct (_get_entity_table fan_device keeps_no_row init) as [[tb st']|] eqn:Hrun;
    [|by vm_compute in Hrun].
  exists tb, st'. split; [done|].
  apply (proj2 (empty_position_excluded fan_device) keeps_no_row init tb st' 7 Hrun).
  - apply (bool_decide_unpack _). by vm_compute.
  - apply (bool_decide_unpack _). by vm_compute.
Defined.

Example empty_position_excluded_example :
  exists st',
    _get_entity_table fan_device keeps_no_row init = Ok ([], st')
    /\ exclusion_list st' = [7]
    /\ snmp_log st'
       = [GetTable "ENTITY-MIB" "entPhysicalParentRelPos";
          GetProperties "ENTITY-MIB" 8
            ["entPhysicalContainedIn"; "entPhysicalClass"; "entPhysicalVendorType"]].
Proof. eexists. split; [vm_compute; reflexivity|]. by split. Qed.

Lemma other_row_listing (snmp : snmp_handler)
    (rd rd' : QualiMibTable.t Z entity_row) (index : Z) (row : entity_row)
    (st st' : autoload) :
  entPhysicalClass row <> "port" ->
  _get_entity_table_classified snmp rd index row st = Ok (rd', st') ->
  port_list st' = port_list st /\ port_mapping st' = port_mapping st.
Proof.
  intros Hclass H. unfold _get_entity_table_classified in H. munfold.
  destruct (decide (entPhysicalClass row = "chassis")); [by injection H as _ <-|].
  destruct (decide (entPhysicalClass row = "port")); [done|].
  destruct (decide (entPhysicalClass row = "powerSupply")); by injection H as _ <-.
Qed.

Ltac destruct_match_goal :=
  match goal with
  | |- context [match ?x with _ => _ end] =>
      lazymatch x with
      | context [match _ with _ => _ end] => fail
      | _ => destruct x eqn:?
      end
  end.

Lemma _get_mapping_if_table (snmp : snmp_handler) (index : Z) (descr : string)
    (s1 s2 : autoload) :
  if_table s1 = if_table s2 ->
  match _get_mapping snmp index descr s1, _get_mapping snmp index descr s2 with
  | Ok (r1, _), Ok (r2, _) => r1 = r2
  | Raise _, Raise _ => True
  | _, _ => False
  end.
Proof.
  intros Hif. unfold _get_mapping. munfold.
  repeat (cbn; rewrite ?Hif; first [done | destruct_match_goal]).
Qed.

Lemma port_claim_if_table (snmp : snmp_handler) (s1 s2 : autoload) (entry : Z * string) :
  if_table s1 = if_table s2 -> port_claim snmp s1 entry = port_claim snmp s2 entry.
Proof.
  intros Hif. unfold port_claim. rewrite Hif.
  destruct (classified_row snmp entry) as [row|]; [|done].
  destruct (decide _); [|done]. destruct (_ && _); [|done].
  pose proof (_get_mapping_if_table snmp entry.1 (entPhysicalDescr row) s1 s2 Hif) as H.
  destruct (_get_mapping snmp entry.1 (entPhysicalDescr row) s1) as [[r1 ?]|],
           (_get_mapping snmp entry.1 (entPhysicalDescr row) s2) as [[r2 ?]|];
    try done. by subst.
Qed.

Lemma port_claim_offer (snmp : snmp_handler) (self : autoload) (entry : Z * string)
    (port_id : Z) :
  port_claim snmp self entry = Some port_id <-> port_offer snmp self entry port_id.
Proof.
  unfold port_claim, port_offer. split.
  - destruct (classified_row snmp entry) as [row|]; [|done].
    destruct (decide _) as [Hclass|]; [|done].
    destruct (negb _ && negb _) eqn:Hpattern; [|done].
    apply andb_prop in Hpattern as [Hname%negb_true_iff Hdescr%negb_true_iff].
    destruct (_get_mapping snmp entry.1 (entPhysicalDescr row) self)
      as [[[p|] self']|] eqn:Hmap; [|done..].
    destruct (bool_decide (p ≠ 0) && _) eqn:Hok; [|done]. intros [= ->].
    apply andb_prop in Hok as [Hnz%bool_decide_eq_true Hmem].
    exists row. do 4 (split; [done|]). split; [by exists self'|]. split; [done|].
    destruct (if_table self) as [tb|]; [|done]. exists tb. split; [done|].
    by apply bool_decide_eq_true in Hmem.
  - intros (row & -> & Hclass & Hname & Hdescr & [self' Hmap] & Hnz & tb & Htb & Hin).
    rewrite decide_True by done. rewrite Hname, Hdescr, Hmap, Htb. simpl.
    rewrite bool_decide_eq_true_2 by done. simpl.
    unfold QualiMibTable.mem. by rewrite bool_decide_eq_true_2.
Qed.

Lemma _get_entity_table_classified_claim (snmp : snmp_handler)
    (rd rd' : QualiMibTable.t Z entity_row) (index : Z) (pos : string) (row : entity_row)
    (st st' : autoload) :
  classified_row snmp (index, pos) = Some row ->
  _get_entity_table_classified snmp rd index row st = Ok (rd', st') ->
  if_table st' = if_table st
  /\ match port_claim snmp st (index, pos) with
     | Some port_id =>
         if bool_decide (port_id ∈ dict_values (port_mapping st))
         then port_list st' = port_list st /\ port_mapping st' = port_mapping st
         else port_list st' = port_list st ++ [index]
              /\ port_mapping st' = <[index := port_id]> (port_mapping st)
     | None => port_list st' = port_list st /\ port_mapping st' = port_mapping st
     end.
Proof.
  intros Hrow Hrun.
  split; [by apply _get_entity_table_classified_effect in Hrun as (_ & _ & _ & _ & ? & _)|].
  destruct (decide (entPhysicalClass row = "port")) as [Hclass|Hclass].
  - destruct (port_row_listing _ _ _ _ _ _ _ Hclass Hrun) as [Hyes Hno].
    destruct (port_claim snmp st (index, pos)) as [port_id|] eqn:Hclaim.
    + apply port_claim_offer in Hclaim
        as (row' & Hrow' & _ & Hname & Hdescr & Hmap & Hnz & Htb).
      assert (row' = row) as -> by congruence.
      case_bool_decide as Hclaimed.
      * apply Hno. intros p (_ & _ & [s1 Hmap1] & _ & _ & Hfree).
        destruct Hmap as [s2 Hmap]. simpl in Hmap. congruence.
      * by apply Hyes.
    + apply Hno. intros p (Hname & Hdescr & Hmap & Hnz & Htb & _).
      assert (port_claim snmp st (index, pos) = Some p) as Hsome; [|congruence].
      apply port_claim_offer. by exists row.
  - assert (port_claim snmp st (index, pos) = None) as ->.
    { unfold port_claim. rewrite Hrow. by rewrite decide_False. }
    by apply (other_row_listing _ _ _ _ _ _ _ Hclass Hrun).
Qed.

Lemma _get_entity_table_row_classified (snmp : snmp_handler)
    (rd rd' : QualiMibTable.t Z entity_row) (index : Z) (pos : string)
    (st st' : autoload) :
  _get_entity_table_row snmp rd (index, pos) st = Ok (rd', st') ->
  exists s1,
    match classified_row snmp (index, pos) with
    | Some row => _get_entity_table_classified snmp rd index row s1 = Ok (rd', st')
    | None => st' = s1
    end
    /\ port_list s1 = port_list st /\ port_mapping s1 = port_mapping st
    /\ if_table s1 = if_table st.
Proof.
  unfold _get_entity_table_row, classified_row, snmp_get_property. munfold. simpl.
  destruct (decide (pos = "")) as [->|Hpos]; simpl.
  { intros [= <- <-]. eexists. by split; [reflexivity|]. }
  destruct (decide (snmp_property snmp "ENTITY-MIB" "entPhysicalContainedIn" index = ""))
    as [Hc|Hc]; simpl.
  { rewrite decide_True by (by rewrite Hc). simpl. intros [= <- <-].
    eexists. by split; [reflexivity|]. }
  rewrite decide_False by congruence. simpl.
  match goal with |- context [contains "alarm" ?v || ?rest] =>
    destruct (contains "alarm" v || rest) eqn:Hb end; simpl.
  { intros [= <- <-]. eexists. by split; [reflexivity|]. }
  destruct (decide (snmp_property snmp "ENTITY-MIB" "entPhysicalClass" index = ""))
    as [Hclass|Hclass]; simpl.
  - rewrite Hclass.
    destruct (decide (snmp_property snmp "ENTITY-MIB" "entPhysicalVendorType" index = ""))
      as [Hv|Hv]; simpl.
    { intros [= <- <-]. eexists. by split; [reflexivity|]. }
    destruct (contains "cevcontainer" _); simpl;
      [intros H; eexists; by split; [exact H|]|].
    destruct (contains "cevchassis" _); simpl;
      [intros H; eexists; by split; [exact H|]|].
    destruct (contains "cevmodule" _); simpl;
      [intros H; eexists; by split; [exact H|]|].
    destruct (contains "cevport" _); simpl;
      [intros H; eexists; by split; [exact H|]|].
    destruct (contains "cevpowersupply" _); simpl;
      [intros H; eexists; by split; [exact H|]|].
    intros H. eexists. by split; [exact H|].
  - intros H. eexists. by split; [exact H|].
Qed.

Lemma _get_entity_table_row_claim (snmp : snmp_handler)
    (rd rd' : QualiMibTable.t Z entity_row) (entry : Z * string)
    (st st' : autoload) :
  _get_entity_table_row snmp rd entry st = Ok (rd', st') ->
  if_table st' = if_table st
  /\ port_list st' = port_list st ++ (first_claims (port_mapping st)
                                        [(entry.1, port_claim snmp st entry)]).*1
  /\ port_mapping st'
     = claim_all (port_mapping st)
         (first_claims (port_mapping st) [(entry.1, port_claim snmp st entry)]).
Proof.
  destruct entry as [index pos].
  intros H. apply _get_entity_table_row_classified in H
    as (s1 & Hrun & Hlist & Hmapping & Hif).
  rewrite <- (port_claim_if_table snmp s1 st (index, pos) Hif), <- Hlist, <- Hmapping, <- Hif.
  clear Hlist Hmapping Hif. simpl.
  destruct (classified_row snmp (index, pos)) as [row|] eqn:Hrow.
  - apply (_get_entity_table_classified_claim _ _ _ _ pos _ _ _ Hrow) in Hrun
      as [Hif Hrun].
    split; [done|].
    destruct (port_claim snmp s1 (index, pos)) as [port_id|].
    + destruct (bool_decide _); destruct Hrun as [-> ->]; simpl; by rewrite ?app_nil_r.
    + destruct Hrun as [-> ->]. simpl. by rewrite app_nil_r.
  - subst st'. assert (port_claim snmp s1 (index, pos) = None) as ->
      by (unfold port_claim; by rewrite Hrow).
    simpl. by rewrite app_nil_r.
Qed.

Lemma first_claims_app (mapping : gmap Z Z) (l1 l2 : list (Z * option Z)) :
  first_claims mapping (l1 ++ l2)
  = first_claims mapping l1
    ++ first_claims (claim_all mapping (first_claims mapping l1)) l2.
Proof.
  revert mapping. induction l1 as [|[index [port_id|]] l1 IH]; intros mapping; simpl.
  - done.
  - destruct (bool_decide _); [apply IH|]. simpl. by rewrite IH.
  - apply IH.
Qed.

Lemma claim_all_app (mapping : gmap Z Z) (l1 l2 : list (Z * Z)) :
  claim_all mapping (l1 ++ l2) = claim_all (claim_all mapping l1) l2.
Proof. unfold claim_all. by rewrite fold_left_app. Qed.

Lemma _get_entity_table_loop_claims (snmp : snmp_handler)
    (rows : QualiMibTable.t Z string) (rd rd' : QualiMibTable.t Z entity_row)
    (st0 st st' : autoload) :
  if_table st = if_table st0 ->
  fold_each rows rd (_get_entity_table_row snmp) st = Ok (rd', st') ->
  let listed :=
    first_claims (port_mapping st)
      (List.map (fun entry => (entry.1, port_claim snmp st0 entry)) rows) in
  port_list st' = port_list st ++ listed.*1
  /\ port_mapping st' = claim_all (port_mapping st) listed.
Proof.
  revert rd st. induction rows as [|entry rows IH]; intros rd st Hif H; cbv zeta.
  - simpl in H. injection H as <- <-. simpl. by rewrite app_nil_r.
  - simpl in H. munfold.
    destruct (_get_entity_table_row snmp rd entry st) as [[rd1 st1]|] eqn:Hrow; [|done].
    apply _get_entity_table_row_claim in Hrow as (Hif1 & Hlist1 & Hmapping1).
    apply IH in H as [Hlist Hmapping]; [|congruence].
    rewrite (port_claim_if_table snmp st st0 entry Hif) in Hlist1, Hmapping1.
    assert (List.map (fun entry => (entry.1, port_claim snmp st0 entry)) (entry :: rows)
            = [(entry.1, port_claim snmp st0 entry)]
              ++ List.map (fun entry => (entry.1, port_claim snmp st0 entry)) rows) as ->
      by reflexivity.
    rewrite first_claims_app, fmap_app, claim_all_app, <- Hmapping1.
    split; [by rewrite Hlist, Hlist1, app_assoc|done].
Qed.

Lemma first_claims_keys (mapping : gmap Z Z) (claims : list (Z * option Z)) :
  (first_claims mapping claims).*1 `sublist_of` claims.*1.
Proof.
  revert mapping. induction claims as [|[index [port_id|]] claims IH]; intros mapping; simpl.
  - done.
  - destruct (bool_decide _); simpl.
    + by apply sublist_cons.
    + by apply sublist_skip.
  - by apply sublist_cons.
Qed.

Lemma first_claims_spec (mapping : gmap Z Z) (claims : list (Z * option Z))
    (index port_id : Z) :
  NoDup claims.*1 ->
  (forall i, i ∈ claims.*1 -> mapping !! i = None) ->
  (index, port_id) ∈ first_claims mapping claims <->
  exists before after,
    claims = before ++ (index, Some port_id) :: after
    /\ (port_id ∉ dict_values mapping)
    /\ forall e, e ∈ before -> e.2 <> Some port_id.
Proof.
  revert mapping. induction claims as [|[j [q|]] claims IH]; intros mapping Hnd Hfresh.
  - simpl. split; [by intros ?%elem_of_nil|].
    intros (before & after & H & _). by destruct before.
  - apply NoDup_cons in Hnd as [Hj Hnd]. simpl.
    assert (forall i, i ∈ claims.*1 -> mapping !! i = None) as Hfresh'
      by (intros i Hi; apply Hfresh; by right).
    case_bool_decide as Hq.
    + rewrite (IH mapping Hnd Hfresh'). split.
      * intros (before & after & -> & Hp & Hbefore).
        exists ((j, Some q) :: before), after. split; [done|]. split; [done|].
        intros e [->|He]%elem_of_cons; [|by apply Hbefore]. simpl. congruence.
      * intros ([|e before] & after & Heq & Hp & Hbefore); simpl in Heq; simplify_eq;
          [done|].
        exists before, after. split; [done|]. split; [done|].
        intros e He. apply Hbefore. by right.
    + rewrite elem_of_cons. rewrite (IH (<[j := q]> mapping) Hnd).
      2:{ intros i Hi. rewrite lookup_insert_ne; [by apply Hfresh'|]. by intros ->. }
      split.
      * intros [[= -> ->]|(before & after & -> & Hp & Hbefore)].
        { exists [], claims. split; [done|]. split; [done|]. by intros e ?%elem_of_nil. }
        exists ((j, Some q) :: before), after. split; [done|].
        assert (port_id <> q) as Hne.
        { intros ->. apply Hp, elem_of_dict_values_insert_eq. }
        split.
        -- intros [k Hk]%elem_of_dict_values. apply Hp, elem_of_dict_values.
           exists k. rewrite lookup_insert_ne; [done|]. intros <-.
           rewrite Hfresh in Hk; [done|]. by left.
        -- intros e [->|He]%elem_of_cons; [|by apply Hbefore]. simpl. congruence.
      * intros ([|e before] & after & Heq & Hp & Hbefore); simpl in Heq; simplify_eq.
        { by left. }
        right. exists before, after. split; [done|]. split.
        -- intros [->|?]%elem_of_dict_values_insert; [|done].
           by apply (Hbefore (j, Some q)); [left|].
        -- intros e He. apply Hbefore. by right.
  - apply NoDup_cons in Hnd as [Hj Hnd]. simpl.
    rewrite (IH mapping Hnd) by (intros i Hi; apply Hfresh; by right). split.
    + intros (before & after & -> & Hp & Hbefore).
      exists ((j, None) :: before), after. split; [done|]. split; [done|].
      intros e [->|He]%elem_of_cons; [done|by apply Hbefore].
    + intros ([|e before] & after & Heq & Hp & Hbefore); simpl in Heq; simplify_eq.
      exists before, after. split; [done|]. split; [done|].
      intros e He. apply Hbefore. by right.
Qed.

Lemma claim_all_lookup (mapping : gmap Z Z) (listed : list (Z * Z)) (index port_id : Z) :
  NoDup listed.*1 ->
  (forall i, i ∈ listed.*1 -> mapping !! i = None) ->
  claim_all mapping listed !! index = Some port_id <->
  mapping !! index = Some port_id \/ (index, port_id) ∈ listed.
Proof.
  unfold claim_all. revert mapping.
  induction listed as [|[j q] listed IH]; intros mapping Hnd Hfresh; simpl.
  - split; [by left|]. by intros [?|?%elem_of_nil].
  - apply NoDup_cons in Hnd as [Hj Hnd]. rewrite (IH _ Hnd).
    2:{ intros i Hi. rewrite lookup_insert_ne; [apply Hfresh; by right|]. by intros ->. }
    rewrite elem_of_cons. destruct (decide (index = j)) as [->|Hne].
    + rewrite lookup_insert_eq, (Hfresh j) by (by left). split.
      * intros [[= ->]|Hin]; [right; by left|right; by right].
      * intros [?|[[= ->]|Hin]]; [done|by left|by right].
    + rewrite lookup_insert_ne by done. split.
      * intros [?|?]; [by left|right; by right].
      * intros [?|[[= -> _]|?]]; [by left|done|by right].
Qed.

Lemma _get_entity_table_claims (snmp : snmp_handler)
    (filter_by_column_no_values :
       column -> QualiMibTable.t Z entity_row -> QualiMibTable.t Z entity_row)
    (tb : QualiMibTable.t Z entity_row) (st st' : autoload) :
  _get_entity_table snmp filter_by_column_no_values st = Ok (tb, st') ->
  port_list st'
  = port_list st
    ++ (first_claims (port_mapping st)
          (List.map (fun entry => (entry.1, port_claim snmp st entry))
             (snmp_entPhysicalParentRelPos snmp))).*1
  /\ port_mapping st'
     = claim_all (port_mapping st)
         (first_claims (port_mapping st)
            (List.map (fun entry => (entry.1, port_claim snmp st entry))
               (snmp_entPhysicalParentRelPos snmp))).
Proof.
  unfold _get_entity_table. munfold. simpl.
  match goal with |- context [fold_each ?l ?a ?body ?s] =>
    destruct (fold_each l a body s) as [[rd s1]|] eqn:Hloop; [|done] end.
  apply (_get_entity_table_loop_claims snmp _ _ _ st) in Hloop; [|done].
  simpl in Hloop. destruct Hloop as [Hlist Hmapping].
  destruct (_filter_entity_table filter_by_column_no_values rd s1) as [[[] s2]|] eqn:Hfilter;
    [|done].
  apply _filter_entity_table_frame in Hfilter as (_ & _ & Hm & Hl).
  intros [= <- <-]. by rewrite Hm, Hl.
Qed.

Lemma claims_keys {A} (claim : Z * string -> A) (rows : QualiMibTable.t Z string) :
  (List.map (fun entry => (entry.1, claim entry)) rows).*1 = QualiMibTable.keys rows.
Proof. unfold QualiMibTable.keys. induction rows as [|e rows IH]; simpl; by f_equal. Qed.

Lemma first_claims_offers (snmp : snmp_handler) (st : autoload)
    (rows : QualiMibTable.t Z string) (index port_id : Z) :
  NoDup (QualiMibTable.keys rows) ->
  (forall i, i ∈ QualiMibTable.keys rows -> port_mapping st !! i = None) ->
  (index, port_id)
    ∈ first_claims (port_mapping st)
        (List.map (fun entry => (entry.1, port_claim snmp st entry)) rows) <->
  exists before pos after,
    rows = before ++ (index, pos) :: after
    /\ port_offer snmp st (index, pos) port_id
    /\ (port_id ∉ dict_values (port_mapping st))
    /\ forall entry, entry ∈ before -> ~ port_offer snmp st entry port_id.
Proof.
  intros Hnd Hfresh.
  rewrite first_claims_spec by (by rewrite claims_keys). split.
  - intros (before & after & Heq & Hp & Hbefore).
    change (List.map (fun entry => (entry.1, port_claim snmp st entry)) rows)
      with ((fun entry => (entry.1, port_claim snmp st entry)) <$> rows) in Heq.
    apply fmap_app_inv in Heq as (b & rest & Hb & Hrest & ->).
    symmetry in Hrest. apply fmap_cons_inv in Hrest as ([i pos] & a & [= <- Hclaim] & Ha & ->).
    simpl. exists b, pos, a. split; [done|].
    split; [by apply port_claim_offer|]. split; [done|].
    intros entry Hentry Hoffer%port_claim_offer.
    apply (Hbefore (entry.1, port_claim snmp st entry)); [|done].
    rewrite Hb. apply list_elem_of_fmap. by exists entry.
  - intros (before & pos & after & -> & Hoffer%port_claim_offer & Hp & Hbefore).
    exists ((fun entry => (entry.1, port_claim snmp st entry)) <$> before),
           ((fun entry => (entry.1, port_claim snmp st entry)) <$> after).
    split; [|split; [done|]].
    + rewrite map_app. simpl. by rewrite Hoffer.
    + intros e [entry [-> Hentry]]%list_elem_of_fmap. simpl.
      intros Hclaim%port_claim_offer. by apply (Hbefore entry).
Qed.

(** C6: a row classified as port enters the port list exactly when
    neither its name nor its description matches the exclusion pattern
    (case-insensitively), [_get_mapping] resolves a logical index for it
    (a non-zero integer: the index is tested for truth), that index is a
    key of the interface table, and no earlier row has claimed it; it is
    then appended to the list and mapped to that index, and otherwise list
    and mapping are left as they were.  A row of another class never
    enters the list.  For a run of the loader [_get_entity_table] over the
    rows of the device: the port list grows by the rows that get the index
    they offer, first claim winning, in the order of the device table, and
    the mapping by their indexes; when the device indexes are distinct and
    not yet mapped, an index enters the list exactly when its row offers a
    logical index that is not a value of the mapping and that no earlier
    row of the device offers.  Loading the table keeps the mapping
    injective, so the mapping built from a fresh object is injective; and
    the final port list, after [add_relative_paths], holds the listed ports
    that are not excluded. *)
Theorem port_listing (snmp : snmp_handler) :
  (forall rd rd' index row st st',
     entPhysicalClass row = "port" ->
     _get_entity_table_classified snmp rd index row st = Ok (rd', st') ->
     (forall port_id,
        port_accepted snmp st index row port_id ->
        port_list st' = port_list st ++ [index]
        /\ port_mapping st' = <[index := port_id]> (port_mapping st))
     /\ ((forall port_id, ~ port_accepted snmp st index row port_id) ->
         port_list st' = port_list st /\ port_mapping st' = port_mapping st))
  /\ (forall rd rd' index row st st',
        entPhysicalClass row <> "port" ->
        _get_entity_table_classified snmp rd index row st = Ok (rd', st') ->
        port_list st' = port_list st /\ port_mapping st' = port_mapping st)
  /\ (forall filter_by_column_no_values st tb st',
        _get_entity_table snmp filter_by_column_no_values st = Ok (tb, st') ->
        (port_list st'
         = port_list st
           ++ (first_claims (port_mapping st)
                 (List.map (fun entry => (entry.1, port_claim snmp st entry))
                    (snmp_entPhysicalParentRelPos snmp))).*1
         /\ port_mapping st'
            = claim_all (port_mapping st)
                (first_claims (port_mapping st)
                   (List.map (fun entry => (entry.1, port_claim snmp st entry))
                      (snmp_entPhysicalParentRelPos snmp))))
        /\ (NoDup (QualiMibTable.keys (snmp_entPhysicalParentRelPos snmp)) ->
            (forall i, i ∈ QualiMibTable.keys (snmp_entPhysicalParentRelPos snmp) ->
               port_mapping st !! i = None) ->
            (forall index,
               index ∈ port_list st' <->
               index ∈ port_list st
               \/ exists before pos after port_id,
                    snmp_entPhysicalParentRelPos snmp = before ++ (index, pos) :: after
                    /\ port_offer snmp st (index, pos) port_id
                    /\ (port_id ∉ dict_values (port_mapping st))
                    /\ forall entry, entry ∈ before ->
                         ~ port_offer snmp st entry port_id)
            /\ (forall index port_id,
                  port_mapping st' !! index = Some port_id <->
                  port_mapping st !! index = Some port_id
                  \/ exists before pos after,
                       snmp_entPhysicalParentRelPos snmp = before ++ (index, pos) :: after
                       /\ port_offer snmp st (index, pos) port_id
                       /\ (port_id ∉ dict_values (port_mapping st))
                       /\ forall entry, entry ∈ before ->
                            ~ port_offer snmp st entry port_id))
        /\ (injective_mapping (port_mapping st) -> injective_mapping (port_mapping st'))
        /\ (port_mapping st = ∅ -> injective_mapping (port_mapping st')))
  /\ (forall limit st st',
        add_relative_paths limit st = Ok (tt, st') ->
        port_list st'
        = List.filter (fun p => bool_decide (p ∉ exclusion_list st)) (port_list st)).
Proof.
  split; [|split; [|split]].
  - intros rd rd' index row st st'. apply port_row_listing.
  - intros rd rd' index row st st'. apply other_row_listing.
  - intros keep st tb st' Hrun.
    pose proof (_get_entity_table_claims _ _ _ _ _ Hrun) as [Hlist Hmapping].
    split; [done|]. split.
    + intros Hnd Hfresh.
      set (listed := first_claims (port_mapping st)
                       (List.map (fun entry => (entry.1, port_claim snmp st entry))
                          (snmp_entPhysicalParentRelPos snmp))) in *.
      assert (NoDup listed.*1) as Hnd'.
      { eapply sublist_NoDup; cycle 1; [apply first_claims_keys|by rewrite claims_keys]. }
      assert (forall i, i ∈ listed.*1 -> port_mapping st !! i = None) as Hfresh'.
      { intros i Hi. apply Hfresh.
        apply (sublist_subseteq _ _ (first_claims_keys _ _)) in Hi.
        by rewrite claims_keys in Hi. }
      split.
      * intros index. rewrite Hlist, elem_of_app. apply or_iff_compat_l.
        rewrite list_elem_of_fmap. split.
        -- intros [[i port_id] [-> Hin]]. simpl.
           apply first_claims_offers in Hin as (before & pos & after & H); [|done..].
           by exists before, pos, after, port_id.
        -- intros (before & pos & after & port_id & H). exists (index, port_id).
           split; [done|]. apply first_claims_offers; [done..|].
           by exists before, pos, after.
      * intros index port_id. rewrite Hmapping, claim_all_lookup by done.
        apply or_iff_compat_l. by apply first_claims_offers.
    + apply _get_entity_table_effect in Hrun as (_ & _ & _ & Hinj).
      split; [done|]. intros Hempty. apply Hinj. rewrite Hempty.
      intros p q i Hp. by rewrite lookup_empty in Hp.
  - intros limit st st' Hrun. by apply add_relative_paths_spec in Hrun as (_ & _ & _ & ?).
Qed.

Lemma port_listing_witness :
  exists tb st',
    _get_entity_table shared_interface_device keeps_no_row
      (set_if_table (Some (snmp_ifDescr shared_interface_device)) init) = Ok (tb, st')
    /\ port_list st' = [3]
    /\ port_mapping st' = <[3 := 10]> ∅.
Proof.
  destruct (_get_entity_table shared_interface_device keeps_no_row
              (set_if_table (Some (snmp_ifDescr shared_interface_device)) init))
    as [[tb st']|] eqn:Hrun; [|by vm_compute in Hrun].
  exists tb, st'. split; [done|].
  destruct (proj1 (proj1 (proj2 (proj2 (port_listing shared_interface_device)))
                     keeps_no_row _ tb st' Hrun)) as [-> ->].
  split; vm_compute; reflexivity.
Defined.

Example port_listing_example :
  exists rd st',
    fold_each (snmp_entPhysicalParentRelPos shared_interface_device) []
      (_get_entity_table_row shared_interface_device)
      (set_if_table (Some (snmp_ifDescr shared_interface_device)) init)
    = Ok (rd, st')
    /\ QualiMibTable.keys rd = [1; 3; 4; 5]
    /\ chassis_list st' = [1]
    /\ port_list st' = [3]
    /\ port_mapping st' !! 3 = Some 10
    /\ port_mapping st' !! 4 = None
    /\ port_mapping st' !! 5 = None.
Proof. do 2 eexists. split; [vm_compute; reflexivity|]. by repeat split. Qed.

(** ** The outcomes of [discover] *)



(** On a fresh object [self.entity_table] is not assigned before
    [_get_entity_table] returns: a propagation that visits a row reads it
    too early. *)
Remark propagation_reads_entity_table_early :
  _load_snmp_tables lone_port_device keeps_every_row init = Raise AttributeError.
Proof. vm_compute. reflexivity. Qed.

(** ** The dual-bay repair *)

Lemma get_elem_of {R} (k : Z) (r : R) (tb : QualiMibTable.t Z R) :
  QualiMibTable.get k tb = Ok r -> (k, r) ∈ tb.
Proof.
  induction tb as [|[k' r'] tb IH]; simpl; [done|].
  destruct (decide (k = k')) as [->|]; [intros [= ->]; by left|].
  intros H. right. by apply IH.
Qed.


Lemma set_item_nil {R} (k : Z) (r : R) : QualiMibTable.set_item k r [] = [(k, r)].
Proof. reflexivity. Qed.

Lemma set_item_cons {R} (k k' : Z) (r r' : R) (tb : QualiMibTable.t Z R) :
  QualiMibTable.set_item k r ((k', r') :: tb)
  = if decide (k = k') then (k, r) :: tb else (k', r') :: QualiMibTable.set_item k r tb.
Proof. reflexivity. Qed.









Lemma M_bind_inv {A B} (m : M A) (k : A -> M B) (st : autoload) (r : B)
    (st' : autoload) :
  (m ≫= k) st = Ok (r, st') ->
  exists a s, m st = Ok (a, s) /\ k a s = Ok (r, st').
Proof.
  unfold mbind, M_bind. destruct (m st) as [[a s]|]; [|done]. intros H. by exists a, s.
Qed.


Lemma lift_inv {A} (r : result A) (st : autoload) (a : A) (s : autoload) :
  lift r st = Ok (a, s) -> r = Ok a /\ s = st.
Proof. unfold lift. destruct r; [|done]. by intros [= -> ->]. Qed.

Lemma attr_inv {A} (f : autoload -> option A) (st : autoload) (a : A) (s : autoload) :
  attr f st = Ok (a, s) -> f st = Some a /\ s = st.
Proof. unfold attr. destruct (f st); [|done]. by intros [= -> ->]. Qed.






(** With two pairs of bays (10 and 11, 12 and 13, in this position order)
    the module in the last lower bay (13) moves under the last upper bay
    (12), and the module in the lower bay 11 stays where it is. *)
Example last_bays_are_repaired :
  exists loaded final tb,
    _load_snmp_tables two_slot_device keeps_no_row init = Ok (tt, loaded)
    /\ _filter_lower_bay_containers two_slot_device loaded = Ok (tt, final)
    /\ entity_table final = Some tb
    /\ parent_of final 20 = Ok 11
    /\ parent_of final 21 = Ok 12.
Proof.
  do 3 eexists. split; [vm_compute; reflexivity|]. split; [vm_compute; reflexivity|].
  split; [reflexivity|]. split; vm_compute; reflexivity.
Qed.


(** ** Power ports *)

Lemma read_inv {A} (f : autoload -> result A) (st : autoload) (a : A) (s : autoload) :
  read f st = Ok (a, s) -> f st = Ok a /\ s = st.
Proof. unfold read. destruct (f st); [|done]. by intros [= -> ->]. Qed.

Lemma _filter_power_port_list_visit_spec (power_port : Z) (st st' : autoload) :
  _filter_power_port_list_visit power_port st = Ok (tt, st') ->
  exists tb row parent_index parent,
    entity_table st = Some tb
    /\ QualiMibTable.get power_port tb = Ok row
    /\ Py.int (entPhysicalContainedIn row) = Ok parent_index
    /\ QualiMibTable.get parent_index tb = Ok parent
    /\ if contains "powerSupply" (entPhysicalClass parent)
          && bool_decide (parent_index ∈ power_supply_list st)
       then exists l, Py.remove power_port (power_supply_list st) = Ok l
                      /\ st' = set_power_supply_list l st
       else st' = st.
Proof.
  unfold _filter_power_port_list_visit.
  intros (tb & s & [Ht ->]%attr_inv & H)%M_bind_inv.
  apply M_bind_inv in H as (row & s & [Hrow ->]%lift_inv & H).
  apply M_bind_inv in H as (parent_index & s & [Hq ->]%lift_inv & H).
  apply M_bind_inv in H as (parent & s & [Hparent ->]%lift_inv & H).
  exists tb, row, parent_index, parent. repeat split; try done.
  destruct (contains "powerSupply" (entPhysicalClass parent)); simpl;
    [|by injection H as <-].
  apply M_bind_inv in H as (listed & s & [= <- <-] & H).
  destruct (bool_decide (parent_index ∈ power_supply_list st));
    [|by injection H as <-].
  apply M_bind_inv in H as (l & s & [Hl ->]%lift_inv & H).
  exists l. split; [done|]. by injection H as <-.
Qed.

Lemma power_supply_parent_frame (s s' : autoload) (p q : Z) :
  entity_table s' = entity_table s ->
  power_supply_parent s' p q <-> power_supply_parent s p q.
Proof. intros Ht. unfold power_supply_parent, parent_of. by rewrite Ht. Qed.

Lemma power_supply_parent_dec (st : autoload) (tb : QualiMibTable.t Z entity_row)
    (row parent : entity_row) (p q : Z) :
  entity_table st = Some tb ->
  QualiMibTable.get p tb = Ok row ->
  Py.int (entPhysicalContainedIn row) = Ok q ->
  QualiMibTable.get q tb = Ok parent ->
  forall q', power_supply_parent st p q'
             <-> q' = q /\ contains "powerSupply" (entPhysicalClass parent) = true.
Proof.
  intros Ht Hrow Hq Hparent q'. unfold power_supply_parent, parent_of, attr_of.
  rewrite Ht. simpl. rewrite Hrow. simpl. rewrite Hq. split.
  - intros [[= <-] (tb' & parent' & [= <-] & Hp & Hc)]. split; [done|]. congruence.
  - intros [-> Hc]. split; [done|]. by exists tb, parent.
Qed.

Lemma set_power_supply_list_id (st : autoload) :
  set_power_supply_list (power_supply_list st) st = st.
Proof. by destruct st. Qed.

(** The loop of [_filter_power_port_list] over the entries not yet
    visited, [kept] being what is left of the entries visited so far: an
    entry stays exactly when it has no parent of a power supply class, or
    that parent is not listed when the entry is visited. *)
Lemma _filter_power_port_list_loop (rest kept : list Z) (st st' : autoload) :
  power_supply_list st = kept ++ rest ->
  NoDup (kept ++ rest) ->
  for_each rest _filter_power_port_list_visit st = Ok (tt, st') ->
  exists kept_rest,
    st' = set_power_supply_list (kept ++ kept_rest) st
    /\ sublist kept_rest rest
    /\ forall r1 p r2, rest = r1 ++ p :: r2 ->
         (p ∈ kept_rest <->
          forall q, power_supply_parent st p q ->
                    q <> p /\ (q ∉ r2) /\ (q ∉ kept) /\ (q ∈ r1 -> q ∉ kept_rest)).
Proof.
  revert kept st. induction rest as [|p0 rest IH]; intros kept st Hlist Hnd; simpl.
  - intros [= <-]. exists []. rewrite app_nil_r in *. rewrite <- Hlist, set_power_supply_list_id.
    repeat split; try done; by destruct r1.
  - intros ([] & s & Hvisit & Hrest)%M_bind_inv.
    apply _filter_power_port_list_visit_spec in Hvisit
      as (tb & row & q0 & parent & Ht & Hrow & Hq & Hparent & Hcase).
    pose proof (power_supply_parent_dec st tb row parent p0 q0 Ht Hrow Hq Hparent) as Hdec.
    pose proof Hnd as (Hkept & Hdisj & [Hp0 Hndrest]%NoDup_cons)%NoDup_app.
    assert (NoDup (kept ++ rest)) as Hnd'.
    { apply NoDup_app. repeat split; try done.
      intros x Hx Hx'. apply (Hdisj x Hx). by right. }
    destruct (contains "powerSupply" (entPhysicalClass parent)
              && bool_decide (q0 ∈ power_supply_list st)) eqn:Hc.
    + (* the entry is removed *)
      destruct Hcase as (l & Hl & ->).
      assert (l = kept ++ rest) as ->.
      { rewrite Hlist, remove_middle in Hl; [congruence|].
        intros Hin. apply (Hdisj p0 Hin). by left. }
      apply (IH kept) in Hrest as (kept_rest & -> & Hsub & Hrule); [|done..].
      exists kept_rest. split; [by destruct st|]. split; [by apply sublist_cons|].
      assert (p0 ∉ kept_rest) as Hout.
      { intros Hin. apply Hp0. by apply (sublist_subseteq _ _ Hsub). }
      apply andb_true_iff in Hc as [Hclass Hin%bool_decide_eq_true].
      intros [|p1 r1] p r2 Hsplit; simplify_eq/=.
      * split; [done|]. intros Hall.
        destruct (Hall q0) as (Hne & Hr2 & Hk & _); [by apply Hdec|].
        rewrite Hlist in Hin. apply elem_of_app in Hin as [?|[?|?]%elem_of_cons]; done.
      * rewrite (Hrule r1 p r2 eq_refl). 
        apply forall_proper. intros q.
        rewrite (power_supply_parent_frame st) by done.
        split; intros H Hq'; specialize (H Hq') as (? & ? & ? & Hr1); repeat split; try done.
        -- intros [->|?]%elem_of_cons; [done|]. by apply Hr1.
        -- intros ?. apply Hr1. by right.
    + (* the entry stays *)
      subst s.
      apply (IH (kept ++ [p0])) in Hrest as (kept_rest & -> & Hsub & Hrule);
        [|by rewrite <- app_assoc..].
      rewrite <- app_assoc. simpl.
      exists (p0 :: kept_rest). split; [done|]. split; [by apply sublist_skip|].
      assert (p0 ∉ kept_rest) as Hout.
      { intros Hin. apply Hp0. by apply (sublist_subseteq _ _ Hsub). }
      intros [|p1 r1] p r2 Hsplit; simplify_eq/=.
      * split; [|intros _; by left]. intros _ q [-> Hclass]%Hdec.
        rewrite Hclass in Hc. simpl in Hc. apply bool_decide_eq_false in Hc.
        rewrite Hlist in Hc. repeat split.
        -- intros ->. apply Hc. apply elem_of_app. right. by left.
        -- intros ?. apply Hc. apply elem_of_app. right. by right.
        -- intros ?. apply Hc. apply elem_of_app. by left.
        -- by intros ?%elem_of_nil.
      * assert (p <> p1) as Hne.
        { intros ->. apply Hp0. apply elem_of_app. right. by left. }
        rewrite elem_of_cons, (Hrule r1 p r2 eq_refl).
        split.
        -- intros [?|H]; [done|]. intros q Hq'.
           destruct (H q Hq') as (? & ? & Hk & Hr1). rewrite not_elem_of_app in Hk.
           destruct Hk as [? Hq1%not_elem_of_cons]. repeat split; try done.
           intros [->|?]%elem_of_cons; [by destruct Hq1|].
           intros [->|?]%elem_of_cons; [by destruct Hq1|]. by apply Hr1.
        -- intros H. right. intros q Hq'. destruct (H q Hq') as (? & ? & ? & Hr1).
           assert (q <> p1) as Hq1.
           { intros ->. apply Hr1; by left. }
           repeat split; try done.
           ++ rewrite not_elem_of_app. split; [done|]. by intros ->%list_elem_of_singleton.
           ++ intros ? ?. apply Hr1; by right.
Qed.

Lemma _get_resource_id_ext (s s' : autoload) :
  entity_table s' = entity_table s ->
  _excluded_models s' = _excluded_models s ->
  forall depth item_id,
    _get_resource_id s' depth item_id = _get_resource_id s depth item_id.
Proof.
  intros Ht Hx. induction depth as [|depth IH]; intros item_id; [done|].
  simpl. rewrite Ht, Hx.
  destruct (attr_of (entity_table s)) as [tb|]; [|done]. simpl.
  destruct (QualiMibTable.get item_id tb) as [row|]; [|done]. simpl.
  destruct (Py.int (entPhysicalContainedIn row)) as [parent_id|]; [|done]. simpl.
  destruct ((0 <? parent_id) && QualiMibTable.mem parent_id tb); [|done].
  destruct (QualiMibTable.get parent_id tb) as [parent|]; [|done]. simpl.
  by rewrite IH.
Qed.

Lemma get_relative_path_ext (s s' : autoload) :
  entity_table s' = entity_table s ->
  _excluded_models s' = _excluded_models s ->
  chassis_list s' = chassis_list s ->
  module_list s' = module_list s ->
  relative_path s' = relative_path s ->
  forall depth item_id,
    get_relative_path s' depth item_id = get_relative_path s depth item_id.
Proof.
  intros Ht Hx Hc Hm Hp. induction depth as [|depth IH]; intros item_id; [done|].
  simpl. rewrite Ht, Hc, Hm, Hp.
  case_bool_decide; [|done].
  destruct (attr_of (entity_table s)) as [tb|]; [|done]. simpl.
  destruct (QualiMibTable.get item_id tb) as [row|]; [|done]. simpl.
  destruct (Py.int (entPhysicalContainedIn row)) as [parent_id|]; [|done]. simpl.
  destruct (relative_path s !! parent_id); [done|].
  rewrite (_get_resource_id_ext s s' Ht Hx), !IH. done.
Qed.

Lemma same_inventory_refl (s : autoload) : same_inventory s s.
Proof. unfold same_inventory. by destruct s. Qed.

Lemma same_inventory_trans (s1 s2 s3 : autoload) :
  same_inventory s1 s2 -> same_inventory s2 s3 -> same_inventory s1 s3.
Proof. unfold same_inventory. intros -> ->. by destruct s1. Qed.

Lemma power_port_resource_inventory (recursion_limit : nat) (s s' : autoload)
    (port : Z) (res : resource) :
  same_inventory s s' ->
  power_port_resource recursion_limit s' port res
  <-> power_port_resource recursion_limit s port res.
Proof.
  intros Hs. unfold power_port_resource.
  assert (entity_table s' = entity_table s) as -> by (by rewrite Hs).
  assert (power_supply_list s' = power_supply_list s) as -> by (by rewrite Hs).
  assert (forall x, get_relative_path s' recursion_limit x
                    = get_relative_path s recursion_limit x) as Hpath
    by (intros x; apply get_relative_path_ext; by rewrite Hs).
  by setoid_rewrite Hpath.
Qed.

Lemma _get_power_ports_port_spec (snmp : snmp_handler) (recursion_limit : nat)
    (port : Z) (st st' : autoload) :
  _get_power_ports_port snmp recursion_limit port st = Ok (tt, st') ->
  same_inventory st st'
  /\ exists res, resources st' = resources st ++ [res]
                 /\ power_port_resource recursion_limit st port res.
Proof.
  unfold _get_power_ports_port.
  intros (tb & s & [Ht ->]%attr_inv & H)%M_bind_inv.
  apply M_bind_inv in H as (row & s & [Hrow ->]%lift_inv & H).
  apply M_bind_inv in H as (parent_index & s & [Hq ->]%lift_inv & H).
  apply M_bind_inv in H as (parent & s & [Hparent ->]%lift_inv & H).
  apply M_bind_inv in H as (parent_id & s & [Hid ->]%lift_inv & H).
  apply M_bind_inv in H as (chassis_id & s & [Hpath ->]%read_inv & H).
  apply M_bind_inv in H as (listed & s & [= <- <-] & H).
  apply M_bind_inv in H as (i & s & [Hi ->]%lift_inv & H).
  unfold snmp_get_property, _add_resource in H. munfold. simpl in H.
  injection H as <-. split; [by destruct st|]. simpl.
  eexists. split; [done|].
  by exists tb, row, parent_index, parent, parent_id, chassis_id, i.
Qed.

Lemma _get_power_ports_loop (snmp : snmp_handler) (recursion_limit : nat)
    (ports : list Z) (st st' : autoload) :
  for_each ports (_get_power_ports_port snmp recursion_limit) st = Ok (tt, st') ->
  same_inventory st st'
  /\ exists rs, resources st' = resources st ++ rs
                /\ Forall2 (power_port_resource recursion_limit st) ports rs.
Proof.
  revert st. induction ports as [|port ports IH]; intros st; simpl.
  - intros [= <-]. split; [apply same_inventory_refl|].
    exists []. by rewrite app_nil_r.
  - intros ([] & s & Hport & Hrest)%M_bind_inv.
    apply _get_power_ports_port_spec in Hport as (Hs & res & Hres & Hport).
    apply IH in Hrest as (Hs' & rs & Hrs & Hports).
    split; [by apply (same_inventory_trans _ s)|].
    exists (res :: rs). split; [by rewrite Hrs, Hres, <- app_assoc|].
    constructor; [done|].
    eapply Forall2_impl; [done|]. intros p r Hpr.
    by apply (power_port_resource_inventory _ st s).
Qed.

(** C10 (as the code has it): [_get_power_ports] first filters the list
    of power supplies, visiting the entries in list order: an entry is
    removed exactly when the class of its parent is a power supply class
    and that parent is in the list at the moment of the visit, that is,
    when the parent is the entry itself, comes later in the list, or
    comes earlier and has been kept.  So the filtered list keeps the
    order of the original one, never holds an entry together with its
    power-supply parent, and one power port resource is emitted per entry
    of the filtered list, in that order, nothing else of the inventory
    being touched.  An entry whose parent was itself removed stays. *)
Theorem nested_power_supplies_filtered (snmp : snmp_handler) (recursion_limit : nat)
    (st st' : autoload) :
  NoDup (power_supply_list st) ->
  _get_power_ports snmp recursion_limit st = Ok (tt, st') ->
  let final := power_supply_list st' in
  same_inventory (set_power_supply_list final st) st'
  /\ sublist final (power_supply_list st)
  /\ (forall earlier p later, power_supply_list st = earlier ++ p :: later ->
        (p ∈ final <->
         forall q, power_supply_parent st p q ->
                   q <> p /\ (q ∉ later) /\ (q ∈ earlier -> q ∉ final)))
  /\ (forall p q, p ∈ final -> power_supply_parent st p q -> q ∉ final)
  /\ exists rs, resources st' = resources st ++ rs
                /\ Forall2 (power_port_resource recursion_limit st') final rs.
Proof.
  intros Hnd. unfold _get_power_ports, _filter_power_port_list.
  intros ([] & s & (copy & s0 & [= <- <-] & Hfilter)%M_bind_inv & Hemit)%M_bind_inv.
  apply (_filter_power_port_list_loop _ []) in Hfilter
    as (final & -> & Hsub & Hrule); [|done..].
  apply M_bind_inv in Hemit as (ports & s & [= <- <-] & Hemit).
  apply _get_power_ports_loop in Hemit as (Hs & rs & Hrs & Hports).
  simpl in *.
  assert (power_supply_list st' = final) as Hfinal by (by rewrite Hs).
  rewrite Hfinal. split; [done|]. split; [done|].
  assert (forall earlier p later, power_supply_list st = earlier ++ p :: later ->
            (p ∈ final <->
             forall q, power_supply_parent st p q ->
                       q <> p /\ (q ∉ later) /\ (q ∈ earlier -> q ∉ final))) as Hrule'.
  { intros earlier p later Hsplit. rewrite (Hrule earlier p later Hsplit).
    apply forall_proper. intros q. split; intros H Hq; specialize (H Hq).
    - by destruct H as (? & ? & _ & ?).
    - destruct H as (? & ? & ?). repeat split; try done. by intros ?%elem_of_nil. }
  split; [done|]. split.
  - intros p q Hp Hq Hin.
    pose proof (sublist_subseteq _ _ Hsub p Hp) as (earlier & later & Hsplit)%list_elem_of_split.
    pose proof (proj1 (Hrule' earlier p later Hsplit) Hp q Hq) as (Hne & Hlater & Hearlier).
    pose proof (sublist_subseteq _ _ Hsub q Hin) as Hq'. rewrite Hsplit in Hq'.
    apply elem_of_app in Hq' as [?|[?|?]%elem_of_cons]; try done. by apply Hearlier.
  - exists rs. split; [done|].
    eapply Forall2_impl; [done|]. intros p r.
    by rewrite (power_port_resource_inventory _ _ _ _ _ Hs).
Qed.

(** C10 (the claim as worded fails): an entry whose parent is a power
    supply of the list can stay and be emitted.  With three nested power
    supplies listed parent first, 42 is removed on account of 41; when 43
    is visited its parent 42 is no longer in the list, so 43 stays and the
    child of the pair 42/43 is the one that yields a resource, [0/PP2-3].
    The run of [discover] on a fresh object for such a device emits it. *)
Lemma nested_supply_emitted :
  power_supply_parent nested_supplies 43 42
  /\ 42 ∈ power_supply_list nested_supplies
  /\ (exists st',
        _get_power_ports nested_supplies_device 100 nested_supplies = Ok (tt, st')
        /\ power_supply_list st' = [41; 43]
        /\ List.map res_relative_address (resources st') = ["0/PP1-1"; "0/PP2-3"])
  /\ (exists loaded result final,
        _load_snmp_tables nested_supplies_device keeps_no_row
          (set_snmp_log
             [UpdateMibSources;
              LoadMib ["CISCO-PRODUCTS-MIB"; "CISCO-ENTITY-VENDORTYPE-OID-MIB"]] init)
        = Ok (tt, loaded)
        /\ entity_table loaded = entity_table nested_supplies
        /\ power_supply_list loaded = [41; 42; 43]
        /\ discover nested_supplies_device keeps_no_row 100
             (mret tt) (mret tt) (mret tt) (mret tt) init = Ok (result, final)
        /\ power_supply_list final = [41; 43]
        /\ List.map (fun r => (res_class r, res_relative_address r))
             (details_resources result)
           = [(ChassisResource, "0"); (PowerPortResource, "0/PP1-1");
              (PowerPortResource, "0/PP2-3")]).
Proof.
  split.
  { split; [reflexivity|]. do 2 eexists. repeat split; reflexivity. }
  split; [apply (bool_decide_unpack _); by vm_compute|].
  split.
  - eexists. split; [vm_compute; reflexivity|]. split; reflexivity.
  - do 3 eexists. split; [vm_compute; reflexivity|].
    split; [reflexivity|]. split; [reflexivity|].
    split; [vm_compute; reflexivity|]. split; reflexivity.
Qed.

Lemma nested_power_supplies_filtered_witness :
  exists st',
    _get_power_ports nested_supplies_device 100 nested_supplies = Ok (tt, st')
    /\ same_inventory (set_power_supply_list (power_supply_list st') nested_supplies) st'
    /\ sublist (power_supply_list st') [41; 42; 43]
    /\ (forall earlier p later, [41; 42; 43] = earlier ++ p :: later ->
          (p ∈ power_supply_list st' <->
           forall q, power_supply_parent nested_supplies p q ->
                     q <> p /\ (q ∉ later)
                     /\ (q ∈ earlier -> q ∉ power_supply_list st')))
    /\ (forall p q, p ∈ power_supply_list st' ->
          power_supply_parent nested_supplies p q -> q ∉ power_supply_list st')
    /\ exists rs, resources st' = rs
                  /\ Forall2 (power_port_resource 100 st') (power_supply_list st') rs.
Proof.
  destruct (_get_power_ports nested_supplies_device 100 nested_supplies)
    as [[[] st']|] eqn:Hrun; [|by vm_compute in Hrun].
  exists st'. split; [done|].
  apply (nested_power_supplies_filtered nested_supplies_device 100 nested_supplies st');
    [|done].
  apply (bool_decide_unpack _). by vm_compute.
Defined.

(** ** Modules *)

Lemma get_Ok_mem {R} (k : Z) (r : R) (tb : QualiMibTable.t Z R) :
  QualiMibTable.get k tb = Ok r -> QualiMibTable.mem k tb = true.
Proof.
  intros H%get_elem_of. apply bool_decide_eq_true.
  unfold QualiMibTable.keys. apply list_elem_of_fmap. by exists (k, r).
Qed.

Lemma walk_parent_inj (tb : QualiMibTable.t Z entity_row) (x p p' : Z)
    (prow prow' : entity_row) :
  walk_parent tb x p prow -> walk_parent tb x p' prow' -> p' = p /\ prow' = prow.
Proof.
  intros (row & Hrow & Hp & _ & Hprow) (row' & Hrow' & Hp' & _ & Hprow').
  assert (row' = row) as -> by congruence.
  assert (p' = p) as -> by congruence. split; congruence.
Qed.

(** [_get_module_parents] collects exactly the module-class ancestors. *)
Lemma _get_module_parents_spec (self : autoload) (tb : QualiMibTable.t Z entity_row) :
  entity_table self = Some tb ->
  forall depth module_id parents,
    _get_module_parents self depth module_id = Ok parents ->
    forall m, m ∈ parents <-> module_ancestor tb module_id m.
Proof.
  intros Ht. induction depth as [|depth IH]; intros x parents; [done|].
  simpl. rewrite Ht. simpl.
  destruct (QualiMibTable.get x tb) as [row|] eqn:Hrow; [|done]. simpl.
  destruct (Py.int (entPhysicalContainedIn row)) as [p|] eqn:Hp; [|done]. simpl.
  destruct ((0 <? p) && QualiMibTable.mem p tb) eqn:Hvalid.
  - apply andb_true_iff in Hvalid as [Hpos%Z.ltb_lt Hmem].
    destruct (QualiMibTable.get p tb) as [prow|] eqn:Hprow; [|done]. simpl.
    assert (walk_parent tb x p prow) as Hwalk by (by exists row).
    destruct (re_search ["module"] (entPhysicalClass prow)) eqn:Hmodule.
    + destruct (_get_module_parents self depth p) as [rest|] eqn:Hrest; [|done].
      simpl. intros [= <-] m. rewrite elem_of_cons, (IH p rest Hrest m). split.
      * intros [->|Hm]; [by eapply ancestor_parent|].
        eapply ancestor_further; [done|by left|done].
      * intros Hm. inversion Hm as [? ? prow' Hw|? p' ? prow' Hw ? Hup]; subst.
        -- left. by destruct (walk_parent_inj _ _ _ _ _ _ Hwalk Hw).
        -- right. by destruct (walk_parent_inj _ _ _ _ _ _ Hwalk Hw) as [-> _].
    + destruct (re_search ["chassis"] (entPhysicalClass prow)) eqn:Hchassis.
      * intros [= <-] m. split; [by intros ?%elem_of_nil|].
        intros Hm. inversion Hm as [? ? prow' Hw Hc|? p' ? prow' Hw Hc Hup]; subst;
          destruct (walk_parent_inj _ _ _ _ _ _ Hwalk Hw) as [-> ->];
          [|destruct Hc]; congruence.
      * intros Hrest m. rewrite (IH p parents Hrest m). split.
        -- intros Hm. eapply ancestor_further; [done|by right|done].
        -- intros Hm. inversion Hm as [? ? prow' Hw Hc|? p' ? prow' Hw Hc Hup]; subst;
             destruct (walk_parent_inj _ _ _ _ _ _ Hwalk Hw) as [-> ->];
             [congruence|done].
  - intros [= <-] m. split; [by intros ?%elem_of_nil|].
    intros Hm. apply andb_false_iff in Hvalid.
    inversion Hm as [? ? prow' Hw Hc|? p' ? prow' Hw Hc Hup]; subst;
      destruct Hw as (row' & Hrow' & Hp' & Hpos & Hprow);
      assert (row' = row) as -> by congruence;
      rewrite Hp in Hp'; injection Hp' as <-;
      (destruct Hvalid as [Hneg|Hneg];
       [apply Z.ltb_ge in Hneg; lia|by rewrite (get_Ok_mem _ _ _ Hprow) in Hneg]).
Qed.

Lemma _get_module_parents_ext (s s' : autoload) :
  entity_table s' = entity_table s ->
  forall depth module_id,
    _get_module_parents s' depth module_id = _get_module_parents s depth module_id.
Proof.
  intros Ht. induction depth as [|depth IH]; intros x; [done|].
  simpl. rewrite Ht.
  destruct (attr_of (entity_table s)) as [tb|]; [|done]. simpl.
  destruct (QualiMibTable.get x tb) as [row|]; [|done]. simpl.
  destruct (Py.int (entPhysicalContainedIn row)) as [p|]; [|done]. simpl.
  destruct ((0 <? p) && QualiMibTable.mem p tb); [|done].
  destruct (QualiMibTable.get p tb) as [prow|]; [|done]. simpl.
  by rewrite !IH.
Qed.

(** A module that [get_module_list] may append: not excluded, and of a
    vendor type outside the module exclusion pattern. *)
Lemma get_module_list_module_spec (snmp : snmp_handler) (module : Z) (st st' : autoload) :
  get_module_list_module snmp module st = Ok (tt, st') ->
  entity_table st' = entity_table st
  /\ port_list st' = port_list st
  /\ exclusion_list st' = exclusion_list st
  /\ relative_path st' = relative_path st
  /\ module_list st' =
       if bool_decide (module ∉ module_list st)
          && negb (excluded_vendor_type snmp module)
          && bool_decide (module ∉ exclusion_list st)
       then module_list st ++ [module] else module_list st.
Proof.
  unfold get_module_list_module, snmp_get_property, excluded_vendor_type. munfold. simpl.
  destruct (bool_decide (module ∈ module_list st)) eqn:Hin.
  - intros [= <-]. apply bool_decide_eq_true in Hin.
    by rewrite (bool_decide_eq_false_2 (module ∉ module_list st)) by tauto.
  - apply bool_decide_eq_false in Hin. rewrite (bool_decide_eq_true_2 _ Hin). simpl.
    destruct (re_search module_exclude_pattern
                (lower (snmp_property snmp "ENTITY-MIB" "entPhysicalVendorType" module)));
      simpl; [by intros [= <-]|].
    destruct (bool_decide (module ∉ exclusion_list st)); simpl;
      rewrite ?(bool_decide_eq_true_2 _ Hin); by intros [= <-].
Qed.

Section ModuleList.
Variable snmp : snmp_handler.
Variable recursion_limit : nat.

(** The entries [get_module_list] accepts among [modules]. *)
Let accepted (st : autoload) (modules : list Z) (m : Z) : Prop :=
  m ∈ modules /\ excluded_vendor_type snmp m = false /\ m ∉ exclusion_list st.

Lemma get_module_list_modules (modules : list Z) (st st' : autoload) :
  for_each modules (get_module_list_module snmp) st = Ok (tt, st') ->
  entity_table st' = entity_table st
  /\ port_list st' = port_list st
  /\ exclusion_list st' = exclusion_list st
  /\ relative_path st' = relative_path st
  /\ (NoDup (module_list st) -> NoDup (module_list st'))
  /\ forall m, m ∈ module_list st' <-> m ∈ module_list st \/ accepted st modules m.
Proof.
  unfold accepted. revert st. induction modules as [|x modules IH]; intros st; simpl.
  - intros [= <-]. do 5 (split; [done|]). intros m. split; [by left|].
    by intros [?|[?%elem_of_nil _]].
  - intros ([] & s & Hx & Hrest)%M_bind_inv.
    apply get_module_list_module_spec in Hx as (Ht & Hp & Hx & Hr & Hm).
    apply IH in Hrest as (Ht' & Hp' & Hx' & Hr' & Hnd & Hrest).
    rewrite Ht', Hp', Hx', Hr'. do 4 (split; [done|]). split.
    + intros H. apply Hnd. rewrite Hm.
      destruct (bool_decide (x ∉ module_list st)) eqn:Hout; [|done].
      apply bool_decide_eq_true in Hout.
      simpl. destruct (negb _ && _); [|done].
      apply NoDup_app. repeat split; [done| |apply NoDup_singleton].
      by intros y Hy ->%list_elem_of_singleton.
    + intros m. rewrite (Hrest m), Hm, Hx. clear Hrest Hnd Hm.
      destruct (excluded_vendor_type snmp x) eqn:Hv; simpl.
      * rewrite andb_false_r. simpl. split; [intros [?|(? & ? & ?)]; [by left|]|].
        -- right. repeat split; try done. by right.
        -- intros [?|([->|?]%elem_of_cons & ? & ?)]; [by left|congruence|by right].
      * rewrite andb_true_r. case_bool_decide as Hout; simpl;
          [case_bool_decide as Hex; simpl|];
          rewrite ?elem_of_app, ?list_elem_of_singleton, elem_of_cons;
          (split; intros H; destruct_or?; destruct_and?; destruct_or?; subst; tauto).
Qed.

Lemma get_module_list_ports (ports : list Z) (st st' : autoload) :
  for_each ports (fun port =>
      modules ← read (fun self => _get_module_parents self recursion_limit port);
      for_each modules (get_module_list_module snmp)) st = Ok (tt, st') ->
  entity_table st' = entity_table st
  /\ port_list st' = port_list st
  /\ exclusion_list st' = exclusion_list st
  /\ relative_path st' = relative_path st
  /\ (NoDup (module_list st) -> NoDup (module_list st'))
  /\ (forall port, port ∈ ports ->
        exists parents, _get_module_parents st recursion_limit port = Ok parents)
  /\ forall m,
       m ∈ module_list st' <->
       m ∈ module_list st
       \/ exists port parents,
            port ∈ ports
            /\ _get_module_parents st recursion_limit port = Ok parents
            /\ accepted st parents m.
Proof.
  revert st. induction ports as [|port ports IH]; intros st; simpl.
  - intros [= <-]. do 5 (split; [done|]). split; [by intros ? ?%elem_of_nil|].
    intros m. split; [by left|]. by intros [?|(? & ? & ?%elem_of_nil & _)].
  - intros ([] & s & Hport & Hrest)%M_bind_inv.
    apply M_bind_inv in Hport as (parents & s0 & [Hparents ->]%read_inv & Hport).
    apply get_module_list_modules in Hport as (Ht & Hp & Hx & Hr & Hnd & Hport).
    apply IH in Hrest as (Ht' & Hp' & Hx' & Hr' & Hnd' & Hwalks & Hrest).
    assert (forall x, _get_module_parents s recursion_limit x
                      = _get_module_parents st recursion_limit x) as Hsame
      by (intros x; by apply _get_module_parents_ext).
    rewrite Ht', Hp', Hx', Hr'. do 4 (split; [done|]). split; [|split].
    + by intros ?%Hnd%Hnd'.
    + intros p [->|Hin]%elem_of_cons; [by exists parents|].
      rewrite <- Hsame. by apply Hwalks.
    + intros m. rewrite (Hrest m), (Hport m). unfold accepted. rewrite Hx.
      split.
      * intros [[?|?]|(p & l & Hin & Hl & ?)]; [by left| |].
        -- right. exists port, parents. split; [by left|]. done.
        -- right. exists p, l. rewrite <- Hsame. split; [by right|]. done.
      * intros [?|(p & l & [->|Hin]%elem_of_cons & Hl & ?)]; [by left; left| |].
        -- left. right. by assert (l = parents) as -> by congruence.
        -- right. exists p, l. by rewrite Hsame.
Qed.

End ModuleList.

Lemma for_each_keys_frame (l : list Z) (body : Z -> M unit) :
  (forall x st st' k, body x st = Ok (tt, st') -> k <> x ->
     relative_path st' !! k = relative_path st !! k) ->
  forall st st' k, for_each l body st = Ok (tt, st') -> k ∉ l ->
    relative_path st' !! k = relative_path st !! k.
Proof.
  intros Hbody. induction l as [|x l IH]; intros st st' k; simpl.
  - by intros [= <-].
  - intros ([] & s & Hx & Hrest)%M_bind_inv [Hne Hk]%not_elem_of_cons.
    rewrite (IH _ _ _ Hrest Hk). by apply (Hbody x).
Qed.

(** [add_relative_paths] gives addresses to entries of the module list and
    of the port list only. *)
Lemma add_relative_paths_keys (recursion_limit : nat) (st st' : autoload) (k : Z) :
  add_relative_paths recursion_limit st = Ok (tt, st') ->
  k ∉ module_list st -> k ∉ port_list st ->
  relative_path st' !! k = relative_path st !! k.
Proof.
  unfold add_relative_paths.
  intros (ports & s0 & [= <- <-] & H)%M_bind_inv.
  apply M_bind_inv in H as (modules & s0 & [= <- <-] & H).
  apply M_bind_inv in H as ([] & s & Hmodules & Hports).
  intros Hm Hp.
  transitivity (relative_path s !! k).
  - revert Hports Hp. apply for_each_keys_frame. clear. intros x st st' k. munfold.
    case_bool_decide.
    + destruct (get_relative_path st recursion_limit x); [|done].
      destruct (_get_resource_id st recursion_limit x); [|done].
      destruct (_get_port_relative_path st recursion_limit _); [|done].
      intros [= <-] Hne. simpl. by rewrite lookup_insert_ne.
    + destruct (Py.remove x (port_list st)); [|done]. by intros [= <-].
  - revert Hmodules Hm. apply for_each_keys_frame. clear. intros x st st' k. munfold.
    case_bool_decide.
    + destruct (get_relative_path st recursion_limit x); [|done].
      destruct (_get_resource_id st recursion_limit x); [|done].
      intros [= <-] Hne. simpl. by rewrite lookup_insert_ne.
    + destruct (Py.remove x (module_list st)); [|done]. by intros [= <-].
Qed.

Lemma module_resource_inventory (s s' : autoload) (module : Z) (res : resource) :
  same_inventory s s' -> module_resource s' module res <-> module_resource s module res.
Proof.
  intros Hs. unfold module_resource.
  by assert (relative_path s' = relative_path s) as -> by (by rewrite Hs).
Qed.

Lemma _get_module_attributes_module_spec (snmp : snmp_handler) (recursion_limit : nat)
    (module : Z) (st st' : autoload) :
  _get_module_attributes_module snmp recursion_limit module st = Ok (tt, st') ->
  same_inventory st st'
  /\ exists res, resources st' = resources st ++ [res] /\ module_resource st module res.
Proof.
  unfold _get_module_attributes_module.
  intros (paths & s & [= <- <-] & H)%M_bind_inv.
  apply M_bind_inv in H as (module_id & s & [Hid ->]%lift_inv & H).
  apply M_bind_inv in H as (module_index & s & [Hindex ->]%read_inv & H).
  apply M_bind_inv in H as (tb & s & [Ht ->]%attr_inv & H).
  apply M_bind_inv in H as (row & s & [Hrow ->]%lift_inv & H).
  unfold snmp_get_property, _add_resource in H. munfold. simpl in H.
  injection H as <-. split; [by destruct st|]. simpl.
  eexists. split; [done|]. split; [done|]. simpl.
  by destruct (relative_path st !! module) as [path|]; simplify_eq.
Qed.

Lemma _get_module_attributes_loop (snmp : snmp_handler) (recursion_limit : nat)
    (modules : list Z) (st st' : autoload) :
  for_each modules (_get_module_attributes_module snmp recursion_limit) st = Ok (tt, st') ->
  same_inventory st st'
  /\ exists rs, resources st' = resources st ++ rs
                /\ Forall2 (module_resource st) modules rs.
Proof.
  revert st. induction modules as [|module modules IH]; intros st; simpl.
  - intros [= <-]. split; [apply same_inventory_refl|].
    exists []. by rewrite app_nil_r.
  - intros ([] & s & Hmodule & Hrest)%M_bind_inv.
    apply _get_module_attributes_module_spec in Hmodule as (Hs & res & Hres & Hmodule).
    apply IH in Hrest as (Hs' & rs & Hrs & Hmodules).
    split; [by apply (same_inventory_trans _ s)|].
    exists (res :: rs). split; [by rewrite Hrs, Hres, <- app_assoc|].
    constructor; [done|].
    eapply Forall2_impl; [done|]. intros p r Hpr.
    by apply (module_resource_inventory st s).
Qed.

(** Where every excluded entry has its parent excluded, the ancestors of
    an excluded entry are excluded. *)
Lemma module_ancestor_excluded (tb : QualiMibTable.t Z entity_row) (E : list Z)
    (x m : Z) :
  (forall y p prow, y ∈ E -> walk_parent tb y p prow -> p ∈ E) ->
  module_ancestor tb x m -> x ∈ E -> m ∈ E.
Proof.
  intros Hclosed. induction 1 as [x m prow Hw _|x p m prow Hw _ _ IH]; intros Hx.
  - by apply (Hclosed x m prow).
  - apply IH. by apply (Hclosed x p prow).
Qed.

(** C9: starting from an empty module list, the modules that
    [get_module_list] and [add_relative_paths] leave in the module list are
    exactly the module-class ancestors of a port of the port list, reached
    by walking parent pointers up to the first chassis-class ancestor, whose
    vendor type does not match the module exclusion pattern and which are
    not excluded; each is listed once and has an address.  An entry that is
    no such module, and no port, receives no address, and the module
    resources that [_get_module_attributes] emits are one per listed module,
    at the address of that module.  The ports of the list that are excluded
    leave it in [add_relative_paths] only; where every excluded entry has
    its parent excluded, each listed module is an ancestor of a port that
    stays in the list. *)
Theorem modules_are_port_ancestors (snmp : snmp_handler) (recursion_limit : nat)
    (st listed addressed : autoload) (tb : QualiMibTable.t Z entity_row) :
  entity_table st = Some tb ->
  module_list st = [] ->
  get_module_list snmp recursion_limit st = Ok (tt, listed) ->
  add_relative_paths recursion_limit listed = Ok (tt, addressed) ->
  (forall m,
     m ∈ module_list addressed <->
     (exists port, port ∈ port_list st /\ module_ancestor tb port m)
     /\ excluded_vendor_type snmp m = false
     /\ m ∉ exclusion_list st)
  /\ NoDup (module_list addressed)
  /\ (forall m, m ∈ module_list addressed -> is_Some (relative_path addressed !! m))
  /\ (forall m, m ∉ module_list addressed -> m ∉ port_list st ->
        relative_path addressed !! m = relative_path st !! m)
  /\ ((forall y p prow,
         y ∈ exclusion_list st -> walk_parent tb y p prow -> p ∈ exclusion_list st) ->
      forall m, m ∈ module_list addressed ->
        exists port, port ∈ port_list addressed /\ module_ancestor tb port m)
  /\ forall before after,
       module_list before = module_list addressed ->
       relative_path before = relative_path addressed ->
       _get_module_attributes snmp recursion_limit before = Ok (tt, after) ->
       exists rs,
         resources after = resources before ++ rs
         /\ Forall2 (module_resource addressed) (module_list addressed) rs.
Proof.
  intros Ht Hempty Hlist Hpaths. unfold get_module_list in Hlist.
  apply M_bind_inv in Hlist as (ports & s & [= <- <-] & Hlist).
  apply get_module_list_ports in Hlist as (_ & Hp & Hx & Hr & Hnd & Hwalks & Hlisted).
  pose proof (add_relative_paths_spec _ _ _ Hpaths) as (_ & Haddr & Hmodules & Hports).
  rewrite Hempty in Hlisted, Hnd.
  assert (module_list addressed = module_list listed) as Hsame.
  { rewrite Hmodules. apply forallb_filter_id, forallb_forall.
    intros m Hm%list_elem_of_In%Hlisted. apply bool_decide_eq_true. rewrite Hx.
    destruct Hm as [?%elem_of_nil|(? & ? & _ & _ & _ & _ & ?)]; done. }
  assert (Hrule : forall m,
            m ∈ module_list listed <->
            (exists port, port ∈ port_list st /\ module_ancestor tb port m)
            /\ excluded_vendor_type snmp m = false
            /\ m ∉ exclusion_list st).
  { intros m. rewrite (Hlisted m). split.
    - intros [?%elem_of_nil|(port & parents & Hport & Hparents & Hm & Hv & Hex)]; [done|].
      split; [|done]. exists port. split; [done|].
      by apply (_get_module_parents_spec st tb Ht _ _ _ Hparents).
    - intros ((port & Hport & Hm) & Hv & Hex). right.
      destruct (Hwalks port Hport) as [parents Hparents].
      exists port, parents. repeat split; try done.
      by apply (_get_module_parents_spec st tb Ht _ _ _ Hparents). }
  rewrite Hsame. split; [done|]. split; [|split; [|split; [|split]]].
  - apply Hnd, NoDup_nil_2.
  - intros m Hm. rewrite <- Hsame in Hm.
    destruct (Haddr m (or_introl Hm)) as (_ & a & Ha & _). by exists a.
  - intros m Hm Hport. rewrite <- Hr.
    apply (add_relative_paths_keys _ _ _ _ Hpaths); [done|by rewrite Hp].
  - intros Hclosed m ((port & Hport & Hm) & _ & Hex)%Hrule.
    exists port. split; [|done]. rewrite Hports, Hp, Hx.
    apply list_elem_of_In, filter_In. split; [by apply list_elem_of_In|].
    apply bool_decide_eq_true. intros Hin. apply Hex.
    by apply (module_ancestor_excluded tb _ port m Hclosed).
  - intros before after Hbm Hbp. unfold _get_module_attributes.
    intros (modules & s & [= <- <-] & Hemit)%M_bind_inv.
    apply _get_module_attributes_loop in Hemit as (_ & rs & Hrs & Hall).
    exists rs. split; [done|]. rewrite Hbm in Hall.
    eapply Forall2_impl; [done|]. intros m r. unfold module_resource. by rewrite Hbp.
Qed.

Lemma modules_are_port_ancestors_witness :
  exists listed addressed,
    get_module_list three_module_device 100 three_modules = Ok (tt, listed)
    /\ add_relative_paths 100 listed = Ok (tt, addressed)
    /\ (forall m,
          m ∈ module_list addressed <->
          (exists port,
             port ∈ [30; 31]
             /\ module_ancestor
                  [(1, entity "-1" "0" "chassis"); (20, entity "1" "1" "module");
                   (21, entity "2" "1" "module"); (22, entity "3" "1" "module");
                   (25, entity "1" "21" "module"); (30, entity "1" "20" "port");
                   (31, entity "1" "25" "port")] port m)
          /\ excluded_vendor_type three_module_device m = false
          /\ m ∉ [])
    /\ NoDup (module_list addressed)
    /\ (forall m, m ∈ module_list addressed -> is_Some (relative_path addressed !! m))
    /\ (forall m, m ∉ module_list addressed -> m ∉ [30; 31] ->
          relative_path addressed !! m = relative_path three_modules !! m)
    /\ (forall m, m ∈ module_list addressed ->
          exists port,
            port ∈ port_list addressed
            /\ module_ancestor
                 [(1, entity "-1" "0" "chassis"); (20, entity "1" "1" "module");
                  (21, entity "2" "1" "module"); (22, entity "3" "1" "module");
                  (25, entity "1" "21" "module"); (30, entity "1" "20" "port");
                  (31, entity "1" "25" "port")] port m)
    /\ forall before after,
         module_list before = module_list addressed ->
         relative_path before = relative_path addressed ->
         _get_module_attributes three_module_device 100 before = Ok (tt, after) ->
         exists rs,
           resources after = resources before ++ rs
           /\ Forall2 (module_resource addressed) (module_list addressed) rs.
Proof.
  destruct (get_module_list three_module_device 100 three_modules)
    as [[[] listed]|] eqn:Hlist; [|by vm_compute in Hlist].
  destruct (add_relative_paths 100 listed) as [[[] addressed]|] eqn:Hpaths.
  - exists listed, addressed. split; [done|]. split; [done|].
    destruct (modules_are_port_ancestors three_module_device 100 three_modules
                listed addressed _ eq_refl eq_refl Hlist Hpaths)
      as (Hrule & Hnd & Haddr & Hkeys & Hports & Hemit).
    do 4 (split; [done|]). split; [|done].
    apply Hports. by intros y p prow ?%elem_of_nil.
  - exfalso. vm_compute in Hlist. injection Hlist as <-. by vm_compute in Hpaths.
Defined.

(** The modules of [three_module_device]: module 22 carries no port and
    module 25 is a transceiver, so the run of [discover] lists and emits
    modules 20 and 21 only. *)
Example modules_example :
  exists result final,
    discover three_module_device keeps_no_row 100 (mret tt) (mret tt) (mret tt) (mret tt)
      init = Ok (result, final)
    /\ module_list final = [20; 21]
    /\ _excluded_models final = [25]
    /\ relative_path final !! 22 = None
    /\ relative_path final !! 25 = None
    /\ List.map (fun r => (res_class r, res_relative_address r)) (details_resources result)
       = [(ChassisResource, "0"); (ModuleResource, "0/1"); (ModuleResource, "0/2")].
Proof. do 2 eexists. split; [vm_compute; reflexivity|]. repeat split. Qed.

(** ** The Python primitives on sample inputs *)

Example str_negative : Py.str (-1) = "-1".
Proof. reflexivity. Qed.

Example int_of_str_padded : Py.int_of_str " 007 " = Ok 7.
Proof. reflexivity. Qed.

Example int_of_str_signed : Py.int_of_str "+12" = Ok 12.
Proof. reflexivity. Qed.

Example int_of_str_letters : Py.int_of_str "1a" = Raise ValueError.
Proof. reflexivity. Qed.

Example int_of_str_empty : Py.int_of_str "" = Raise ValueError.
Proof. reflexivity. Qed.

Example split_trailing_separator : Py.split "/" "0/1/" = ["0"; "1"; ""].
Proof. reflexivity. Qed.

Example split_ws_runs : Py.split_ws "  ab  c " = ["ab"; "c"].
Proof. reflexivity. Qed.

Example join_segments : Py.join "/" ["0"; "1"; "2"] = "0/1/2".
Proof. reflexivity. Qed.

Example findall_digits_groups : Py.findall_digits "Gi1/0/12" = ["1"; "0"; "12"].
Proof. reflexivity. Qed.

Example lower_mixed_case : Py.lower "cevPortMgmt" = "cevportmgmt".
Proof. reflexivity. Qed.

(** * Further properties of the module *)

(** ** Exclusion propagation on an object whose table is not yet set *)

Lemma for_each_raise_first {A} (x : A) (l : list A) (body : A -> M unit)
    (st : autoload) (e : exn) :
  body x st = Raise e -> for_each (x :: l) body st = Raise e.
Proof. simpl. unfold mbind, M_bind. by intros ->. Qed.

(** [_filter_entity_table] reads [self.entity_table], which
    [_load_snmp_tables] assigns only once [_get_entity_table] has returned:
    on an object that has no such attribute yet, the propagation does
    nothing when its list of rows is empty and raises [AttributeError] at
    the first row otherwise. *)
Theorem propagation_needs_entity_table
    (filter_by_column_no_values :
       column -> QualiMibTable.t Z entity_row -> QualiMibTable.t Z entity_row)
    (raw sorted : QualiMibTable.t Z entity_row) (st : autoload) :
  entity_table st = None ->
  QualiMibTable.sort_by_column ParentRelPos
    (filter_by_column_no_values ContainedIn raw) = Ok sorted ->
  _filter_entity_table filter_by_column_no_values raw st
  = match sorted with [] => Ok (tt, st) | _ :: _ => Raise AttributeError end.
Proof.
  intros Hnone Hsort. unfold _filter_entity_table.
  rewrite Hsort. unfold mbind at 1, M_bind, lift. cbn beta iota.
  destruct sorted as [|kr sorted]; [done|].
  unfold QualiMibTable.keys. rewrite fmap_cons. simpl rev.
  destruct (rev (sorted.*1) ++ [kr.1]) as [|x l] eqn:Hl.
  { by destruct (rev (sorted.*1)). }
  apply for_each_raise_first. unfold _filter_entity_table_visit, attr.
  unfold mbind, M_bind. by rewrite Hnone.
Qed.

Lemma propagation_needs_entity_table_witness :
  _filter_entity_table keeps_every_row orphan_module init = Raise AttributeError
  /\ _filter_entity_table keeps_no_row orphan_module init = Ok (tt, init).
Proof.
  split.
  - destruct (QualiMibTable.sort_by_column ParentRelPos
                (keeps_every_row ContainedIn orphan_module)) as [sorted|] eqn:Hsort;
      [|by vm_compute in Hsort].
    rewrite (propagation_needs_entity_table keeps_every_row orphan_module sorted init
               eq_refl Hsort).
    destruct sorted; [by vm_compute in Hsort|done].
  - by rewrite (propagation_needs_entity_table keeps_no_row orphan_module [] init
                  eq_refl eq_refl).
Defined.

(** ** What table loading guarantees about the lists it fills *)

Lemma keys_set_item_mono (k : Z) (r : entity_row) (tb : QualiMibTable.t Z entity_row)
    (x : Z) :
  x ∈ QualiMibTable.keys tb \/ x = k ->
  x ∈ QualiMibTable.keys (QualiMibTable.set_item k r tb).
Proof.
  unfold QualiMibTable.keys. induction tb as [|[k' r'] tb IH]; rewrite ?set_item_nil,
    ?set_item_cons; simpl.
  - intros [?%elem_of_nil| ->]; [done|]. by left.
  - destruct (decide (k = k')) as [->|Hne]; simpl.
    + intros [Hx| ->]; [done|by left].
    + intros [[->|Hx]%elem_of_cons| ->]; [by left| |]; right; apply IH; auto.
Qed.

Lemma _get_entity_table_classified_rows (snmp : snmp_handler)
    (rd rd' : QualiMibTable.t Z entity_row) (index : Z) (temp : entity_row)
    (st st' : autoload) :
  _get_entity_table_classified snmp rd index temp st = Ok (rd', st') ->
  lists_have_rows rd st -> ports_mapped st ->
  (forall k, k ∈ QualiMibTable.keys rd -> k ∈ QualiMibTable.keys rd')
  /\ lists_have_rows rd' st' /\ ports_mapped st'.
Proof.
  unfold lists_have_rows, ports_mapped. intros H Hrows Hports.
  classified_cases H.
  all: try (match goal with
            | e : entPhysicalClass _ = _, Hb : re_search _ _ = false |- _ =>
                rewrite e in Hb; by vm_compute in Hb
            end).
  all: split; [intros k Hk; first [done | apply keys_set_item_mono; by left]|].
  all: split.
  all: try (intros x Hx; rewrite ?elem_of_app, ?list_elem_of_singleton in Hx;
            first [ apply keys_set_item_mono;
                    destruct Hx as [[?| ->]|[[?| ->]|[?| ->]]]; auto 6; fail
                  | apply keys_set_item_mono;
                    destruct Hx as [[?| ->]|[?|?]]; auto 6; fail
                  | apply keys_set_item_mono;
                    destruct Hx as [?|[[?| ->]|?]]; auto 6; fail
                  | apply keys_set_item_mono;
                    destruct Hx as [?|[?|[?| ->]]]; auto 6; fail
                  | apply keys_set_item_mono; left; apply Hrows; tauto
                  | apply Hrows; tauto ]).
  all: try (intros port Hp; simpl in *; by apply Hports).
  all: intros port Hp.
  - apply andb_prop in Heqb0 as [Hmem _].
    destruct (decide (port = index)) as [->|Hne].
    + exists z, t. rewrite lookup_insert_eq. repeat split; congruence.
    + apply elem_of_app in Hp as [Hp|Hp%list_elem_of_singleton]; [|done].
      destruct (Hports port Hp) as (pid & tb & ? & ? & ? & ?).
      exists pid, tb. rewrite lookup_insert_ne by (by apply not_eq_sym).
      repeat split; congruence.
  - destruct (Hports port Hp) as (pid & tb & ? & ? & ? & ?).
    exists pid, tb. repeat split; congruence.
Qed.

Lemma _get_entity_table_row_rows (snmp : snmp_handler)
    (rd rd' : QualiMibTable.t Z entity_row) (entry : Z * string)
    (st st' : autoload) :
  _get_entity_table_row snmp rd entry st = Ok (rd', st') ->
  lists_have_rows rd st -> ports_mapped st ->
  (forall k, k ∈ QualiMibTable.keys rd -> k ∈ QualiMibTable.keys rd')
  /\ lists_have_rows rd' st' /\ ports_mapped st'.
Proof.
  destruct entry as [index pos]. unfold _get_entity_table_row, snmp_get_property.
  munfold. intros H Hrows Hports.
  repeat (simpl in H;
          first [ discriminate H
                | match type of H with
                  | context [_get_entity_table_classified ?s ?r ?i ?t ?st] =>
                      let E := fresh "E" in
                      destruct (_get_entity_table_classified s r i t st) as [[? ?]|] eqn:E;
                      [apply _get_entity_table_classified_rows in E;
                       [destruct E as (? & ? & ?)|done..]|]
                  end
                | destruct_match_in H ]);
    injection H as <- <-; done.
Qed.

Lemma _get_entity_table_loop_rows (snmp : snmp_handler)
    (rows : QualiMibTable.t Z string) (rd rd' : QualiMibTable.t Z entity_row)
    (st st' : autoload) :
  fold_each rows rd (_get_entity_table_row snmp) st = Ok (rd', st') ->
  lists_have_rows rd st -> ports_mapped st ->
  lists_have_rows rd' st' /\ ports_mapped st'.
Proof.
  revert rd st. induction rows as [|entry rows IH]; intros rd st; simpl.
  - by intros [= <- <-].
  - munfold.
    destruct (_get_entity_table_row snmp rd entry st) as [[rd1 st1]|] eqn:Hrow; [|done].
    intros Hrest Hrows Hports.
    apply _get_entity_table_row_rows in Hrow as (_ & ? & ?); [|done..].
    by apply (IH rd1 st1).
Qed.

(** The propagation touches the exclusion list only. *)
Lemma _filter_entity_table_only_excludes
    (filter_by_column_no_values :
       column -> QualiMibTable.t Z entity_row -> QualiMibTable.t Z entity_row)
    (raw : QualiMibTable.t Z entity_row) (st st' : autoload) :
  _filter_entity_table filter_by_column_no_values raw st = Ok (tt, st') ->
  st' = set_exclusion_list (exclusion_list st') st.
Proof.
  unfold _filter_entity_table. unfold mbind at 1, M_bind, lift.
  destruct (QualiMibTable.sort_by_column _ _) as [sorted|]; [|done].
  generalize (rev (QualiMibTable.keys sorted)). intros l. revert st.
  induction l as [|e l IH]; intros st; simpl.
  - intros [= <-]. by destruct st.
  - munfold. destruct (_filter_entity_table_visit raw e st) as [[[] st1]|] eqn:Hv; [|done].
    intros ->%IH.
    apply _filter_entity_table_visit_spec in Hv as (p & _ & ->).
    by destruct (negb (QualiMibTable.mem p raw) || bool_decide (p ∈ exclusion_list st)).
Qed.

(** After [_get_entity_table] on an object whose lists are empty, every
    listed chassis, port and power supply is a key of the table that is
    returned, and every listed port is mapped to a non-zero index that is a
    key of the interface table: the lookups [self.entity_table[port]],
    [self.port_mapping[port]] and [self.if_table[self.port_mapping[port]]]
    of the later stages find their keys. *)
Theorem loaded_lists_have_rows (snmp : snmp_handler)
    (filter_by_column_no_values :
       column -> QualiMibTable.t Z entity_row -> QualiMibTable.t Z entity_row)
    (tb : QualiMibTable.t Z entity_row) (st st' : autoload) :
  chassis_list st = [] -> port_list st = [] -> power_supply_list st = [] ->
  _get_entity_table snmp filter_by_column_no_values st = Ok (tb, st') ->
  lists_have_rows tb st' /\ ports_mapped st'.
Proof.
  intros Hc Hp Hs. unfold _get_entity_table.
  intros ([] & s0 & Hlog & Hrun)%M_bind_inv.
  apply M_bind_inv in Hrun as (rd & s1 & Hloop & Hrun).
  apply M_bind_inv in Hrun as ([] & s2 & Hfilter & [= <- <-]).
  unfold log, modify in Hlog. injection Hlog as <-.
  apply _get_entity_table_loop_rows in Hloop as [Hrows Hports].
  - apply _filter_entity_table_only_excludes in Hfilter. rewrite Hfilter.
    split; [exact Hrows|exact Hports].
  - intros x. simpl. rewrite Hc, Hp, Hs. by intros [?%elem_of_nil|[?%elem_of_nil|?%elem_of_nil]].
  - intros port. simpl. rewrite Hp. by intros ?%elem_of_nil.
Qed.

Lemma loaded_lists_have_rows_witness :
  exists tb st',
    _get_entity_table shared_interface_device keeps_no_row
      (set_if_table (Some (snmp_ifDescr shared_interface_device)) init) = Ok (tb, st')
    /\ lists_have_rows tb st' /\ ports_mapped st'.
Proof.
  destruct (_get_entity_table shared_interface_device keeps_no_row
              (set_if_table (Some (snmp_ifDescr shared_interface_device)) init))
    as [[tb st']|] eqn:Hrun; [|by vm_compute in Hrun].
  exists tb, st'. split; [done|].
  by apply (loaded_lists_have_rows shared_interface_device keeps_no_row tb
              (set_if_table (Some (snmp_ifDescr shared_interface_device)) init) st').
Defined.

(** ** The exclusion list after loading on a fresh object *)

Lemma _get_entity_table_row_excludes (snmp : snmp_handler)
    (rd rd' : QualiMibTable.t Z entity_row) (index : Z) (pos : string)
    (st st' : autoload) :
  _get_entity_table_row snmp rd (index, pos) st = Ok (rd', st') ->
  entity_table st' = entity_table st
  /\ exclusion_list st'
     = exclusion_list st
       ++ (if decide (pos = "") then [index]
           else if decide (snmp_property snmp "ENTITY-MIB" "entPhysicalContainedIn" index
                           = "")
                then [index] else [])
  /\ forall k, k ∈ QualiMibTable.keys rd' ->
       k ∈ QualiMibTable.keys rd
       \/ (k = index /\ pos <> ""
           /\ snmp_property snmp "ENTITY-MIB" "entPhysicalContainedIn" index <> ""
           /\ blacklisted snmp index = false).
Proof.
  intros H.
  pose proof (_get_entity_table_row_effect _ _ _ _ _ _ H) as (_ & _ & _ & _ & _ & Hent).
  split; [done|]. revert H.
  unfold _get_entity_table_row, snmp_get_property, blacklisted. munfold. simpl.
  destruct (decide (pos = "")) as [->|Hpos]; simpl.
  { intros [= <- <-]. split; [done|]. intros k Hk. by left. }
  destruct (decide (VStr (snmp_property snmp "ENTITY-MIB" "entPhysicalContainedIn" index)
                    = VStr "")) as [Hc|Hc]; simpl.
  { injection Hc as Hc. rewrite (decide_True _ _ Hc). intros [= <- <-].
    split; [done|]. intros k Hk. by left. }
  assert (snmp_property snmp "ENTITY-MIB" "entPhysicalContainedIn" index <> "") as Hc'
    by congruence.
  rewrite (decide_False _ _ Hc').
  match goal with |- context [contains "alarm" ?v || ?rest] =>
    destruct (contains "alarm" v || rest) eqn:Hb end; simpl.
  { intros [= <- <-]. rewrite app_nil_r. split; [done|]. intros k Hk. by left. }
  intros H.
  repeat (simpl in H;
          first [ discriminate H
                | match type of H with
                  | context [_get_entity_table_classified ?s ?r ?i ?t ?st] =>
                      let E := fresh "E" in
                      destruct (_get_entity_table_classified s r i t st) as [[? ?]|] eqn:E;
                      [apply _get_entity_table_classified_effect in E;
                       destruct E as (? & _ & ? & _)|]
                  end
                | destruct_match_in H ]);
    injection H as <- <-; simpl in *; rewrite ?app_nil_r.
  all: split; [congruence|].
  all: try (intros k Hk; by left).
  all: intros k Hk;
       match goal with Hkeys : (forall k : Z, @?P k) |- _ =>
         destruct (Hkeys k Hk) as [?| ->]; [by left|by right] end.
Qed.

Lemma _get_entity_table_loop_excludes (snmp : snmp_handler)
    (rows : QualiMibTable.t Z string) (rd rd' : QualiMibTable.t Z entity_row)
    (st st' : autoload) :
  fold_each rows rd (_get_entity_table_row snmp) st = Ok (rd', st') ->
  entity_table st' = entity_table st
  /\ (forall x,
        x ∈ exclusion_list st' <->
        x ∈ exclusion_list st
        \/ exists pos,
             (x, pos) ∈ rows
             /\ (pos = ""
                 \/ snmp_property snmp "ENTITY-MIB" "entPhysicalContainedIn" x = ""))
  /\ forall k, k ∈ QualiMibTable.keys rd' ->
       k ∈ QualiMibTable.keys rd
       \/ (snmp_property snmp "ENTITY-MIB" "entPhysicalContainedIn" k <> ""
           /\ blacklisted snmp k = false
           /\ exists pos, (k, pos) ∈ rows /\ pos <> "").
Proof.
  revert rd st. induction rows as [|[index pos] rows IH]; intros rd st; simpl.
  - intros [= <- <-]. split; [done|]. split; [|intros k Hk; by left].
    intros x. split; [by left|]. by intros [?|(? & ?%elem_of_nil & _)].
  - intros (rd1 & st1 & Hrow & Hrest)%M_bind_inv.
    apply _get_entity_table_row_excludes in Hrow as (Hent1 & Hex1 & Hkeys1).
    apply IH in Hrest as (Hent & Hex & Hkeys).
    split; [congruence|]. split.
    + intros x. rewrite (Hex x), Hex1, elem_of_app. split.
      * intros [[?|Hx]|(p & Hin & Hp)]; [by left| |].
        -- right. exists pos.
           destruct (decide (pos = "")) as [->|?];
             [|destruct (decide (_ = "")) as [Hc|?]];
             [apply list_elem_of_singleton in Hx as ->..|by apply elem_of_nil in Hx].
           ++ split; [by left|by left].
           ++ split; [by left|by right].
        -- right. exists p. split; [by right|done].
      * intros [?|(p & [[= -> ->]|Hin]%elem_of_cons & Hp)]; [by left; left| |].
        -- left. right.
           destruct (decide (pos = "")) as [->|?]; [by left|].
           destruct Hp as [?|Hc]; [done|]. rewrite decide_True by done. by left.
        -- right. by exists p.
    + intros k Hk. destruct (Hkeys k Hk) as [Hk1|(? & ? & p & ? & ?)].
      * destruct (Hkeys1 k Hk1) as [?|(-> & ? & ? & ?)]; [by left|right].
        repeat split; try done. exists pos. split; [by left|done].
      * right. repeat split; try done. exists p. split; [by right|done].
Qed.

(** On an object without [entity_table], a propagation that returns has
    visited nothing. *)
Lemma _filter_entity_table_unset
    (filter_by_column_no_values :
       column -> QualiMibTable.t Z entity_row -> QualiMibTable.t Z entity_row)
    (raw : QualiMibTable.t Z entity_row) (st st' : autoload) :
  entity_table st = None ->
  _filter_entity_table filter_by_column_no_values raw st = Ok (tt, st') ->
  st' = st.
Proof.
  intros Hnone. unfold _filter_entity_table. unfold mbind at 1, M_bind, lift.
  destruct (QualiMibTable.sort_by_column _ _) as [sorted|]; [|done].
  destruct (rev (QualiMibTable.keys sorted)) as [|x l]; simpl; [by intros [= <-]|].
  unfold _filter_entity_table_visit, attr. unfold mbind, M_bind. by rewrite Hnone.
Qed.

(** On a fresh object (no [entity_table] yet), when [_get_entity_table]
    returns, the exclusion list holds, besides what it held before, exactly
    the indexes reported with an empty position or an empty parent id: the
    propagation has added nothing, and an index dropped for its vendor type
    (alarm, fan, sensor) is not excluded.  No excluded index and no index of
    a black-listed vendor type is a key of the table. *)
Theorem fresh_load_exclusions (snmp : snmp_handler)
    (filter_by_column_no_values :
       column -> QualiMibTable.t Z entity_row -> QualiMibTable.t Z entity_row)
    (tb : QualiMibTable.t Z entity_row) (st st' : autoload) :
  entity_table st = None ->
  _get_entity_table snmp filter_by_column_no_values st = Ok (tb, st') ->
  (forall x, x ∈ exclusion_list st' <-> x ∈ exclusion_list st \/ excluded_on_load snmp x)
  /\ (forall k, k ∈ QualiMibTable.keys tb ->
        blacklisted snmp k = false
        /\ snmp_property snmp "ENTITY-MIB" "entPhysicalContainedIn" k <> "").
Proof.
  intros Hnone. unfold _get_entity_table.
  intros ([] & s0 & Hlog & Hrun)%M_bind_inv.
  apply M_bind_inv in Hrun as (rd & s1 & Hloop & Hrun).
  apply M_bind_inv in Hrun as ([] & s2 & Hfilter & [= <- <-]).
  unfold log, modify in Hlog. injection Hlog as <-.
  apply _get_entity_table_loop_excludes in Hloop as (Hent & Hex & Hkeys).
  apply _filter_entity_table_unset in Hfilter as ->; [|by rewrite Hent].
  split; [exact Hex|].
  intros k Hk. destruct (Hkeys k Hk) as [?%elem_of_nil|(? & ? & _)]; done.
Qed.

Lemma fresh_load_exclusions_witness :
  exists tb st',
    _get_entity_table fan_device keeps_no_row init = Ok (tb, st')
    /\ (forall x, x ∈ exclusion_list st' <-> x ∈ [] \/ excluded_on_load fan_device x)
    /\ (forall k, k ∈ QualiMibTable.keys tb ->
          blacklisted fan_device k = false
          /\ snmp_property fan_device "ENTITY-MIB" "entPhysicalContainedIn" k <> "").
Proof.
  destruct (_get_entity_table fan_device keeps_no_row init) as [[tb st']|] eqn:Hrun;
    [|by vm_compute in Hrun].
  exists tb, st'. split; [done|].
  by apply (fresh_load_exclusions fan_device keeps_no_row tb init st').
Defined.

(** ** The fallback of the interface mapping *)

Lemma findall_digits_none (s : string) :
  all_chars (fun c => negb (is_digit c)) s = true -> findall_digits s = [].
Proof.
  induction s as [|c r IH]; simpl; [done|].
  intros [Hc Hr]%andb_prop. apply negb_true_iff in Hc. rewrite Hc. by apply IH.
Qed.

Lemma contains_empty (s : string) : contains "" s = true.
Proof. by destruct s. Qed.

(** When the alias query fails and the physical description holds no
    digit, the pattern built from its digit groups is empty and matches
    every descriptor: the port is mapped to the first row of the interface
    table, whatever that interface is ([ValueError] if the suffix of that
    row is no number). *)
Theorem digit_free_description_takes_first_interface (snmp : snmp_handler)
    (port_index : Z) (port_descr : string) (st : autoload)
    (key : Z) (row : if_row) (rest : QualiMibTable.t Z if_row) (e : exn) :
  snmp_get_alias snmp port_index = Raise e ->
  all_chars (fun c => negb (is_digit c)) port_descr = true ->
  if_table st = Some ((key, row) :: rest) ->
  _get_mapping snmp port_index port_descr st
  = match int_of_str (suffix row) with
    | Ok port_id =>
        Ok (Some port_id,
            set_snmp_log
              (snmp_log st ++ [Get "ENTITY-MIB" "entAliasMappingIdentifier" port_index])
              st)
    | Raise e' => Raise e'
    end.
Proof.
  intros Halias Hdescr Htable. unfold _get_mapping. munfold.
  rewrite Halias, (findall_digits_none _ Hdescr). simpl. rewrite Htable. simpl.
  rewrite contains_empty. by destruct (int_of_str (suffix row)).
Qed.

Lemma digit_free_description_takes_first_interface_witness :
  _get_mapping empty_device 7 "Management port"
    (set_if_table (Some [(12, mkIfRow "Vlan1" "12"); (13, mkIfRow "mgmt0" "13")]) init)
  = Ok (Some 12,
        set_snmp_log [Get "ENTITY-MIB" "entAliasMappingIdentifier" 7]
          (set_if_table (Some [(12, mkIfRow "Vlan1" "12"); (13, mkIfRow "mgmt0" "13")])
             init)).
Proof.
  by rewrite (digit_free_description_takes_first_interface empty_device 7
                "Management port"
                (set_if_table
                   (Some [(12, mkIfRow "Vlan1" "12"); (13, mkIfRow "mgmt0" "13")]) init)
                12 (mkIfRow "Vlan1" "12")
                [(13, mkIfRow "mgmt0" "13")] KeyError eq_refl eq_refl eq_refl).
Defined.

(** ** Relative paths *)

Lemma append_assoc (a b c : string) : (a +:+ b) +:+ c = a +:+ (b +:+ c).
Proof.
  induction a as [|x a IH]; [done|].
  change (String x ((a +:+ b) +:+ c) = String x (a +:+ (b +:+ c))). by f_equal.
Qed.

Lemma append_empty_r (a : string) : a +:+ "" = a.
Proof.
  induction a as [|x a IH]; [done|]. change (String x (a +:+ "") = String x a). by f_equal.
Qed.

(** Every relative path is an assigned address, or an assigned address
    followed by segments that each start with a slash: a path is never
    built from nothing. *)
Theorem relative_path_extends_an_address (self : autoload) (depth : nat)
    (item_id : Z) (path : string) :
  get_relative_path self depth item_id = Ok path ->
  exists entry address rest,
    relative_path self !! entry = Some address
    /\ path = address +:+ rest
    /\ (rest = "" \/ exists tail, rest = "/" +:+ tail).
Proof.
  revert item_id path. induction depth as [|depth IH]; intros x path; [done|].
  simpl. case_bool_decide as Hchassis.
  - destruct (attr_of (entity_table self)) as [tb|]; [|done]. simpl.
    destruct (QualiMibTable.get x tb) as [row|]; [|done]. simpl.
    destruct (Py.int (entPhysicalContainedIn row)) as [p|]; [|done]. simpl.
    destruct (relative_path self !! p) as [address|] eqn:Hp.
    + intros [= <-]. exists p, address, "". by rewrite append_empty_r; auto.
    + destruct (if bool_decide (p ∈ module_list self)
                then _get_resource_id self depth p else Ok "") as [id|]; [|done].
      simpl. case_bool_decide as Hid.
      * destruct (get_relative_path self depth p) as [parent_path|] eqn:Hparent; [|done].
        simpl. intros [= <-].
        destruct (IH p parent_path Hparent) as (entry & address & rest & He & -> & Hrest).
        exists entry, address, (rest +:+ "/" +:+ id). split; [done|].
        split; [by rewrite !append_assoc|]. right.
        destruct Hrest as [->|[tail ->]]; [by exists id|].
        exists (tail +:+ "/" +:+ id). by rewrite !append_assoc.
      * apply IH.
  - destruct (relative_path self !! x) as [address|] eqn:Hx; [|done].
    intros [= <-]. exists x, address, "". by rewrite append_empty_r; auto.
Qed.

Lemma relative_path_extends_an_address_witness :
  exists entry address rest,
    relative_path colliding_ports !! entry = Some address
    /\ "0" = address +:+ rest
    /\ (rest = "" \/ exists tail, rest = "/" +:+ tail).
Proof.
  apply (relative_path_extends_an_address colliding_ports 10 2 "0"). reflexivity.
Defined.

Lemma for_each_invariant {A} (P : autoload -> Prop) (l : list A) (body : A -> M unit) :
  (forall x s s', P s -> body x s = Ok (tt, s') -> P s') ->
  forall st st', P st -> for_each l body st = Ok (tt, st') -> P st'.
Proof.
  intros Hbody. induction l as [|x l IH]; intros st st' HP; simpl.
  - by intros [= <-].
  - intros ([] & s & Hx & Hrest)%M_bind_inv. apply (IH s); [|done]. by apply (Hbody x st).
Qed.

Lemma for_each_reaches {A} (l1 l2 : list A) (x : A) (body : A -> M unit)
    (st st' : autoload) :
  for_each (l1 ++ x :: l2) body st = Ok (tt, st') ->
  exists s s', for_each l1 body st = Ok (tt, s) /\ body x s = Ok (tt, s').
Proof.
  revert st. induction l1 as [|y l1 IH]; intros st; simpl.
  - intros ([] & s & Hx & _)%M_bind_inv. by exists st, s.
  - intros ([] & s & Hy & Hrest)%M_bind_inv.
    destruct (IH s Hrest) as (s1 & s2 & Hl1 & Hx). exists s1, s2. split; [|done].
    unfold mbind, M_bind. by rewrite Hy.
Qed.

Lemma get_missing {R} (k : Z) (tb : QualiMibTable.t Z R) :
  k ∉ QualiMibTable.keys tb -> QualiMibTable.get k tb = Raise KeyError.
Proof.
  unfold QualiMibTable.keys. induction tb as [|[k' r] tb IH]; simpl; [done|].
  intros [Hne Hk]%not_elem_of_cons. rewrite decide_False by done. by apply IH.
Qed.

(** An entry without a row and without an address has no resource id and
    no relative path. *)
Lemma missing_entry_has_no_path (self : autoload) (tb : QualiMibTable.t Z entity_row)
    (depth : nat) (x : Z) :
  entity_table self = Some tb ->
  x ∉ QualiMibTable.keys tb ->
  relative_path self !! x = None ->
  _get_resource_id self (S depth) x = Raise KeyError
  /\ get_relative_path self (S depth) x = Raise KeyError.
Proof.
  intros Ht Hx Hpath. simpl. rewrite Ht, Hpath. simpl.
  rewrite (get_missing _ _ Hx). split; [done|]. by case_bool_decide.
Qed.

(** The relative path of an entry whose parent has neither a row nor an
    address cannot be built: [KeyError]. *)
Lemma orphan_has_no_path (self : autoload) (tb : QualiMibTable.t Z entity_row)
    (depth : nat) (x parent : Z) (row : entity_row) :
  entity_table self = Some tb ->
  x ∉ chassis_list self ->
  QualiMibTable.get x tb = Ok row ->
  Py.int (entPhysicalContainedIn row) = Ok parent ->
  parent ∉ QualiMibTable.keys tb ->
  relative_path self !! parent = None ->
  get_relative_path self (S (S depth)) x = Raise KeyError.
Proof.
  intros Ht Hx Hrow Hparent Hmissing Hpath.
  simpl. rewrite bool_decide_eq_true_2 by done. rewrite Ht. simpl. rewrite Hrow. simpl.
  rewrite Hparent. simpl. rewrite Hpath, (get_missing _ _ Hmissing). simpl.
  repeat case_bool_decide; done.
Qed.

(** [add_relative_paths] cannot complete when a listed port that is not
    excluded hangs from an entry that has no row in the table and no
    address: building the path of the port raises. *)
Theorem orphan_port_breaks_addressing (recursion_limit : nat) (st : autoload)
    (tb : QualiMibTable.t Z entity_row) (port parent : Z) (row : entity_row) :
  (2 <= recursion_limit)%nat ->
  entity_table st = Some tb ->
  port ∈ port_list st ->
  port ∉ exclusion_list st ->
  port ∉ chassis_list st ->
  QualiMibTable.get port tb = Ok row ->
  Py.int (entPhysicalContainedIn row) = Ok parent ->
  parent ∉ QualiMibTable.keys tb ->
  relative_path st !! parent = None ->
  exists e, add_relative_paths recursion_limit st = Raise e.
Proof.
  intros Hlimit Ht Hport Hex Hchassis Hrow Hparent Hmissing Hpath.
  destruct (add_relative_paths recursion_limit st) as [[[] st']|e] eqn:Hrun;
    [exfalso|by exists e].
  revert Hrun. destruct recursion_limit as [|[|depth]]; [lia..|].
  unfold add_relative_paths.
  intros (ports & s0 & [= <- <-] & H)%M_bind_inv.
  apply M_bind_inv in H as (modules & s0 & [= <- <-] & H).
  apply M_bind_inv in H as ([] & s & Hmodules & Hports).
  set (P := fun s : autoload =>
              entity_table s = Some tb /\ exclusion_list s = exclusion_list st
              /\ chassis_list s = chassis_list st /\ relative_path s !! parent = None).
  assert (forall x s s', P s ->
            (excluded ← gets exclusion_list;
             if bool_decide (x ∉ excluded) then
               parent_path ← read (fun self => get_relative_path self (S (S depth)) x);
               id ← read (fun self => _get_resource_id self (S (S depth)) x);
               modify (fun self =>
                 set_relative_path
                   (<[x := parent_path +:+ "/" +:+ id]> (relative_path self)) self)
             else
               l ← read (fun self => Py.remove x (module_list self));
               modify (set_module_list l)) s = Ok (tt, s') -> P s') as Hmodule.
  { clear -Hmissing. intros x s s' (Ht & Hex & Hc & Hpath). unfold P. munfold.
    case_bool_decide.
    - destruct (get_relative_path s (S (S depth)) x) as [pp|]; [|done].
      destruct (_get_resource_id s (S (S depth)) x) as [id|] eqn:Hid; [|done].
      intros [= <-]. simpl. repeat split; try done.
      destruct (decide (x = parent)) as [->|Hne];
        [|by rewrite lookup_insert_ne].
      destruct (missing_entry_has_no_path s tb (S depth) parent Ht Hmissing Hpath)
        as [Hno _]. congruence.
    - destruct (Py.remove x (module_list s)); [|done]. by intros [= <-]. }
  assert (forall x s s', P s ->
            (excluded ← gets exclusion_list;
             if bool_decide (x ∉ excluded) then
               parent_path ← read (fun self => get_relative_path self (S (S depth)) x);
               id ← read (fun self => _get_resource_id self (S (S depth)) x);
               path ← read (fun self =>
                         _get_port_relative_path self (S (S depth))
                           (parent_path +:+ "/" +:+ id));
               modify (fun self => set_relative_path (<[x := path]> (relative_path self)) self)
             else
               l ← read (fun self => Py.remove x (port_list self));
               modify (set_port_list l)) s = Ok (tt, s') -> P s') as Hone.
  { clear -Hmissing. intros x s s' (Ht & Hex & Hc & Hpath). unfold P. munfold.
    case_bool_decide.
    - destruct (get_relative_path s (S (S depth)) x) as [pp|]; [|done].
      destruct (_get_resource_id s (S (S depth)) x) as [id|] eqn:Hid; [|done].
      destruct (_get_port_relative_path s (S (S depth)) _) as [path|]; [|done].
      intros [= <-]. simpl. repeat split; try done.
      destruct (decide (x = parent)) as [->|Hne];
        [|by rewrite lookup_insert_ne].
      destruct (missing_entry_has_no_path s tb (S depth) parent Ht Hmissing Hpath)
        as [Hno _]. congruence.
    - destruct (Py.remove x (port_list s)); [|done]. by intros [= <-]. }
  assert (P s) as HP.
  { revert Hmodules. by apply (for_each_invariant P). }
  apply list_elem_of_split in Hport as (l1 & l2 & Hsplit). rewrite Hsplit in Hports.
  apply for_each_reaches in Hports as (s1 & s2 & Hl1 & Hbody).
  assert (P s1) as (Ht1 & Hex1 & Hc1 & Hpath1).
  { revert Hl1. by apply (for_each_invariant P). }
  revert Hbody. munfold. rewrite Hex1, bool_decide_eq_true_2 by done.
  rewrite (orphan_has_no_path s1 tb depth port parent row); try done.
  by rewrite Hc1.
Qed.

Lemma orphan_port_breaks_addressing_witness :
  exists e,
    add_relative_paths 100
      (set_entity_table (Some [(1, entity "-1" "0" "chassis"); (3, entity "1" "9" "port")])
         (set_chassis_list [1]
            (set_port_list [3] (set_relative_path (<[1 := "0"]> ∅) init))))
    = Raise e.
Proof.
  apply (orphan_port_breaks_addressing 100 _
           [(1, entity "-1" "0" "chassis"); (3, entity "1" "9" "port")]
           3 9 (entity "1" "9" "port")); try reflexivity; try lia.
  all: try (apply (bool_decide_unpack _); by vm_compute).
Defined.

Lemma contains_slash_append (a b : string) : contains "/" (a +:+ "/" +:+ b) = true.
Proof.
  apply contains_char_true. rewrite all_chars_app.
  change ("/" +:+ b) with (String "/" b). simpl. by rewrite andb_false_r.
Qed.

Lemma _get_port_relative_path_slash (self : autoload) (depth : nat)
    (relative_id path : string) :
  contains "/" relative_id = true ->
  _get_port_relative_path self depth relative_id = Ok path ->
  contains "/" path = true.
Proof.
  revert relative_id. induction depth as [|depth IH]; intros rid Hslash; [done|].
  destruct (last_segment_value rid) as [n|e] eqn:Hn.
  - rewrite (_get_port_relative_path_step self depth rid n Hn).
    case_bool_decide; [|by intros [= <-]].
    apply IH. by apply with_last_segment_split.
  - simpl. case_bool_decide; [|by intros [= <-]].
    rewrite Hslash. unfold last_segment_value, last_segment in Hn. rewrite Hslash in Hn.
    destruct (last_item (split "/" rid)) as [seg|]; simpl in *; [|done].
    destruct (int_of_str seg); simpl in *; done.
Qed.

Lemma slash_addresses_loop (body : Z -> M unit) :
  (forall x s s', body x s = Ok (tt, s') ->
     exclusion_list s' = exclusion_list s
     /\ ((x ∈ exclusion_list s /\ relative_path s' = relative_path s)
         \/ ((x ∉ exclusion_list s)
             /\ exists a, contains "/" a = true
                          /\ relative_path s' = <[x := a]> (relative_path s)))) ->
  forall (l : list Z) (st st' : autoload),
    for_each l body st = Ok (tt, st') ->
    exclusion_list st' = exclusion_list st
    /\ forall n,
         has_slash_address st n \/ (n ∈ l /\ n ∉ exclusion_list st) ->
         has_slash_address st' n.
Proof.
  intros Hbody. induction l as [|x l IH]; intros st st'; simpl.
  - intros [= <-]. split; [done|]. by intros n [?|[?%elem_of_nil _]].
  - intros ([] & s & Hx & Hrest)%M_bind_inv.
    apply Hbody in Hx as (Hex & Hx). apply IH in Hrest as (Hex' & Hrest).
    split; [congruence|]. intros n Hn. apply Hrest. rewrite Hex.
    destruct Hx as [[Hin Hsame]|(Hout & a & Ha & Hins)].
    + destruct Hn as [(b & Hb & ?)|[[->|?]%elem_of_cons ?]]; [|done|by right].
      left. exists b. by rewrite Hsame.
    + destruct (decide (n = x)) as [->|Hne].
      * left. exists a. by rewrite Hins, lookup_insert_eq.
      * destruct Hn as [(b & Hb & ?)|[[->|?]%elem_of_cons ?]]; [|done|by right].
        left. exists b. by rewrite Hins, lookup_insert_ne.
Qed.

(** Every address that [add_relative_paths] leaves for a listed module or
    port has the form [path/id]: it contains a slash, so the test
    ['/' in module_id] of [_get_module_attributes] holds for every listed
    module, and the branch of [_get_port_relative_path] for an address
    without a slash is never taken from here. *)
Theorem assigned_addresses_have_a_slash (recursion_limit : nat) (st st' : autoload) :
  add_relative_paths recursion_limit st = Ok (tt, st') ->
  forall n, n ∈ module_list st' \/ n ∈ port_list st' -> has_slash_address st' n.
Proof.
  intros Hrun.
  pose proof (add_relative_paths_spec _ _ _ Hrun) as (_ & _ & Hmodules & Hports).
  revert Hrun. unfold add_relative_paths.
  intros (ports & s0 & [= <- <-] & H)%M_bind_inv.
  apply M_bind_inv in H as (modules & s0 & [= <- <-] & H).
  apply M_bind_inv in H as ([] & s & Hm & Hp).
  apply slash_addresses_loop in Hm as (Hex & Hm).
  2:{ clear. intros x s s'. munfold. case_bool_decide as Hx.
      - destruct (get_relative_path s recursion_limit x) as [pp|]; [|done].
        destruct (_get_resource_id s recursion_limit x) as [id|]; [|done].
        intros [= <-]. split; [done|]. right. split; [done|].
        eexists. split; [apply contains_slash_append|done].
      - destruct (Py.remove x (module_list s)); [|done]. intros [= <-].
        split; [done|]. by left. }
  apply slash_addresses_loop in Hp as (Hex' & Hp).
  2:{ clear. intros x s s'. munfold. case_bool_decide as Hx.
      - destruct (get_relative_path s recursion_limit x) as [pp|]; [|done].
        destruct (_get_resource_id s recursion_limit x) as [id|]; [|done].
        destruct (_get_port_relative_path s recursion_limit _) as [path|] eqn:Hpath;
          [|done].
        intros [= <-]. split; [done|]. right. split; [done|].
        exists path. split; [|done].
        apply (_get_port_relative_path_slash _ _ _ _ (contains_slash_append pp id) Hpath).
      - destruct (Py.remove x (port_list s)); [|done]. intros [= <-].
        split; [done|]. by left. }
  intros n Hn. apply Hp. rewrite Hex.
  destruct Hn as [Hn|Hn].
  - left. apply Hm. right. rewrite Hmodules in Hn.
    apply list_elem_of_In, filter_In in Hn as [Hin Hout].
    split; [by apply list_elem_of_In|]. by apply bool_decide_eq_true in Hout.
  - right. rewrite Hports in Hn.
    apply list_elem_of_In, filter_In in Hn as [Hin Hout].
    split; [by apply list_elem_of_In|]. by apply bool_decide_eq_true in Hout.
Qed.

Lemma assigned_addresses_have_a_slash_witness :
  exists st',
    add_relative_paths 1000 colliding_ports = Ok (tt, st')
    /\ forall n, n ∈ module_list st' \/ n ∈ port_list st' -> has_slash_address st' n.
Proof.
  destruct (add_relative_paths 1000 colliding_ports) as [[[] st']|] eqn:Hrun;
    [|by vm_compute in Hrun].
  exists st'. split; [done|].
  apply (assigned_addresses_have_a_slash 1000 colliding_ports st' Hrun).
Defined.


(** ** Chassis resources *)

Lemma chassis_output_inventory (snmp : snmp_handler) (s s' : autoload) (chassis : Z)
    (out : resource * list attribute) :
  same_inventory s s' ->
  chassis_output snmp s' chassis out <-> chassis_output snmp s chassis out.
Proof.
  intros Hs. unfold chassis_output.
  assert (relative_path s' = relative_path s) as -> by (by rewrite Hs).
  by assert (entity_table s' = entity_table s) as -> by (by rewrite Hs).
Qed.

(** [_get_chassis_attributes] emits, for the chassis of its argument in
    order, one chassis resource each at the address of the chassis, with
    its two attributes; the model falls back to the description of the row
    when the model name is empty.  Nothing but the output collections and
    the query log changes. *)
Theorem chassis_resources_emitted (snmp : snmp_handler) (chassis_list : list Z)
    (st st' : autoload) :
  _get_chassis_attributes snmp chassis_list st = Ok (tt, st') ->
  same_inventory st st'
  /\ exists outs,
       Forall2 (chassis_output snmp st) chassis_list outs
       /\ resources st' = resources st ++ outs.*1
       /\ attributes st' = attributes st ++ concat (outs.*2).
Proof.
  unfold _get_chassis_attributes. revert st.
  induction chassis_list as [|chassis l IH]; intros st; simpl.
  - intros [= <-]. split; [apply same_inventory_refl|].
    exists []. by rewrite !app_nil_r.
  - intros ([] & s & Hbody & Hrest)%M_bind_inv.
    apply IH in Hrest as (Hs' & outs & Houts & Hres & Hattrs).
    apply M_bind_inv in Hbody as (paths & s0 & [= <- <-] & H).
    apply M_bind_inv in H as (address & s0 & [Haddr ->]%lift_inv & H).
    destruct (relative_path st !! chassis) as [a|] eqn:Hpath; [|done].
    injection Haddr as ->.
    unfold snmp_get_property in H. munfold. simpl in H.
    destruct (entity_table st) as [tb|] eqn:Ht; [|done]. simpl in H.
    destruct (QualiMibTable.get chassis tb) as [row|] eqn:Hrow.
    2:{ by destruct (decide (snmp_property snmp "ENTITY-MIB" "entPhysicalModelName" chassis
                             = "")). }
    assert (s = set_resources
                  (resources st ++ [mkResource ChassisResource None None address])
                  (set_attributes
                     (attributes st ++
                      [mkAttribute address "chassis_model"
                         (if decide (snmp_property snmp "ENTITY-MIB"
                                       "entPhysicalModelName" chassis = "")
                          then entPhysicalDescr row
                          else snmp_property snmp "ENTITY-MIB" "entPhysicalModelName"
                                 chassis);
                       mkAttribute address "serial_number"
                         (snmp_property snmp "ENTITY-MIB" "entPhysicalSerialNum" chassis)])
                     (set_snmp_log
                        (snmp_log st ++
                         [GetProperty "ENTITY-MIB" "entPhysicalModelName" chassis;
                          GetProperty "ENTITY-MIB" "entPhysicalSerialNum" chassis]) st)))
      as ->.
    { destruct (decide (snmp_property snmp "ENTITY-MIB" "entPhysicalModelName" chassis
                        = "")); simpl in H; injection H as <-;
        by rewrite <- app_assoc. }
    clear H. assert (same_inventory st
                       (set_resources
                          (resources st ++ [mkResource ChassisResource None None address])
                          (set_attributes
                             (attributes st ++
                              [mkAttribute address "chassis_model"
                                 (if decide (snmp_property snmp "ENTITY-MIB"
                                               "entPhysicalModelName" chassis = "")
                                  then entPhysicalDescr row
                                  else snmp_property snmp "ENTITY-MIB"
                                         "entPhysicalModelName" chassis);
                               mkAttribute address "serial_number"
                                 (snmp_property snmp "ENTITY-MIB" "entPhysicalSerialNum"
                                    chassis)])
                             (set_snmp_log
                                (snmp_log st ++
                                 [GetProperty "ENTITY-MIB" "entPhysicalModelName" chassis;
                                  GetProperty "ENTITY-MIB" "entPhysicalSerialNum" chassis])
                                st)))) as Hs
      by (by destruct st).
    split; [by apply (same_inventory_trans _ _ _ Hs)|].
    eexists ((_, _) :: outs). split; [|split].
    + constructor.
      * exists address, tb, row. simpl. done.
      * eapply Forall2_impl; [done|]. intros c out Hout.
        by apply (chassis_output_inventory snmp st _ c out Hs).
    + rewrite Hres. simpl. by rewrite <- app_assoc.
    + rewrite Hattrs. simpl. by rewrite <- app_assoc.
Qed.

Lemma chassis_resources_emitted_witness :
  exists st',
    _get_chassis_attributes empty_device [1] colliding_ports = Ok (tt, st')
    /\ same_inventory colliding_ports st'
    /\ exists outs,
         Forall2 (chassis_output empty_device colliding_ports) [1] outs
         /\ resources st' = outs.*1
         /\ attributes st' = concat (outs.*2).
Proof.
  destruct (_get_chassis_attributes empty_device [1] colliding_ports)
    as [[[] st']|] eqn:Hrun; [|by vm_compute in Hrun].
  exists st'. split; [done|].
  apply (chassis_resources_emitted empty_device [1] colliding_ports st' Hrun).
Defined.


(** ** Neighbours, duplex and auto-negotiation *)

Lemma _get_adjacent_cdp_keeps (interface_id : Z)
    (rows : QualiMibTable.t value aux_row) (acc result : string) :
  fold_result rows acc (_get_adjacent_cdp interface_id) = Ok result -> result = acc.
Proof.
  revert acc. induction rows as [|[key value] rows IH]; intros acc; simpl.
  - by intros [= <-].
  - destruct (has_field "cdpCacheDeviceId" value && has_field "cdpCacheDevicePort" value);
      [|apply IH].
    destruct (leading_digits (str_value key)) as [|c group]; [done|].
    apply IH.
Qed.

(** The adjacency of a port is empty unless the LLDP remote table has a row
    under the key ['lldpRemSysName'] and one under ['lldpRemPortDesc'] (the
    method tests the column names against the keys of the table): the CDP
    table never contributes, since the text matched in its key is compared
    with the integer index of the interface.  When the adjacency is not
    empty it comes from a row of the LLDP local table whose port
    description contains the name of the interface. *)
Theorem adjacency_only_from_named_remote_rows (tables : link_tables)
    (self : autoload) (interface_id : Z) (adjacent : string) :
  _get_adjacent tables self interface_id = Ok adjacent ->
  adjacent = ""
  \/ (QualiMibTable.mem (VStr "lldpRemSysName") (lldp_remote_table tables) = true
      /\ QualiMibTable.mem (VStr "lldpRemPortDesc") (lldp_remote_table tables) = true
      /\ exists key local remote tb row desc name port,
           (key, local) ∈ lldp_local_table tables
           /\ if_table self = Some tb
           /\ QualiMibTable.get interface_id tb = Ok row
           /\ field "lldpLocPortDesc" local = Ok desc
           /\ contains (ifDescr row) desc = true
           /\ QualiMibTable.get key (lldp_remote_table tables) = Ok remote
           /\ field "lldpRemSysName" remote = Ok name
           /\ field "lldpRemPortDesc" remote = Ok port
           /\ adjacent = name +:+ " through " +:+ port).
Proof.
  unfold _get_adjacent.
  destruct (fold_result (cdp_table tables) "" (_get_adjacent_cdp interface_id))
    as [result|] eqn:Hcdp; [|done].
  apply _get_adjacent_cdp_keeps in Hcdp as ->. simpl.
  destruct (negb (bool_decide (lldp_remote_table tables = []))); simpl;
    [|intros [= <-]; by left].
  assert (forall rows acc,
            (forall kv, kv ∈ rows -> kv ∈ lldp_local_table tables) ->
            _get_adjacent_lldp tables self interface_id rows acc = Ok adjacent ->
            adjacent = acc
            \/ (QualiMibTable.mem (VStr "lldpRemSysName") (lldp_remote_table tables) = true
                /\ QualiMibTable.mem (VStr "lldpRemPortDesc") (lldp_remote_table tables)
                   = true
                /\ exists key local remote tb row desc name port,
                     (key, local) ∈ lldp_local_table tables
                     /\ if_table self = Some tb
                     /\ QualiMibTable.get interface_id tb = Ok row
                     /\ field "lldpLocPortDesc" local = Ok desc
                     /\ contains (ifDescr row) desc = true
                     /\ QualiMibTable.get key (lldp_remote_table tables) = Ok remote
                     /\ field "lldpRemSysName" remote = Ok name
                     /\ field "lldpRemPortDesc" remote = Ok port
                     /\ adjacent = name +:+ " through " +:+ port)) as Hloop.
  { induction rows as [|[key local] rows IH]; intros acc Hsub; simpl.
    - intros [= <-]. by left.
    - assert (forall kv, kv ∈ rows -> kv ∈ lldp_local_table tables) as Hsub'
        by (intros kv Hkv; apply Hsub; by right).
      destruct (if_table self) as [tb|] eqn:Ht; [|done]. simpl.
      destruct (QualiMibTable.get interface_id tb) as [row|] eqn:Hrow; [|done]. simpl.
      destruct (decide (ifDescr row = "")); [intros [= <-]; by left|].
      destruct (has_field "lldpLocPortDesc" local); [|by apply IH].
      destruct (field "lldpLocPortDesc" local) as [desc|] eqn:Hdesc; [|done]. simpl.
      destruct (contains (ifDescr row) desc) eqn:Hin; [|by apply IH].
      destruct (QualiMibTable.mem (VStr "lldpRemSysName") (lldp_remote_table tables))
        eqn:Hname; [|by apply IH].
      destruct (QualiMibTable.mem (VStr "lldpRemPortDesc") (lldp_remote_table tables))
        eqn:Hport; [|by apply IH]. simpl.
      destruct (QualiMibTable.get key (lldp_remote_table tables)) as [remote|] eqn:Hremote;
        [|done]. simpl.
      destruct (field "lldpRemSysName" remote) as [name|] eqn:Hn; [|done]. simpl.
      destruct (field "lldpRemPortDesc" remote) as [port|] eqn:Hp; [|done]. simpl.
      intros Hrest. destruct (IH _ Hsub' Hrest) as [->|?]; [|by right].
      right. split; [done|]. split; [done|].
      exists key, local, remote, tb, row, desc, name, port.
      repeat split; try done. apply Hsub. by left. }
  by apply Hloop.
Qed.

Lemma adjacency_only_from_named_remote_rows_witness :
  "core-sw through Ethernet1/1" = ""
  \/ (QualiMibTable.mem (VStr "lldpRemSysName") (lldp_remote_table lldp_tables) = true
      /\ QualiMibTable.mem (VStr "lldpRemPortDesc") (lldp_remote_table lldp_tables) = true
      /\ exists key local remote tb row desc name port,
           (key, local) ∈ lldp_local_table lldp_tables
           /\ if_table (set_if_table (Some [(10, mkIfRow "GigabitEthernet0/1" "10")]) init)
              = Some tb
           /\ QualiMibTable.get 10 tb = Ok row
           /\ field "lldpLocPortDesc" local = Ok desc
           /\ contains (ifDescr row) desc = true
           /\ QualiMibTable.get key (lldp_remote_table lldp_tables) = Ok remote
           /\ field "lldpRemSysName" remote = Ok name
           /\ field "lldpRemPortDesc" remote = Ok port
           /\ "core-sw through Ethernet1/1" = name +:+ " through " +:+ port).
Proof.
  apply (adjacency_only_from_named_remote_rows lldp_tables
           (set_if_table (Some [(10, mkIfRow "GigabitEthernet0/1" "10")]) init) 10
           "core-sw through Ethernet1/1").
  by vm_compute.
Defined.

(** The CDP row of [lldp_tables] is keyed [10.1] and interface 10 is asked
    for: without the rows named after the columns the adjacency is empty. *)
Example adjacency_without_named_rows :
  _get_adjacent
    {| lldp_local_table := lldp_local_table lldp_tables;
       lldp_remote_table :=
         [(VInt 7, [("lldpRemSysName", "core-sw"); ("lldpRemPortDesc", "Ethernet1/1")])];
       cdp_table := cdp_table lldp_tables;
       duplex_table := []; port_channel_ports := [] |}
    (set_if_table (Some [(10, mkIfRow "GigabitEthernet0/1" "10")]) init) 10
  = Ok "".
Proof. by vm_compute. Qed.

Lemma only_logs_refl (s : autoload) : only_logs s s.
Proof. unfold only_logs. by destruct s. Qed.

Lemma only_logs_trans (s1 s2 s3 : autoload) :
  only_logs s1 s2 -> only_logs s2 s3 -> only_logs s1 s3.
Proof. unfold only_logs. intros -> ->. by destruct s1. Qed.

Lemma only_logs_inventory (s s' : autoload) : only_logs s s' -> same_inventory s s'.
Proof. unfold only_logs, same_inventory. intros ->. by destruct s. Qed.

Lemma _get_interface_details_row_spec (snmp : snmp_handler) (port_index : Z)
    (acc : string) (item : Z * aux_row) (s : autoload) :
  exists s',
    _get_interface_details_row snmp port_index acc item s
    = Ok (if half_duplex_row snmp port_index item then "Half" else acc, s')
    /\ only_logs s s'.
Proof.
  destruct item as [key row].
  unfold _get_interface_details_row, half_duplex_row, has_field, field. simpl.
  destruct (assoc "dot3StatsIndex" row) as [index|];
    [|exists s; split; [done|apply only_logs_refl]].
  unfold lift, mbind at 1, M_bind.
  destruct (decide (index = Py.str port_index)) as [->|Hne].
  - rewrite bool_decide_eq_true_2 by done.
    unfold snmp_get_property, log, modify, mbind, M_bind, mret, M_ret. simpl.
    eexists. split; [by destruct (contains "halfDuplex" _)|]. by destruct s.
  - rewrite bool_decide_eq_false_2 by done. exists s.
    split; [done|apply only_logs_refl].
Qed.

Lemma _get_interface_details_loop (snmp : snmp_handler) (port_index : Z)
    (rows : QualiMibTable.t Z aux_row) (acc : string) (s : autoload) :
  exists s',
    fold_each rows acc (_get_interface_details_row snmp port_index) s
    = Ok (if existsb (half_duplex_row snmp port_index) rows then "Half" else acc, s')
    /\ only_logs s s'.
Proof.
  revert acc s. induction rows as [|item rows IH]; intros acc s; simpl.
  - exists s. split; [done|apply only_logs_refl].
  - destruct (_get_interface_details_row_spec snmp port_index acc item s)
      as (s1 & Hitem & Hs1).
    destruct (IH (if half_duplex_row snmp port_index item then "Half" else acc) s1)
      as (s' & Hrest & Hs').
    exists s'. split; [|by apply (only_logs_trans _ s1)].
    unfold mbind, M_bind. rewrite Hitem, Hrest.
    by destruct (half_duplex_row snmp port_index item), (existsb _ rows).
Qed.

(** [_get_interface_details], once the tables are loaded, always returns:
    a failure of the auto-negotiation query leaves the default.  The duplex is [Half] exactly
    when some row of the duplex table carries the index of the port and the
    device reports a status containing [halfDuplex] for the key of that row,
    and [Full] otherwise; auto-negotiation is [True] exactly when the query
    answers a text that contains [enabled], whatever its case, and [False]
    otherwise.  Only the query log changes. *)
Theorem interface_details_defaults (snmp : snmp_handler)
    (snmp_get_auto_negotiation : Z -> result string) (tables : link_tables)
    (port_index : Z) (st : autoload) :
  exists details st',
    _get_interface_details snmp snmp_get_auto_negotiation tables port_index st
    = Ok (details, st')
    /\ only_logs st st'
    /\ (duplex details = "Half" \/ duplex details = "Full")
    /\ (duplex details = "Half" <->
        exists key row,
          (key, row) ∈ duplex_table tables
          /\ field "dot3StatsIndex" row = Ok (Py.str port_index)
          /\ contains "halfDuplex"
               (snmp_property snmp "EtherLike-MIB" "dot3StatsDuplexStatus" key) = true)
    /\ (auto_negotiation details = "True" \/ auto_negotiation details = "False")
    /\ (auto_negotiation details = "True" <->
        exists answer,
          snmp_get_auto_negotiation port_index = Ok answer
          /\ contains "enabled" (lower answer) = true).
Proof.
  destruct (_get_interface_details_loop snmp port_index (duplex_table tables) "Full"
              (set_snmp_log
                 (snmp_log st ++ [Get "MAU-MIB" "ifMauAutoNegAdminStatus" port_index]) st))
    as (s' & Hrun & Hs).
  unfold _get_interface_details, log, modify, mbind, M_bind. rewrite Hrun.
  eexists _, s'. split; [reflexivity|]. simpl.
  split; [refine (only_logs_trans _ _ _ _ Hs); by destruct st|]. split; [by destruct (existsb _ _); auto|]. split.
  - destruct (existsb _ _) eqn:Hex.
    + split; [intros _|done]. apply existsb_exists in Hex as ([key row] & Hin & Hrow).
      exists key, row. split; [by apply list_elem_of_In|].
      unfold half_duplex_row, field in *. simpl in Hrow.
      destruct (assoc "dot3StatsIndex" row) as [index|]; [|done].
      apply andb_prop in Hrow as [->%bool_decide_eq_true ?]. done.
    + split; [done|]. intros (key & row & Hin & Hf & Hhalf).
      assert (existsb (half_duplex_row snmp port_index) (duplex_table tables) = true)
        as Hyes; [|congruence].
      apply existsb_exists. exists (key, row). split; [by apply list_elem_of_In|].
      unfold half_duplex_row, field in *. simpl.
      destruct (assoc "dot3StatsIndex" row) as [index|]; [|done].
      injection Hf as ->. by rewrite bool_decide_eq_true_2.
  - destruct (snmp_get_auto_negotiation port_index) as [answer|e].
    + destruct (contains "enabled" (lower answer)) eqn:Hen.
      * split; [by left|]. split; [|done]. intros _. by exists answer.
      * split; [by right|]. split; [done|]. intros (a & [= <-] & ?). congruence.
    + split; [by right|]. split; [done|]. by intros (a & ? & _).
Qed.

(** ** Port channels *)

Lemma _get_associated_ports_row_spec (self : autoload) (item_id : Z) (acc result : string)
    (key : Z) (value : aux_row) :
  _get_associated_ports_row self item_id acc (key, value) = Ok result ->
  exists attached,
    assoc "dot3adAggPortAttachedAggID" value = Some attached
    /\ if contains (Py.str item_id) attached
       then exists tb row, if_table self = Some tb
                           /\ QualiMibTable.get key tb = Ok row
                           /\ result = acc +:+ port_label row
       else result = acc.
Proof.
  unfold _get_associated_ports_row, field.
  destruct (assoc "dot3adAggPortAttachedAggID" value) as [attached|]; [|done].
  simpl. intros H. exists attached. split; [done|].
  destruct (contains (Py.str item_id) attached); [|by injection H].
  destruct (if_table self) as [tb|]; [|done]. simpl in H.
  destruct (QualiMibTable.get key tb) as [row|] eqn:Hrow; [|done]. simpl in H.
  injection H as <-. by exists tb, row.
Qed.

Lemma _get_associated_ports_loop (self : autoload) (item_id : Z)
    (rows : QualiMibTable.t Z aux_row) (acc result : string) :
  fold_result rows acc (_get_associated_ports_row self item_id) = Ok result ->
  (forall item, item ∈ rows -> has_field "dot3adAggPortAttachedAggID" item.2 = true)
  /\ exists labels,
       Forall2 (fun (item : Z * aux_row) label =>
                  exists tb row, if_table self = Some tb
                                 /\ QualiMibTable.get item.1 tb = Ok row
                                 /\ label = port_label row)
               (attached_rows item_id rows) labels
       /\ result = acc +:+ concat_strings labels.
Proof.
  revert acc. induction rows as [|[key value] rows IH]; intros acc.
  - intros [= <-]. split; [by intros ? ?%elem_of_nil|].
    exists []. split; [constructor|]. by rewrite append_empty_r.
  - change (fold_result ((key, value) :: rows) acc (_get_associated_ports_row self item_id))
      with (acc' ← _get_associated_ports_row self item_id acc (key, value);
            fold_result rows acc' (_get_associated_ports_row self item_id)).
    destruct (_get_associated_ports_row self item_id acc (key, value)) as [acc'|] eqn:Hrow;
      [|done].
    simpl. intros (Hfields & labels & Hlabels & ->)%IH.
    apply _get_associated_ports_row_spec in Hrow as (attached & Hfield & Hrow).
    split.
    + intros item [->|?]%elem_of_cons; [|by apply Hfields].
      unfold has_field. simpl. by rewrite Hfield.
    + unfold attached_rows. simpl. rewrite Hfield.
      destruct (contains (Py.str item_id) attached).
      * destruct Hrow as (tb & row & Ht & Hget & ->).
        exists (port_label row :: labels). split.
        -- constructor; [|done]. by exists tb, row.
        -- simpl. by rewrite !append_assoc.
      * subst acc'. by exists labels.
Qed.

(** The members of a port channel are found by a substring test: a row of
    the aggregation table is taken when the decimal form of the index of
    the port channel occurs in its aggregator id, so port channel 1 also
    takes the ports attached to aggregator 10.  The attribute is the
    concatenation, in table order, of the interface names of these rows,
    slashes turned into dashes and blanks removed, each followed by a
    semicolon and a blank, blanks at both ends stripped.  Every row of the
    table must have the column. *)
Theorem associated_ports_by_substring (tables : link_tables) (self : autoload)
    (item_id : Z) (result : string) :
  _get_associated_ports tables self item_id = Ok result ->
  (forall item, item ∈ port_channel_ports tables ->
     has_field "dot3adAggPortAttachedAggID" item.2 = true)
  /\ exists labels,
       Forall2 (fun (item : Z * aux_row) label =>
                  exists tb row, if_table self = Some tb
                                 /\ QualiMibTable.get item.1 tb = Ok row
                                 /\ label = port_label row)
               (attached_rows item_id (port_channel_ports tables)) labels
       /\ result = strip_chars [" "; "009"; "010"; "013"]%char (concat_strings labels).
Proof.
  unfold _get_associated_ports.
  destruct (fold_result _ _ _) as [r|] eqn:Hloop; [|done]. simpl. intros [= <-].
  apply _get_associated_ports_loop in Hloop as (Hfields & labels & Hlabels & ->).
  split; [done|]. by exists labels.
Qed.

Lemma associated_ports_by_substring_witness :
  (forall item, item ∈ port_channel_ports aggregation_tables ->
     has_field "dot3adAggPortAttachedAggID" item.2 = true)
  /\ exists labels,
       Forall2 (fun (item : Z * aux_row) label =>
                  exists tb row, if_table three_interfaces = Some tb
                                 /\ QualiMibTable.get item.1 tb = Ok row
                                 /\ label = port_label row)
               (attached_rows 1 (port_channel_ports aggregation_tables)) labels
       /\ "GigabitEthernet0-1; GigabitEthernet0-2;"
          = strip_chars [" "; "009"; "010"; "013"]%char (concat_strings labels).
Proof.
  apply (associated_ports_by_substring aggregation_tables three_interfaces 1
           "GigabitEthernet0-1; GigabitEthernet0-2;").
  by vm_compute.
Defined.

(** ** Port resources *)

Lemma _get_interface_details_run (snmp : snmp_handler)
    (snmp_get_auto_negotiation : Z -> result string) (tables : link_tables)
    (port_index : Z) (st : autoload) :
  exists details st',
    _get_interface_details snmp snmp_get_auto_negotiation tables port_index st
    = Ok (details, st')
    /\ only_logs st st'.
Proof.
  destruct (_get_interface_details_loop snmp port_index (duplex_table tables) "Full"
              (set_snmp_log
                 (snmp_log st ++ [Get "MAU-MIB" "ifMauAutoNegAdminStatus" port_index]) st))
    as (s' & Hrun & Hs).
  unfold _get_interface_details, log, modify, mbind, M_bind. rewrite Hrun.
  eexists _, s'. split; [reflexivity|].
  refine (only_logs_trans _ _ _ _ Hs). unfold only_logs. by destruct st.
Qed.

Lemma port_interface_name_inventory (s s' : autoload) (port : Z) :
  same_inventory s s' -> port_interface_name s' port = port_interface_name s port.
Proof. intros ->. reflexivity. Qed.

Lemma same_inventory_log (s : autoload) (q : list snmp_query) :
  same_inventory s (set_snmp_log q s).
Proof. unfold same_inventory. by destruct s. Qed.

Lemma _get_ports_attributes_port_spec (snmp : snmp_handler)
    (snmp_get_auto_negotiation : Z -> result string) (tables : link_tables)
    (port : Z) (s s' : autoload) :
  _get_ports_attributes_port snmp snmp_get_auto_negotiation tables port s = Ok (tt, s') ->
  same_inventory s s'
  /\ if port_is_named s port
     then exists out, port_output s port out
                      /\ resources s' = resources s ++ [out.1]
                      /\ attributes s' = attributes s ++ out.2
     else resources s' = resources s /\ attributes s' = attributes s.
Proof.
  unfold _get_ports_attributes_port, port_is_named, port_interface_name.
  intros (tb & s0 & [Ht ->]%attr_inv & H)%M_bind_inv. rewrite Ht. simpl.
  apply M_bind_inv in H as (mapping & s0 & [= <- <-] & H).
  apply M_bind_inv in H as (port_id & s0 & [Hid ->]%lift_inv & H).
  destruct (port_mapping s !! port) as [i|] eqn:Hmap; [|done]. injection Hid as ->. simpl.
  apply M_bind_inv in H as (row & s0 & [Hrow ->]%lift_inv & H). rewrite Hrow. simpl.
  apply M_bind_inv in H as ([] & s1 & Hlog & H).
  unfold log, modify in Hlog. injection Hlog as <-.
  match type of H with _ _ ?st = _ => assert (same_inventory s st) as Hs1
    by apply same_inventory_log end.
  apply M_bind_inv in H as (name & s2 & Hname & H).
  assert (s2 = set_snmp_log
                 (snmp_log s ++
                  [GetProperties "IF-MIB" port_id
                     ["ifType"; "ifPhysAddress"; "ifMtu"; "ifSpeed"]]) s
          /\ (if decide (delete_char "'" (ifDescr row) = "")
              then entities ← attr_of (entity_table s);
                   entity ← QualiMibTable.get port entities;
                   Ok (entPhysicalName entity)
              else Ok (delete_char "'" (ifDescr row))) = Ok name) as [-> Hname'].
  { destruct (decide (delete_char "'" (ifDescr row) = "")).
    - apply M_bind_inv in Hname as (entities & s3 & [He ->]%attr_inv & Hname).
      apply M_bind_inv in Hname as (entity & s3 & [Hentity ->]%lift_inv & [= <- <-]).
      simpl in He. rewrite He. simpl. by rewrite Hentity.
    - by injection Hname as <- <-. }
  rewrite Hname'. clear Hname.
  destruct (decide (name = "")) as [->|Hnamed].
  { injection H as <-. simpl. split; [done|]. done. }
  rewrite (proj2 (String.eqb_neq name "") Hnamed). simpl.
  apply M_bind_inv in H as (description & s3 & Hdescr & H).
  unfold snmp_get_property, log, modify, mbind, M_bind, mret, M_ret in Hdescr.
  injection Hdescr as <- <-.
  apply M_bind_inv in H as (adjacent & s4 & [Hadj ->]%read_inv & H).
  apply M_bind_inv in H as (details & s4 & Hdetails & H).
  match type of Hdetails with _ _ _ _ _ ?st = _ =>
    destruct (_get_interface_details_run snmp snmp_get_auto_negotiation tables port_id st)
      as (d' & s4' & Hrun & Hs4); rewrite Hrun in Hdetails;
    assert (only_logs s st) as Hs3 by (unfold only_logs; by destruct s)
  end.
  injection Hdetails as <- <-.
  apply M_bind_inv in H as (addresses & s5 & [Haddr ->]%read_inv & H).
  apply M_bind_inv in H as (paths & s5 & [= <- <-] & H).
  apply M_bind_inv in H as (address & s5 & [Hpath ->]%lift_inv & H).
  assert (only_logs s s4') as Hs by (by apply (only_logs_trans _ _ _ Hs3)).
  assert (relative_path s4' = relative_path s) as Hpaths by (by rewrite Hs).
  rewrite Hpaths in Hpath.
  destruct (relative_path s !! port) as [a|] eqn:Ha; [|done]. injection Hpath as ->.
  unfold _add_resource, modify in H. injection H as <-. split.
  - apply (same_inventory_trans _ s4'); [by apply only_logs_inventory|].
    unfold same_inventory. by destruct s4'.
  - eexists (_, _). split; [|split]; cycle 1.
    + simpl. assert (resources s4' = resources s) as -> by (by rewrite Hs). reflexivity.
    + simpl. assert (attributes s4' = attributes s) as -> by (by rewrite Hs). reflexivity.
    + exists name, address. unfold port_interface_name.
      rewrite Ht, Hmap. simpl. rewrite Hrow. simpl.
      split; [exact Hname'|]. by split.
Qed.

Lemma port_output_inventory (s s' : autoload) (port : Z) (out : resource * list attribute) :
  same_inventory s s' -> port_output s' port out -> port_output s port out.
Proof. unfold port_output, port_interface_name. intros ->. simpl. done. Qed.

Lemma port_is_named_inventory (s s' : autoload) (port : Z) :
  same_inventory s s' -> port_is_named s' port = port_is_named s port.
Proof. intros ->. reflexivity. Qed.

Lemma _get_ports_attributes_loop (snmp : snmp_handler)
    (snmp_get_auto_negotiation : Z -> result string) (tables : link_tables)
    (ports : list Z) (s s' : autoload) :
  for_each ports (_get_ports_attributes_port snmp snmp_get_auto_negotiation tables) s
  = Ok (tt, s') ->
  same_inventory s s'
  /\ exists outs,
       Forall2 (port_output s) (List.filter (port_is_named s) ports) outs
       /\ resources s' = resources s ++ outs.*1
       /\ attributes s' = attributes s ++ concat outs.*2.
Proof.
  revert s. induction ports as [|port ports IH]; intros s; simpl.
  - intros [= <-]. split; [apply same_inventory_refl|]. exists []. simpl.
    rewrite !app_nil_r. by split; [constructor|].
  - intros ([] & s1 & Hport & Hrest)%M_bind_inv.
    apply _get_ports_attributes_port_spec in Hport as [Hs1 Hport].
    apply IH in Hrest as (Hs' & outs & Houts & Hres & Hattrs).
    split; [by apply (same_inventory_trans _ s1)|].
    assert (List.filter (port_is_named s1) ports = List.filter (port_is_named s) ports)
      as Hfilter.
    { apply filter_ext. intros port'. by apply port_is_named_inventory. }
    rewrite Hfilter in Houts.
    assert (Forall2 (port_output s) (List.filter (port_is_named s) ports) outs) as Houts'.
    { eapply Forall2_impl; [exact Houts|]. intros port' out.
      by apply port_output_inventory. }
    destruct (port_is_named s port).
    + destruct Hport as (out & Hout & Hres1 & Hattrs1). exists (out :: outs). simpl.
      split; [by constructor|]. rewrite Hres, Hres1, Hattrs, Hattrs1, <- !app_assoc. done.
    + destruct Hport as [Hres1 Hattrs1]. exists outs.
      split; [done|]. by rewrite Hres, Hres1, Hattrs, Hattrs1.
Qed.

(** [_get_ports_attributes], lines 486-514: a run that completes adds to
    the output one port resource for each port of [port_list] whose
    interface has a name, in the order of the list, under the address that
    [relative_path] holds for the port, followed by its ten attributes; a
    port whose interface descriptor and physical name are both empty adds
    nothing, and nothing but the output collections and the query log
    changes. *)
Theorem named_ports_emitted (snmp : snmp_handler)
    (snmp_get_auto_negotiation : Z -> result string) (tables : link_tables)
    (st st' : autoload) :
  _get_ports_attributes snmp snmp_get_auto_negotiation tables st = Ok (tt, st') ->
  same_inventory st st'
  /\ exists outs,
       Forall2 (port_output st) (List.filter (port_is_named st) (port_list st)) outs
       /\ resources st' = resources st ++ outs.*1
       /\ attributes st' = attributes st ++ concat outs.*2.
Proof.
  unfold _get_ports_attributes.
  intros (ports & s & [= <- <-] & Hloop)%M_bind_inv.
  by apply _get_ports_attributes_loop in Hloop.
Qed.

Lemma named_ports_emitted_witness :
  exists st',
    _get_ports_attributes empty_device (fun _ => Ok "'enabled'") lldp_tables two_ports
    = Ok (tt, st')
    /\ same_inventory two_ports st'
    /\ exists outs,
         Forall2 (port_output two_ports) [3] outs
         /\ resources st' = outs.*1
         /\ attributes st' = concat outs.*2.
Proof.
  destruct (_get_ports_attributes empty_device (fun _ => Ok "'enabled'") lldp_tables
              two_ports) as [[[] st']|] eqn:Hrun; [|by vm_compute in Hrun].
  exists st'. split; [done|].
  apply (named_ports_emitted empty_device (fun _ => Ok "'enabled'") lldp_tables
           two_ports st' Hrun).
Defined.

(** ** Port channel resources *)

Lemma _get_port_channels_item_spec (snmp : snmp_handler) (tables : link_tables)
    (item : Z * if_row) (s s' : autoload) :
  _get_port_channels_item snmp tables item s = Ok (tt, s') ->
  same_inventory s s'
  /\ if negb (String.eqb (trailing_digits (ifDescr item.2)) "")
     then exists out, port_channel_output item out
                      /\ resources s' = resources s ++ [out.1]
                      /\ attributes s' = attributes s ++ out.2
     else resources s' = resources s /\ attributes s' = attributes s.
Proof.
  destruct item as [key value]. unfold _get_port_channels_item, port_channel_output. simpl.
  destruct (trailing_digits (ifDescr value)) as [|c digits] eqn:Hdigits.
  { intros [= <-]. simpl. split; [apply same_inventory_refl|done]. }
  simpl. intros (description & s1 & Hdescr & H)%M_bind_inv.
  unfold snmp_get_property, log, modify, mbind, M_bind, mret, M_ret in Hdescr.
  injection Hdescr as <- <-.
  apply M_bind_inv in H as (associated & s2 & [Hports ->]%read_inv & H).
  apply M_bind_inv in H as (addresses & s2 & [Haddr ->]%read_inv & H).
  unfold _add_resource, modify in H. injection H as <-. split.
  - unfold same_inventory. by destruct s.
  - eexists (_, _). simpl. split; [|split; reflexivity]. by split.
Qed.

Lemma _get_port_channels_loop (snmp : snmp_handler) (tables : link_tables)
    (items : list (Z * if_row)) (s s' : autoload) :
  for_each items (_get_port_channels_item snmp tables) s = Ok (tt, s') ->
  same_inventory s s'
  /\ exists outs,
       Forall2 port_channel_output
         (List.filter (fun item : Z * if_row =>
                         negb (String.eqb (trailing_digits (ifDescr item.2)) "")) items)
         outs
       /\ resources s' = resources s ++ outs.*1
       /\ attributes s' = attributes s ++ concat outs.*2.
Proof.
  revert s. induction items as [|item items IH]; intros s; simpl.
  - intros [= <-]. split; [apply same_inventory_refl|]. exists []. simpl.
    rewrite !app_nil_r. by split; [constructor|].
  - intros ([] & s1 & Hitem & Hrest)%M_bind_inv.
    apply _get_port_channels_item_spec in Hitem as [Hs1 Hitem].
    apply IH in Hrest as (Hs' & outs & Houts & Hres & Hattrs).
    split; [by apply (same_inventory_trans _ s1)|].
    destruct (negb (String.eqb (trailing_digits (ifDescr item.2)) "")).
    + destruct Hitem as (out & Hout & Hres1 & Hattrs1). exists (out :: outs). simpl.
      split; [by constructor|]. rewrite Hres, Hres1, Hattrs, Hattrs1, <- !app_assoc. done.
    + destruct Hitem as [Hres1 Hattrs1]. exists outs.
      split; [done|]. by rewrite Hres, Hres1, Hattrs, Hattrs1.
Qed.

Lemma filter_Permutation {A} (f : A -> bool) (l1 l2 : list A) :
  l1 ≡ₚ l2 -> List.filter f l1 ≡ₚ List.filter f l2.
Proof.
  induction 1 as [|x l1 l2 _ IH|x y l|l1 l2 l3 _ IH1 _ IH2]; simpl.
  - done.
  - destruct (f x); by rewrite IH.
  - destruct (f x), (f y); try done. apply perm_swap.
  - by etrans.
Qed.

(** [_get_port_channels], lines 446-472: a run that completes adds to the
    output one port channel resource for each interface whose descriptor
    contains [channel], contains no dot and ends in digits, at the address
    [PC] followed by those digits, with its four attributes. The resources
    come in the order in which the dictionary of candidates is iterated,
    which is some arrangement of the rows of the interface table; an
    interface whose descriptor lacks the final digits adds nothing, and
    nothing but the output collections and the query log changes. *)
Theorem port_channels_emitted (snmp : snmp_handler)
    (dict_items : list (Z * if_row) -> list (Z * if_row)) (tables : link_tables)
    (st st' : autoload) :
  (forall l, dict_items l ≡ₚ l) ->
  _get_port_channels snmp dict_items tables st = Ok (tt, st') ->
  same_inventory st st'
  /\ exists tb items outs,
       if_table st = Some tb
       /\ items ≡ₚ List.filter is_port_channel tb
       /\ Forall2 port_channel_output items outs
       /\ resources st' = resources st ++ outs.*1
       /\ attributes st' = attributes st ++ concat outs.*2.
Proof.
  intros Hitems. unfold _get_port_channels.
  intros (tb & s & [Htb ->]%attr_inv & H)%M_bind_inv.
  assert (for_each
            (dict_items
               (List.filter (fun item : Z * if_row =>
                               contains "channel" (ifDescr item.2)
                               && negb (contains "." (ifDescr item.2))) tb))
            (_get_port_channels_item snmp tables) st = Ok (tt, st')) as Hloop.
  { destruct tb as [|row tb]; [|done]. injection H as <-.
    specialize (Hitems []). apply Permutation_nil_r in Hitems. simpl. by rewrite Hitems. }
  clear H. apply _get_port_channels_loop in Hloop as (Hs & outs & Houts & Hres & Hattrs).
  split; [done|]. eexists tb, _, outs. split; [done|]. split; [|done].
  etrans; [apply filter_Permutation, Hitems|].
  unfold is_port_channel. clear. induction tb as [|row tb IH]; [done|]. simpl.
  destruct (contains "channel" (ifDescr row.2) && negb (contains "." (ifDescr row.2)));
    simpl; [|done].
  destruct (negb (String.eqb (trailing_digits (ifDescr row.2)) "")); by rewrite ?IH.
Qed.

Lemma port_channels_emitted_witness :
  exists st',
    _get_port_channels empty_device id aggregation_tables two_ports = Ok (tt, st')
    /\ same_inventory two_ports st'
    /\ exists tb items outs,
         if_table two_ports = Some tb
         /\ items ≡ₚ List.filter is_port_channel tb
         /\ Forall2 port_channel_output items outs
         /\ resources st' = outs.*1
         /\ attributes st' = concat outs.*2.
Proof.
  destruct (_get_port_channels empty_device id aggregation_tables two_ports)
    as [[[] st']|] eqn:Hrun; [|by vm_compute in Hrun].
  exists st'. split; [done|].
  apply (port_channels_emitted empty_device id aggregation_tables two_ports st');
    [done|exact Hrun].
Defined.

(** ** The order of the resources that [discover] returns *)

Section Emits.

Context {A B : Type} (P : resource -> Prop).

Lemma emits_ret (a : A) : emits P (mret a).
Proof. intros s a' s' [= <- <-]. exists []. by rewrite app_nil_r. Qed.

Lemma emits_lift (r : result A) : emits P (lift r).
Proof. intros s a s' [_ ->]%lift_inv. exists []. by rewrite app_nil_r. Qed.

Lemma emits_gets (f : autoload -> A) : emits P (gets f).
Proof. intros s a s' [= <- <-]. exists []. by rewrite app_nil_r. Qed.

Lemma emits_attr (f : autoload -> option A) : emits P (attr f).
Proof. intros s a s' [_ ->]%attr_inv. exists []. by rewrite app_nil_r. Qed.

Lemma emits_read (f : autoload -> result A) : emits P (read f).
Proof. intros s a s' [_ ->]%read_inv. exists []. by rewrite app_nil_r. Qed.

Lemma emits_raise (e : exn) : emits P (raise e : M A).
Proof. by intros s a s'. Qed.

Lemma emits_modify (f : autoload -> autoload) :
  (forall s, resources (f s) = resources s) -> emits P (modify f).
Proof. intros Hf s [] s' [= <-]. exists []. by rewrite app_nil_r, Hf. Qed.

Lemma emits_log (q : snmp_query) : emits P (log q).
Proof. by apply emits_modify. Qed.

Lemma emits_add_resource (r : resource) (kwargs : list (string * string)) :
  P r -> emits P (_add_resource r kwargs).
Proof. intros Hr s [] s' [= <-]. exists [r]. split; [done|by constructor]. Qed.

Lemma emits_bind (m : M A) (k : A -> M B) :
  emits P m -> (forall a, emits P (k a)) -> emits P (m ≫= k).
Proof.
  intros Hm Hk s b s' (a & s1 & H1 & H2)%M_bind_inv.
  destruct (Hm _ _ _ H1) as (rs1 & Heq1 & Hrs1).
  destruct (Hk _ _ _ _ H2) as (rs2 & Heq2 & Hrs2).
  exists (rs1 ++ rs2). split; [by rewrite Heq2, Heq1, app_assoc|by apply Forall_app].
Qed.

Lemma emits_for_each (l : list A) (body : A -> M unit) :
  (forall x, emits P (body x)) -> emits P (for_each l body).
Proof.
  intros Hbody. induction l as [|x l IH]; simpl.
  - intros s [] s' [= <-]. exists []. by rewrite app_nil_r.
  - intros s [] s' ([] & s1 & H1 & H2)%M_bind_inv.
    destruct (Hbody _ _ _ _ H1) as (rs1 & Heq1 & Hrs1).
    destruct (IH _ _ _ H2) as (rs2 & Heq2 & Hrs2).
    exists (rs1 ++ rs2). split; [by rewrite Heq2, Heq1, app_assoc|by apply Forall_app].
Qed.

Lemma emits_fold_each (l : list A) (acc : B) (body : B -> A -> M B) :
  (forall acc x, emits P (body acc x)) -> emits P (fold_each l acc body).
Proof.
  intros Hbody. revert acc. induction l as [|x l IH]; intros acc; simpl.
  - intros s a s' [= <- <-]. exists []. by rewrite app_nil_r.
  - intros s b s' (acc' & s1 & H1 & H2)%M_bind_inv.
    destruct (Hbody _ _ _ _ _ H1) as (rs1 & Heq1 & Hrs1).
    destruct (IH _ _ _ _ H2) as (rs2 & Heq2 & Hrs2).
    exists (rs1 ++ rs2). split; [by rewrite Heq2, Heq1, app_assoc|by apply Forall_app].
Qed.

End Emits.

Lemma emits_nothing {A} (m : M A) (s s' : autoload) (a : A) :
  emits (fun _ => False) m -> m s = Ok (a, s') -> resources s' = resources s.
Proof.
  intros Hm H. destruct (Hm _ _ _ H) as ([|r rs] & Heq & Hrs).
  - by rewrite Heq, app_nil_r.
  - by inversion Hrs.
Qed.

Ltac emits_step :=
  first
    [ apply emits_ret | apply emits_lift | apply emits_gets | apply emits_attr
    | apply emits_read | apply emits_raise | apply emits_log
    | apply emits_modify; intros ?; reflexivity
    | apply emits_add_resource; reflexivity
    | apply emits_bind; [|intros ?]
    | apply emits_for_each; intros ?
    | apply emits_fold_each; intros ? ?
    | match goal with
      | |- emits _ (match ?x with _ => _ end) => destruct x
      end ].

Ltac emits_auto := repeat (cbv beta zeta; emits_step).

Lemma snmp_get_property_emits (P : resource -> Prop) (snmp : snmp_handler)
    (mib name : string) (index : Z) :
  emits P (snmp_get_property snmp mib name index).
Proof. unfold snmp_get_property. emits_auto. Qed.

Lemma _get_mapping_emits (P : resource -> Prop) (snmp : snmp_handler)
    (port_index : Z) (port_descr : string) :
  emits P (_get_mapping snmp port_index port_descr).
Proof. unfold _get_mapping. emits_auto. Qed.

Lemma _get_entity_table_classified_emits (P : resource -> Prop) (snmp : snmp_handler)
    (result_dict : QualiMibTable.t Z entity_row) (index : Z) (row : entity_row) :
  emits P (_get_entity_table_classified snmp result_dict index row).
Proof.
  unfold _get_entity_table_classified.
  repeat (cbv beta zeta; first [apply _get_mapping_emits | emits_step]).
Qed.

Lemma _load_snmp_tables_emits (P : resource -> Prop) (snmp : snmp_handler)
    (filter_by_column_no_values :
       column -> QualiMibTable.t Z entity_row -> QualiMibTable.t Z entity_row) :
  emits P (_load_snmp_tables snmp filter_by_column_no_values).
Proof.
  unfold _load_snmp_tables, _get_entity_table, _filter_entity_table,
    _filter_entity_table_visit, _get_entity_table_row.
  repeat (cbv beta zeta;
          first [apply _get_entity_table_classified_emits
                | apply snmp_get_property_emits | emits_step]).
Qed.

Lemma _filter_lower_bay_containers_emits (P : resource -> Prop) (snmp : snmp_handler) :
  emits P (_filter_lower_bay_containers snmp).
Proof.
  unfold _filter_lower_bay_containers.
  repeat (cbv beta zeta; first [apply snmp_get_property_emits | emits_step]).
Qed.

Lemma get_module_list_emits (P : resource -> Prop) (snmp : snmp_handler)
    (recursion_limit : nat) :
  emits P (get_module_list snmp recursion_limit).
Proof.
  unfold get_module_list, get_module_list_module.
  repeat (cbv beta zeta; first [apply snmp_get_property_emits | emits_step]).
Qed.

Lemma add_relative_paths_emits (P : resource -> Prop) (recursion_limit : nat) :
  emits P (add_relative_paths recursion_limit).
Proof. unfold add_relative_paths. emits_auto. Qed.

Lemma _get_chassis_attributes_emits (snmp : snmp_handler) (chassis : list Z) :
  emits (of_class ChassisResource) (_get_chassis_attributes snmp chassis).
Proof.
  unfold _get_chassis_attributes.
  repeat (cbv beta zeta; first [apply snmp_get_property_emits | emits_step]).
Qed.

Lemma _get_ports_attributes_emits (snmp : snmp_handler)
    (snmp_get_auto_negotiation : Z -> result string) (tables : link_tables) :
  emits (of_class PortResource)
    (_get_ports_attributes snmp snmp_get_auto_negotiation tables).
Proof.
  unfold _get_ports_attributes, _get_ports_attributes_port, _get_interface_details,
    _get_interface_details_row.
  repeat (cbv beta zeta; first [apply snmp_get_property_emits | emits_step]).
Qed.

Lemma _get_module_attributes_emits (snmp : snmp_handler) (recursion_limit : nat) :
  emits (of_class ModuleResource) (_get_module_attributes snmp recursion_limit).
Proof.
  unfold _get_module_attributes, _get_module_attributes_module.
  repeat (cbv beta zeta; first [apply snmp_get_property_emits | emits_step]).
Qed.

Lemma _get_power_ports_emits (snmp : snmp_handler) (recursion_limit : nat) :
  emits (of_class PowerPortResource) (_get_power_ports snmp recursion_limit).
Proof.
  unfold _get_power_ports, _filter_power_port_list, _filter_power_port_list_visit,
    _get_power_ports_port.
  repeat (cbv beta zeta; first [apply snmp_get_property_emits | emits_step]).
Qed.

Lemma _get_port_channels_emits (snmp : snmp_handler)
    (dict_items : list (Z * if_row) -> list (Z * if_row)) (tables : link_tables) :
  emits (of_class PortChannelResource) (_get_port_channels snmp dict_items tables).
Proof.
  unfold _get_port_channels, _get_port_channels_item.
  repeat (cbv beta zeta; first [apply snmp_get_property_emits | emits_step]).
Qed.

(** [discover], lines 64-119: when the steps before the tables leave no
    resource behind, the resources of the result come grouped by category
    in the order in which [discover] calls the emitting methods: the
    chassis first, then the ports, then the modules, then the power ports
    and last the port channels. *)
Theorem discover_resources_by_category (snmp : snmp_handler)
    (filter_by_column_no_values :
       column -> QualiMibTable.t Z entity_row -> QualiMibTable.t Z entity_row)
    (recursion_limit : nat)
    (_is_valid_device_os _get_device_details : M unit)
    (snmp_get_auto_negotiation : Z -> result string)
    (dict_items : list (Z * if_row) -> list (Z * if_row)) (tables : link_tables)
    (st st0 st' : autoload) (result : AutoLoadDetails) :
  discover_prelude _is_valid_device_os _get_device_details st = Ok (tt, st0) ->
  resources st0 = [] ->
  discover snmp filter_by_column_no_values recursion_limit
    _is_valid_device_os _get_device_details
    (_get_ports_attributes snmp snmp_get_auto_negotiation tables)
    (_get_port_channels snmp dict_items tables) st
  = Ok (result, st') ->
  exists chassis ports modules power_ports port_channels,
    details_resources result = chassis ++ ports ++ modules ++ power_ports ++ port_channels
    /\ Forall (of_class ChassisResource) chassis
    /\ Forall (of_class PortResource) ports
    /\ Forall (of_class ModuleResource) modules
    /\ Forall (of_class PowerPortResource) power_ports
    /\ Forall (of_class PortChannelResource) port_channels.
Proof.
  unfold discover_prelude, discover. intros Hpre Hempty.
  assert (Hstart : forall A (k : M A),
            (_ ← _is_valid_device_os; _ ← load_cisco_mib; _ ← _get_device_details;
             _ ← log (LoadMib ["CISCO-PRODUCTS-MIB"; "CISCO-ENTITY-VENDORTYPE-OID-MIB"]);
             k) st = k st0).
  { intros A k. revert Hpre. unfold mbind, M_bind.
    destruct (_is_valid_device_os st) as [[[] s1]|]; [|done].
    destruct (load_cisco_mib s1) as [[[] s2]|]; [|done].
    destruct (_get_device_details s2) as [[[] s3]|]; [|done].
    destruct (log _ s3) as [[[] s4]|]; [|done]. by intros [= ->]. }
  rewrite Hstart. clear Hstart Hpre.
  intros ([] & s1 & Hload & H)%M_bind_inv.
  apply (emits_nothing _ _ _ _ (_load_snmp_tables_emits _ _ _)) in Hload.
  apply M_bind_inv in H as (chassis & s & [= <- <-] & H).
  case_bool_decide.
  { injection H as <- <-. exists [], [], [], [], []. simpl. by repeat split. }
  apply M_bind_inv in H as ([] & s2 & Hpaths & H).
  assert (resources s2 = resources s1) as Hs2.
  { revert Hpaths. apply emits_nothing. emits_auto. }
  apply M_bind_inv in H as ([] & s3 & Hbays & H).
  apply (emits_nothing _ _ _ _ (_filter_lower_bay_containers_emits _ _)) in Hbays.
  apply M_bind_inv in H as ([] & s4 & Hmodules & H).
  apply (emits_nothing _ _ _ _ (get_module_list_emits _ _ _)) in Hmodules.
  apply M_bind_inv in H as ([] & s5 & Hadd & H).
  apply (emits_nothing _ _ _ _ (add_relative_paths_emits _ _)) in Hadd.
  apply M_bind_inv in H as (chassis' & s & [= <- <-] & H).
  apply M_bind_inv in H as ([] & s6 & Hchassis & H).
  apply _get_chassis_attributes_emits in Hchassis as (r1 & Hr1 & Hc1).
  apply M_bind_inv in H as ([] & s7 & Hports & H).
  apply _get_ports_attributes_emits in Hports as (r2 & Hr2 & Hc2).
  apply M_bind_inv in H as ([] & s8 & Hmods & H).
  apply _get_module_attributes_emits in Hmods as (r3 & Hr3 & Hc3).
  apply M_bind_inv in H as ([] & s9 & Hpower & H).
  apply _get_power_ports_emits in Hpower as (r4 & Hr4 & Hc4).
  apply M_bind_inv in H as ([] & s10 & Hchannels & H).
  apply _get_port_channels_emits in Hchannels as (r5 & Hr5 & Hc5).
  apply M_bind_inv in H as (res & s & [= <- <-] & H).
  apply M_bind_inv in H as (attrs & s & [= <- <-] & H).
  injection H as <- <-. simpl.
  exists r1, r2, r3, r4, r5. split; [|done].
  rewrite Hr5, Hr4, Hr3, Hr2, Hr1, Hadd, Hmodules, Hbays, Hs2, Hload, Hempty.
  simpl. by rewrite <- !app_assoc.
Qed.

Lemma discover_resources_by_category_witness :
  exists result chassis ports modules power_ports port_channels,
    List.map res_class (details_resources result)
    = [ChassisResource; PortResource; PortResource; ModuleResource; ModuleResource]
    /\ details_resources result
       = chassis ++ ports ++ modules ++ power_ports ++ port_channels
    /\ Forall (of_class ChassisResource) chassis
    /\ Forall (of_class PortResource) ports
    /\ Forall (of_class ModuleResource) modules
    /\ Forall (of_class PowerPortResource) power_ports
    /\ Forall (of_class PortChannelResource) port_channels.
Proof.
  destruct (discover three_module_device keeps_no_row 1000 (mret tt) add_root_attribute
              (_get_ports_attributes three_module_device (fun _ => Ok "'enabled'")
                 aggregation_tables)
              (_get_port_channels three_module_device id aggregation_tables) init)
    as [[result st']|] eqn:Hrun; [|by vm_compute in Hrun].
  set (st0 := set_snmp_log
                [UpdateMibSources;
                 LoadMib ["CISCO-PRODUCTS-MIB"; "CISCO-ENTITY-VENDORTYPE-OID-MIB"]]
                (set_attributes [mkAttribute "" "Vendor" "Cisco"] init)).
  assert (Hpre : discover_prelude (mret tt) add_root_attribute init = Ok (tt, st0))
    by reflexivity.
  assert (Hempty : resources st0 = []) by reflexivity.
  destruct (discover_resources_by_category three_module_device keeps_no_row 1000
              (mret tt) add_root_attribute (fun _ => Ok "'enabled'") id
              aggregation_tables init st0 st' result Hpre Hempty Hrun)
    as (chassis & ports & modules & power_ports & port_channels & H).
  exists result, chassis, ports, modules, power_ports, port_channels.
  split; [|exact H].
  vm_compute in Hrun. by injection Hrun as <- _.
Defined.
